(** * devsearch-go: the pagination calculator and the project tag use case

    A shallow embedding of
    - [internal/infrastructure/utils/pagination.go]  ([Paginate]),
    - [internal/application/project_usecase.go]      ([CreateProject], [UpdateProject]),
    - [internal/application/project_repository.go]   (the [ProjectRepository] interface),
    - the GORM repository implementing that interface,
    - the two handler lines that split the [tags] form field,
    followed by the properties established about them; and, in the same
    way, of the rest of the project repository, the listing of
    [RenderProjectsPage], the template helpers of package [utils], the
    skills of the profile page, and the use cases and GORM repositories
    of accounts and skills ([internal/application/user_usecase.go],
    [internal/infrastructure/user_gorm_repository.go]). *)

From Stdlib Require Import ZArith List String Ascii Bool Lia Sorted.
From Stdlib Require Import SpecFloat.
From Stdlib Require Import Permutation.
Import ListNotations.

Local Open Scope Z_scope.

(* ================================================================== *)
(** * Part I: the program                                              *)
(* ================================================================== *)

(** ** Go's [int] on a 64-bit platform

    An [int] is carried as a [Z] in [[min_int, max_int]]; every arithmetic
    operation of the source wraps its mathematical result back into that
    interval, as two's complement does. *)
Module Int.

Definition min_int : Z := - 2 ^ 63.
Definition max_int : Z := 2 ^ 63 - 1.

Definition in_range (z : Z) : Prop := min_int <= z <= max_int.

Definition wrap (z : Z) : Z := (z + 2 ^ 63) mod 2 ^ 64 - 2 ^ 63.

Definition add (a b : Z) : Z := wrap (a + b).
Definition sub (a b : Z) : Z := wrap (a - b).

End Int.

(** ** IEEE 754 binary64, as far as [Paginate] uses it

    [float64(n)], [/], [math.Ceil] and the conversion [int(f)].  A finite
    value is kept as a pair [Fin m e] standing for the number [m * 2^e];
    the sign of a zero is not kept (the only divisor of the program is
    the conversion of an [int], which is never the negative zero). *)
Module Float64.

Inductive float64 : Type :=
| NaN
| Inf (negative : bool)
| Fin (m e : Z).

(** Precision and exponent range of the binary64 format. *)
Definition prec : Z := 53.
Definition emin : Z := -1074.
Definition emax : Z := 1024.

(** [n / d] rounded to the nearest integer, ties to the even one
    ([0 <= n], [0 < d]). *)
Definition rne (n d : Z) : Z :=
  let q := n / d in
  match 2 * (n mod d) ?= d with
  | Lt => q
  | Gt => q + 1
  | Eq => if Z.even q then q else q + 1
  end.

(** [floor (log2 (p / q))] for [0 < p], [0 < q]. *)
Definition ilog2_quot (p q : Z) : Z :=
  let k := Z.log2 p - Z.log2 q in
  if p * 2 ^ Z.max 0 (- k) <? q * 2 ^ Z.max 0 k then k - 1 else k.

(** The binary64 number nearest to the exact quotient [p / q]
    ([0 < p], [0 < q]): the quotient is cut to 53 significant bits
    (fewer in the subnormal range) with round-to-nearest-even, and
    overflows to infinity. *)
Definition round_quot (negative : bool) (p q : Z) : float64 :=
  let e := Z.max (ilog2_quot p q - (prec - 1)) emin in
  let m := rne (p * 2 ^ Z.max 0 (- e)) (q * 2 ^ Z.max 0 e) in
  if 2 ^ emax <=? m * 2 ^ Z.max 0 e then Inf negative
  else Fin (if negative then - m else m) e.

(** [float64(n)] *)
Definition of_int (n : Z) : float64 :=
  if n =? 0 then Fin 0 0 else round_quot (n <? 0) (Z.abs n) 1.

(** [x / y] *)
Definition div (x y : float64) : float64 :=
  match x, y with
  | NaN, _ | _, NaN => NaN
  | Inf _, Inf _ => NaN
  | Inf sx, Fin my _ => Inf (xorb sx (my <? 0))
  | Fin _ _, Inf _ => Fin 0 0
  | Fin mx ex, Fin my ey =>
      if my =? 0 then (if mx =? 0 then NaN else Inf (mx <? 0))
      else if mx =? 0 then Fin 0 0
      else round_quot (xorb (mx <? 0) (my <? 0))
             (Z.abs mx * 2 ^ Z.max 0 (ex - ey))
             (Z.abs my * 2 ^ Z.max 0 (ey - ex))
  end.

(** [math.Ceil(x)] *)
Definition Ceil (x : float64) : float64 :=
  match x with
  | Fin m e => if 0 <=? e then Fin m e else Fin (- ((- m) / 2 ^ (- e))) 0
  | _ => x
  end.

(** [int(x)]: truncation towards zero.  Go leaves the result open when
    the value does not fit; the amd64 instruction [CVTTSD2SQ] delivers
    the "integer indefinite" value [min_int] then, which is what is
    modelled. *)
Definition to_int (x : float64) : Z :=
  match x with
  | Fin m e =>
      let v := if 0 <=? e then m * 2 ^ e else Z.quot m (2 ^ (- e)) in
      if (Int.min_int <=? v) && (v <=? Int.max_int) then v else Int.min_int
  | _ => Int.min_int
  end.

(** The same value in the Standard Library's executable IEEE 754
    specification, used to cross-check [of_int] and [div]. *)
Definition to_spec (x : float64) : spec_float :=
  match x with
  | NaN => S754_nan
  | Inf s => S754_infinity s
  | Fin m e => binary_normalize prec emax m e false
  end.

End Float64.

(** ** [strconv.Atoi]

    Go's decimal parser: an optional sign, then digits only.  A syntax
    error yields [0]; a value that does not fit yields the nearest bound
    of [int].  (Both come with an error, which [Paginate] drops.) *)
Module strconv.

Inductive NumError : Type := ErrSyntax | ErrRange.

Definition maxUint64 : Z := 2 ^ 64 - 1.

(** The digit loop of [ParseUint(s, 10, 64)]. *)
Fixpoint ParseUint_loop (s : string) (n : Z) : Z * option NumError :=
  match s with
  | EmptyString => (n, None)
  | String c rest =>
      let b := Z.of_N (N_of_ascii c) in
      if (48 <=? b) && (b <=? 57) then
        if maxUint64 / 10 + 1 <=? n then (maxUint64, Some ErrRange)
        else
          let n1 := n * 10 + (b - 48) in
          if maxUint64 <? n1 then (maxUint64, Some ErrRange)
          else ParseUint_loop rest n1
      else (0, Some ErrSyntax)
  end.

Definition ParseUint (s : string) : Z * option NumError :=
  match s with
  | EmptyString => (0, Some ErrSyntax)
  | _ => ParseUint_loop s 0
  end.

(** [ParseInt(s, 10, 0)], to which [Atoi] amounts (its fast path for
    short strings computes the same value). *)
Definition Atoi (s : string) : Z * option NumError :=
  match s with
  | EmptyString => (0, Some ErrSyntax)
  | String c rest =>
      let neg := Ascii.eqb c "-" in
      let body := if neg || Ascii.eqb c "+" then rest else s in
      let cutoff := 2 ^ 63 in
      match ParseUint body with
      | (_, Some ErrSyntax) => (0, Some ErrSyntax)
      | (un, _) =>
          if negb neg && (cutoff <=? un) then (cutoff - 1, Some ErrRange)
          else if neg && (cutoff <? un) then (- cutoff, Some ErrRange)
          else ((if neg then - un else un), None)
      end
  end.

End strconv.

(** ** [gin.Context], reduced to the query string of the request *)
Module gin.

Record Context : Type := { Query : list (string * string) }.

Fixpoint lookup (key : string) (kvs : list (string * string)) : option string :=
  match kvs with
  | [] => None
  | (k, v) :: rest => if String.eqb k key then Some v else lookup key rest
  end.

(** [c.DefaultQuery(key, defaultValue)] *)
Definition DefaultQuery (c : Context) (key defaultValue : string) : string :=
  match lookup key (Query c) with
  | Some v => v
  | None => defaultValue
  end.

End gin.

(** ** [utils.Paginate] *)
Module utils.

Record PaginationData : Type := {
  HasOtherPages : bool;
  HasPrevious : bool;
  HasNext : bool;
  PreviousPageNumber : Z;
  NextPageNumber : Z;
  CurrentPageNumber : Z;
  TotalPages : Z;
  CustomRange : list Z
}.

(** [for i := startPage; i <= endPage; i++ { customRange = append(customRange, i) }]
    One unit of fuel per evaluation of the loop condition; [None] when
    the fuel does not reach the exit of the loop. *)
Fixpoint customRange_loop (fuel : nat) (i endPage : Z) (customRange : list Z)
  : option (list Z) :=
  match fuel with
  | O => None
  | S fuel' =>
      if i <=? endPage
      then customRange_loop fuel' (Int.add i 1) endPage (customRange ++ [i])
      else Some customRange
  end.

(** The page requested by the client: [strconv.Atoi(c.DefaultQuery("page", "1"))]. *)
Definition requested_page (c : gin.Context) : Z :=
  fst (strconv.Atoi (gin.DefaultQuery c "page" "1")).

(** [Paginate] returns [None] exactly when its loop would never exit
    (the counter wraps around before passing [endPage]). *)
Definition Paginate (c : gin.Context) (totalItems itemsPerPage : Z)
  : option PaginationData :=
  let page := requested_page c in
  let totalPages :=
    Float64.to_int
      (Float64.Ceil
         (Float64.div (Float64.of_int totalItems) (Float64.of_int itemsPerPage))) in
  let page := if page <? 1 then 1 else page in
  let page := if (totalPages <? page) && (0 <? totalPages) then totalPages else page in
  let startPage := Int.sub page 2 in
  let startPage := if startPage <? 1 then 1 else startPage in
  let endPage := Int.add page 2 in
  let endPage := if totalPages <? endPage then totalPages else endPage in
  let '(startPage, endPage) :=
    if (Int.add (Int.sub endPage startPage) 1 <? 5) && (5 <=? totalPages) then
      if startPage =? 1 then (startPage, 5)
      else if endPage =? totalPages then (Int.sub totalPages 4, endPage)
      else (startPage, endPage)
    else (startPage, endPage) in
  match
    customRange_loop (S (Z.to_nat (endPage - startPage + 1))) startPage endPage []
  with
  | None => None
  | Some customRange =>
      Some {| HasOtherPages := 1 <? totalPages;
              HasPrevious := 1 <? page;
              HasNext := page <? totalPages;
              PreviousPageNumber := Int.sub page 1;
              NextPageNumber := Int.add page 1;
              CurrentPageNumber := page;
              TotalPages := totalPages;
              CustomRange := customRange |}
  end.

End utils.

(** ** [strings.Split] and [strings.TrimSpace] *)
Module strings.

(** [strings.Split(s, sep)] for a one-byte separator, which is how both
    handlers call it ([sep = ","]).  The result is never empty: a string
    without separator is returned whole, also the empty string. *)
Fixpoint Split (s : string) (sep : ascii) : list string :=
  match s with
  | EmptyString => [EmptyString]
  | String c rest =>
      if Ascii.eqb c sep then EmptyString :: Split rest sep
      else
        match Split rest sep with
        | piece :: pieces => String c piece :: pieces
        | [] => [String c EmptyString]
        end
  end.

(** The ASCII white space of [unicode.IsSpace]: tab, line feed, vertical
    tab, form feed, carriage return and space. *)
Definition isSpace (c : ascii) : bool :=
  let n := N_of_ascii c in
  ((9 <=? n)%N && (n <=? 13)%N) || (n =? 32)%N.

Fixpoint TrimLeft (s : string) : string :=
  match s with
  | String c rest => if isSpace c then TrimLeft rest else s
  | EmptyString => EmptyString
  end.

Fixpoint TrimRight (s : string) : string :=
  match s with
  | EmptyString => EmptyString
  | String c rest =>
      match TrimRight rest with
      | EmptyString => if isSpace c then EmptyString else String c EmptyString
      | rest' => String c rest'
      end
  end.

(** [strings.TrimSpace(s)].  Nothing in the repository calls it; it is
    here to write down what the specification says about tag names. *)
Definition TrimSpace (s : string) : string := TrimRight (TrimLeft s).

End strings.

(** ** [uuid.UUID] and Go's [error] *)
Module uuid.

Definition UUID : Type := N.
Definition Nil : UUID := 0%N.

End uuid.

(** A Go [error] value is kept as its message; [nil] is [None]. *)
Definition error : Type := string.

(** ** [internal/domain/models.go]: [Tag] and [Project]

    The time stamps and the [Owner], [Reviews] and [Projects] back
    references play no part in what follows and are left out. *)
Module Tag.

Record t : Type := { ID : uuid.UUID; Name : string }.

Definition eqb (a b : t) : bool := (ID a =? ID b)%N && String.eqb (Name a) (Name b).

End Tag.

Module Project.

Record t : Type := {
  ID : uuid.UUID;
  OwnerID : uuid.UUID;
  Title : string;
  Description : string;
  FeaturedImage : string;
  DemoLink : string;
  SourceLink : string;
  Tags : list Tag.t;
  VoteTotal : Z;
  VoteRatio : Z
}.

Definition with_ID (p : t) (id : uuid.UUID) : t :=
  {| ID := id; OwnerID := OwnerID p; Title := Title p; Description := Description p;
     FeaturedImage := FeaturedImage p; DemoLink := DemoLink p; SourceLink := SourceLink p;
     Tags := Tags p; VoteTotal := VoteTotal p; VoteRatio := VoteRatio p |}.

Definition with_Tags (p : t) (tags : list Tag.t) : t :=
  {| ID := ID p; OwnerID := OwnerID p; Title := Title p; Description := Description p;
     FeaturedImage := FeaturedImage p; DemoLink := DemoLink p; SourceLink := SourceLink p;
     Tags := tags; VoteTotal := VoteTotal p; VoteRatio := VoteRatio p |}.

Definition with_FeaturedImage (p : t) (image : string) : t :=
  {| ID := ID p; OwnerID := OwnerID p; Title := Title p; Description := Description p;
     FeaturedImage := image; DemoLink := DemoLink p; SourceLink := SourceLink p;
     Tags := Tags p; VoteTotal := VoteTotal p; VoteRatio := VoteRatio p |}.

End Project.

(** ** Calls that read and write a store

    A method that works on a store of type [R] takes the store and gives
    back its result with the store it leaves behind.  A [*domain.Project]
    argument is a pointer the callee may write through: such a method also
    gives back the project as it stands after the call. *)
Definition M (R A : Type) : Type := R -> A * R.

Definition ret {R A : Type} (a : A) : M R A := fun r => (a, r).

Definition bind {R A B : Type} (m : M R A) (k : A -> M R B) : M R B :=
  fun r => let (a, r') := m r in k a r'.

Declare Scope repo_scope.
Delimit Scope repo_scope with repo.
Notation "x <- m ;; k" := (bind m (fun x => k))
  (at level 61, m at next level, right associativity) : repo_scope.
Notation "' pat <- m ;; k" := (bind m (fun x => match x with pat => k end))
  (at level 61, pat pattern, m at next level, right associativity) : repo_scope.

(** ** [internal/application/project_repository.go]

    The five methods of the [ProjectRepository] interface that
    [CreateProject] and [UpdateProject] of the use case call.
    ([FindAllProjects], [FindProjectByID] and [DeleteProject] serve the
    other use-case methods.) *)
Module ProjectRepository.

Class t (R : Type) : Type := {
  CreateProject : Project.t -> M R (option error * Project.t);
  UpdateProject : Project.t -> M R (option error * Project.t);
  FindOrCreateTag : string -> M R (Tag.t + error);
  AssociateTagWithProject : Project.t -> Tag.t -> M R (option error * Project.t);
  ClearProjectTags : Project.t -> M R (option error * Project.t)
}.

End ProjectRepository.

(** ** [internal/application/project_usecase.go] *)
Module ProjectUseCase.
Section UseCase.

Context {R : Type} {ProjectRepo : ProjectRepository.t R}.

Local Open Scope repo_scope.

(** The loop [for _, tagName := range tagNames { ... }] that ends both
    [CreateProject] and [UpdateProject]: either error makes it
    [continue] with the next name. *)
Fixpoint range_tagNames (project : Project.t) (tagNames : list string)
  : M R Project.t :=
  match tagNames with
  | [] => ret project
  | tagName :: rest =>
      r <- ProjectRepository.FindOrCreateTag tagName ;;
      match r with
      | inr _ => range_tagNames project rest
      | inl tag =>
          '(_, project) <- ProjectRepository.AssociateTagWithProject project tag ;;
          range_tagNames project rest
      end
  end.

(** [CreateProject] creates a new project, handling tags. *)
Definition CreateProject (project : Project.t) (tagNames : list string)
  : M R (option error * Project.t) :=
  '(err, project) <- ProjectRepository.CreateProject project ;;
  match err with
  | Some e => ret (Some e, project)
  | None =>
      project <- range_tagNames project tagNames ;;
      ret (None, project)
  end.

(** [UpdateProject] updates an existing project, handling tags.  The
    error of [ClearProjectTags] is dropped. *)
Definition UpdateProject (project : Project.t) (tagNames : list string)
  : M R (option error * Project.t) :=
  '(_, project) <- ProjectRepository.ClearProjectTags project ;;
  '(err, project) <- ProjectRepository.UpdateProject project ;;
  match err with
  | Some e => ret (Some e, project)
  | None =>
      project <- range_tagNames project tagNames ;;
      ret (None, project)
  end.

End UseCase.
End ProjectUseCase.

(** ** [internal/interfaces/http/project_handlers.go]

    The handlers from the point where the form has been read: the tags
    field is split at the commas and handed to the use case as it is.
    (Session lookup, ownership check and image upload come before and do
    not touch the tag names.) *)
Module Handler.
Section Handlers.

Context {R : Type} {ProjectRepo : ProjectRepository.t R}.

Record PostForm : Type := {
  title : string;
  description : string;
  demo_link : string;
  source_link : string;
  tags : string
}.

Definition CreateProject (profileID : uuid.UUID) (form : PostForm)
  : M R (option error * Project.t) :=
  let project :=
    {| Project.ID := uuid.Nil;
       Project.OwnerID := profileID;
       Project.Title := title form;
       Project.Description := description form;
       Project.FeaturedImage := EmptyString;
       Project.DemoLink := demo_link form;
       Project.SourceLink := source_link form;
       Project.Tags := [];
       Project.VoteTotal := 0;
       Project.VoteRatio := 0 |} in
  let tagNames := strings.Split (tags form) "," in
  ProjectUseCase.CreateProject project tagNames.

Definition UpdateProject (project : Project.t) (form : PostForm)
  : M R (option error * Project.t) :=
  let project :=
    {| Project.ID := Project.ID project;
       Project.OwnerID := Project.OwnerID project;
       Project.Title := title form;
       Project.Description := description form;
       Project.FeaturedImage := Project.FeaturedImage project;
       Project.DemoLink := demo_link form;
       Project.SourceLink := source_link form;
       Project.Tags := Project.Tags project;
       Project.VoteTotal := Project.VoteTotal project;
       Project.VoteRatio := Project.VoteRatio project |} in
  let tagNames := strings.Split (tags form) "," in
  ProjectUseCase.UpdateProject project tagNames.

End Handlers.
End Handler.

(** ** The database behind GORM

    Three tables: [projects], [tags] and the join table [project_tags] of
    the [many2many:project_tags] relation, whose primary key is the pair
    of both identifiers.  [tags.name] carries no unique index (the [Tag]
    model declares [size:255;not null] only).  The functions below are
    what the GORM calls of the repository do to these tables.

    The tables keep the primary keys and the references of the join
    table.  They do not keep the lengths of the columns ([size:255]),
    the reference from [projects.owner_id] to the owner, or the
    timestamps: a statement that PostgreSQL refuses for a string that is
    too long or for an owner that is not there fails with an error and
    changes no row, as a call at an outage of the repository does, and
    the functions below do not say when that happens. *)
Module gorm.

Record DB : Type := {
  projects : list Project.t;
  tags : list Tag.t;
  project_tags : list (uuid.UUID * uuid.UUID)
}.

Definition empty : DB := {| projects := []; tags := []; project_tags := [] |}.

(** [uuid.New()] in a [BeforeCreate] hook: an identifier no row of the
    table has yet. *)
Definition fresh (used : list uuid.UUID) : uuid.UUID :=
  N.succ (fold_right N.max 0%N used).

Definition has_project (id : uuid.UUID) (d : DB) : bool :=
  existsb (fun p => (Project.ID p =? id)%N) (projects d).

Definition has_tag (id : uuid.UUID) (rows : list Tag.t) : bool :=
  existsb (fun t => (Tag.ID t =? id)%N) rows.

Definition row_eqb (a b : uuid.UUID * uuid.UUID) : bool :=
  (fst a =? fst b)%N && (snd a =? snd b)%N.

(** [SELECT * FROM tags WHERE name = ? ORDER BY id LIMIT 1] *)
Fixpoint First_by_name (name : string) (rows : list Tag.t) : option Tag.t :=
  match rows with
  | [] => None
  | t :: rest =>
      match First_by_name name rest with
      | Some t' =>
          if String.eqb (Tag.Name t) name && (Tag.ID t <? Tag.ID t')%N
          then Some t else Some t'
      | None => if String.eqb (Tag.Name t) name then Some t else None
      end
  end.

(** [INSERT INTO tags ... ON CONFLICT DO NOTHING] *)
Definition upsert_tag (rows : list Tag.t) (t : Tag.t) : list Tag.t :=
  if has_tag (Tag.ID t) rows then rows else rows ++ [t].

(** [INSERT INTO project_tags ... ON CONFLICT DO NOTHING] *)
Definition insert_join (rows : list (uuid.UUID * uuid.UUID))
  (row : uuid.UUID * uuid.UUID) : list (uuid.UUID * uuid.UUID) :=
  if existsb (row_eqb row) rows then rows else rows ++ [row].

(** Saving a project also saves what its [Tags] slice holds: the tags
    themselves and one join row for each. *)
Definition save_associations (p : Project.t) (d : DB) : DB :=
  {| projects := projects d;
     tags := fold_left upsert_tag (Project.Tags p) (tags d);
     project_tags :=
       fold_left insert_join
         (map (fun t => (Project.ID p, Tag.ID t)) (Project.Tags p))
         (project_tags d) |}.

Definition row_of (p : Project.t) : Project.t := Project.with_Tags p [].

(** An insert gives an empty [FeaturedImage] the default of its column
    ([default:'default.jpg']), in the row and in the value in memory. *)
Definition with_defaults (p : Project.t) : Project.t :=
  if String.eqb (Project.FeaturedImage p) EmptyString
  then Project.with_FeaturedImage p "default.jpg" else p.

(** [db.Create(project)]: the [BeforeCreate] hook gives a project
    without identifier a new one; the insert fails on an identifier
    that is taken. *)
Definition Create (p : Project.t) (d : DB) : option error * Project.t * DB :=
  let p :=
    if (Project.ID p =? uuid.Nil)%N
    then Project.with_ID p (fresh (map Project.ID (projects d)))
    else p in
  let p := with_defaults p in
  if has_project (Project.ID p) d
  then (Some "duplicate key value violates unique constraint"%string, p, d)
  else
    (None, p,
     save_associations p
       {| projects := projects d ++ [row_of p];
          tags := tags d;
          project_tags := project_tags d |}).

(** [db.Save(project)]: [Create] for a project without identifier,
    else the row is written over (or inserted, if it is not there). *)
Definition Save (p : Project.t) (d : DB) : option error * Project.t * DB :=
  if (Project.ID p =? uuid.Nil)%N then Create p d
  else
    let rows :=
      if has_project (Project.ID p) d
      then map (fun r => if (Project.ID r =? Project.ID p)%N then row_of p else r)
             (projects d)
      else projects d ++ [row_of (with_defaults p)] in
    let p := if has_project (Project.ID p) d then p else with_defaults p in
    (None, p,
     save_associations p
       {| projects := rows; tags := tags d; project_tags := project_tags d |}).

(** [db.Where("name = ?", name).FirstOrCreate(&tag, Tag{Name: name})]:
    a [SELECT], and an [INSERT] if it found nothing. *)
Definition FirstOrCreate (name : string) (d : DB) : Tag.t * DB :=
  match First_by_name name (tags d) with
  | Some t => (t, d)
  | None =>
      let t := {| Tag.ID := fresh (map Tag.ID (tags d)); Tag.Name := name |} in
      (t, {| projects := projects d; tags := tags d ++ [t];
             project_tags := project_tags d |})
  end.

(** [db.Model(project).Association("Tags").Append(tag)] first appends
    to the slice in memory ([Append_memory]) and then saves the
    associations of the project; the join rows point to the project's
    row, which has to exist. *)
Definition Append_memory (p : Project.t) (tag : Tag.t) : Project.t :=
  Project.with_Tags p (Project.Tags p ++ [tag]).

Definition Append_save (p : Project.t) (d : DB) : option error * DB :=
  if has_project (Project.ID p) d
  then (None, save_associations p d)
  else (Some "violates foreign key constraint"%string, d).

(** [db.Model(project).Association("Tags").Clear()] empties the slice
    in memory and deletes the join rows of the project.  No row of
    [tags] is touched. *)
Definition Clear_memory (p : Project.t) : Project.t := Project.with_Tags p [].

Definition Clear_delete (p : Project.t) (d : DB) : DB :=
  {| projects := projects d;
     tags := tags d;
     project_tags :=
       filter (fun row => negb (fst row =? Project.ID p)%N) (project_tags d) |}.

(** What [Preload("Tags")] reads for a project: the join of
    [project_tags] with [tags]. *)
Definition Tags_of (id : uuid.UUID) (d : DB) : list Tag.t :=
  flat_map
    (fun row =>
       if (fst row =? id)%N
       then filter (fun t => (Tag.ID t =? snd row)%N) (tags d)
       else [])
    (project_tags d).

End gorm.

(** ** The GORM repository

    The state of the repository is the database together with the
    outages to come: each call of a method asks the database once, and
    [true] at the head of [outages] means that this call finds it
    unreachable and returns an error, leaving the tables as they are.
    An empty list means no further outage. *)
Module GormProjectRepository.

Record t : Type := { DB : gorm.DB; outages : list bool }.

Definition unreachable : error := "connection refused"%string.

Definition is_down (r : t) : bool :=
  match outages r with
  | true :: _ => true
  | _ => false
  end.

Definition next (r : t) (d : gorm.DB) : t := {| DB := d; outages := tl (outages r) |}.

(** [r.DB.Create(project).Error] *)
Definition CreateProject (project : Project.t) : M t (option error * Project.t) :=
  fun r =>
    if is_down r then ((Some unreachable, project), next r (DB r))
    else
      let '(err, project, d) := gorm.Create project (DB r) in
      ((err, project), next r d).

(** [r.DB.Save(project).Error] *)
Definition UpdateProject (project : Project.t) : M t (option error * Project.t) :=
  fun r =>
    if is_down r then ((Some unreachable, project), next r (DB r))
    else
      let '(err, project, d) := gorm.Save project (DB r) in
      ((err, project), next r d).

(** [FindOrCreateTag] finds a tag by name or creates a new one if it
    doesn't exist. *)
Definition FindOrCreateTag (tagName : string) : M t (Tag.t + error) :=
  fun r =>
    if is_down r then (inr unreachable, next r (DB r))
    else
      let (tag, d) := gorm.FirstOrCreate tagName (DB r) in
      (inl tag, next r d).

(** [r.DB.Model(project).Association("Tags").Append(tag)] *)
Definition AssociateTagWithProject (project : Project.t) (tag : Tag.t)
  : M t (option error * Project.t) :=
  fun r =>
    let project := gorm.Append_memory project tag in
    if is_down r then ((Some unreachable, project), next r (DB r))
    else
      let (err, d) := gorm.Append_save project (DB r) in
      ((err, project), next r d).

(** [r.DB.Model(project).Association("Tags").Clear()] *)
Definition ClearProjectTags (project : Project.t) : M t (option error * Project.t) :=
  fun r =>
    let cleared := gorm.Clear_memory project in
    if is_down r then ((Some unreachable, cleared), next r (DB r))
    else ((None, cleared), next r (gorm.Clear_delete project (DB r))).

#[global] Instance repository : ProjectRepository.t t := {
  ProjectRepository.CreateProject := CreateProject;
  ProjectRepository.UpdateProject := UpdateProject;
  ProjectRepository.FindOrCreateTag := FindOrCreateTag;
  ProjectRepository.AssociateTagWithProject := AssociateTagWithProject;
  ProjectRepository.ClearProjectTags := ClearProjectTags
}.

End GormProjectRepository.

(** ** A repository under observation

    Any repository can be wrapped so that every call made through the
    interface is written down, with its arguments and its outcome, in
    the order of the calls. *)
Module Recorder.

Inductive Event : Type :=
| CreateProject (project : Project.t) (err : option error)
| UpdateProject (project : Project.t) (err : option error)
| FindOrCreateTag (tagName : string) (result : Tag.t + error)
| AssociateTagWithProject (project : Project.t) (tag : Tag.t) (err : option error)
| ClearProjectTags (project : Project.t) (err : option error).

Definition record {R A : Type} (m : M R A) (event : A -> Event) : M (R * list Event) A :=
  fun s =>
    let (a, r) := m (fst s) in
    (a, (r, snd s ++ [event a])).

#[global] Instance repository {R : Type} {repo : ProjectRepository.t R}
  : ProjectRepository.t (R * list Event) := {
  ProjectRepository.CreateProject p :=
    record (ProjectRepository.CreateProject p) (fun a => CreateProject p (fst a));
  ProjectRepository.UpdateProject p :=
    record (ProjectRepository.UpdateProject p) (fun a => UpdateProject p (fst a));
  ProjectRepository.FindOrCreateTag name :=
    record (ProjectRepository.FindOrCreateTag name) (fun a => FindOrCreateTag name a);
  ProjectRepository.AssociateTagWithProject p tag :=
    record (ProjectRepository.AssociateTagWithProject p tag)
      (fun a => AssociateTagWithProject p tag (fst a));
  ProjectRepository.ClearProjectTags p :=
    record (ProjectRepository.ClearProjectTags p) (fun a => ClearProjectTags p (fst a))
}.

(** The tag names handed to [FindOrCreateTag], in the order of the calls. *)
Definition looked_up (log : list Event) : list string :=
  flat_map (fun e => match e with FindOrCreateTag name _ => [name] | _ => [] end) log.

(** The tags [FindOrCreateTag] returned without error. *)
Definition resolved (log : list Event) : list Tag.t :=
  flat_map (fun e => match e with FindOrCreateTag _ (inl tag) => [tag] | _ => [] end) log.

(** The tags handed to [AssociateTagWithProject]. *)
Definition associated (log : list Event) : list Tag.t :=
  flat_map (fun e => match e with AssociateTagWithProject _ tag _ => [tag] | _ => [] end) log.

Definition is_tag_call (e : Event) : bool :=
  match e with
  | FindOrCreateTag _ _ | AssociateTagWithProject _ _ _ => true
  | _ => false
  end.

End Recorder.

(** ** Two requests inside [FindOrCreateTag] at once

    [FirstOrCreate] is two statements, a [SELECT] and, if that found no
    row, an [INSERT]; nothing holds a lock in between.  Each request is
    at one of three points, and a schedule says which request runs its
    next statement. *)
Module Concurrent.

Inductive Request : Type :=
| Selecting (name : string)
| Inserting (name : string)
| Returned (tag : Tag.t).

Definition step (q : Request) (rows : list Tag.t) : Request * list Tag.t :=
  match q with
  | Selecting name =>
      match gorm.First_by_name name rows with
      | Some t => (Returned t, rows)
      | None => (Inserting name, rows)
      end
  | Inserting name =>
      let t := {| Tag.ID := gorm.fresh (map Tag.ID rows); Tag.Name := name |} in
      (Returned t, rows ++ [t])
  | Returned t => (Returned t, rows)
  end.

(** [false] lets the first request run its next statement, [true] the
    second. *)
Fixpoint run (schedule : list bool) (a b : Request) (rows : list Tag.t)
  : Request * Request * list Tag.t :=
  match schedule with
  | [] => (a, b, rows)
  | false :: rest => let (a', rows') := step a rows in run rest a' b rows'
  | true :: rest => let (b', rows') := step b rows in run rest a b' rows'
  end.

Definition named (name : string) (rows : list Tag.t) : list Tag.t :=
  filter (fun t => String.eqb (Tag.Name t) name) rows.

End Concurrent.

(** ** Template helpers of package [utils]

    The three functions that [main] registers in the template
    [FuncMap].  A Go string is its bytes: [len(s)] counts bytes and
    [s[:n]] cuts after the n-th byte. *)
Module TemplateFuncs.

(** [Pluralize] returns the plural form of a word if count is not 1. *)
Definition Pluralize (count : Z) (singular plural : string) : string :=
  if count =? 1 then singular else plural.

(** [SliceString] slices a string to a given length and adds an
    ellipsis if truncated.  [None] is the run-time panic of
    [s[:length]] for a negative [length]. *)
Definition SliceString (s : string) (length : Z) : option string :=
  if Z.of_nat (String.length s) <=? length then Some s
  else if length <? 0 then None
  else Some (String.substring 0 (Z.to_nat length) s ++ "...")%string.

(** The line feed, Go's ["\n"]. *)
Definition LF : ascii := ascii_of_nat 10.

(** [strings.ReplaceAll(s, old, new)] for a one-byte [old]. *)
Fixpoint ReplaceAll (s : string) (old : ascii) (new : string) : string :=
  match s with
  | EmptyString => EmptyString
  | String c rest =>
      if Ascii.eqb c old then (new ++ ReplaceAll rest old new)%string
      else String c (ReplaceAll rest old new)
  end.

(** [Linebreaksbr] replaces newline characters with [<br>] tags; the
    result is handed to the template as [template.HTML], that is,
    without escaping. *)
Definition Linebreaksbr (text : string) : string := ReplaceAll text LF "<br>"%string.

End TemplateFuncs.

(** ** [internal/domain/models.go]: [User], [Skill], [Profile], [Message]

    As for [Project], the time stamps and the fields that only hold
    preloaded rows of other tables are left out, except
    [Profile.Skills], which the profile page reads. *)
Module User.

Record t : Type := {
  ID : uuid.UUID;
  Name : string;
  Email : string;
  Username : string;
  Password : string
}.

End User.

Module Skill.

Record t : Type := {
  ID : uuid.UUID;
  OwnerID : uuid.UUID;
  Name : string;
  Description : string
}.

End Skill.

Module Profile.

Record t : Type := {
  ID : uuid.UUID;
  UserID : uuid.UUID;
  Name : string;
  Email : string;
  Username : string;
  Location : string;
  ShortIntro : string;
  Bio : string;
  ProfileImage : string;
  SocialGithub : string;
  SocialLinkedin : string;
  SocialWebsite : string;
  Skills : list Skill.t
}.

End Profile.

(** ** [RenderUserProfilePage], from the point where the profile has
    been fetched *)
Module UserProfilePage.

(** [for _, skill := range profile.Skills { ... }]: skills with a
    description go to [topSkills], the others to [otherSkills]. *)
Fixpoint range_Skills (skills topSkills otherSkills : list Skill.t)
  : list Skill.t * list Skill.t :=
  match skills with
  | [] => (topSkills, otherSkills)
  | skill :: rest =>
      if negb (String.eqb (Skill.Description skill) EmptyString)
      then range_Skills rest (topSkills ++ [skill]) otherSkills
      else range_Skills rest topSkills (otherSkills ++ [skill])
  end.

(** The fields of [TemplateData] this handler fills in itself. *)
Record Data : Type := {
  Profile : Profile.t;
  TopSkills : list Skill.t;
  OtherSkills : list Skill.t;
  CurrentUserID : uuid.UUID;
  IsOwner : bool
}.

(** [currentUserID] is the user of the session, [uuid.Nil] without
    one (or with an identifier that does not parse). *)
Definition RenderUserProfilePage (profile : Profile.t) (currentUserID : uuid.UUID)
  : Data :=
  let (topSkills, otherSkills) := range_Skills (Profile.Skills profile) [] [] in
  {| Profile := profile;
     TopSkills := topSkills;
     OtherSkills := otherSkills;
     CurrentUserID := currentUserID;
     IsOwner := (currentUserID =? Profile.UserID profile)%N |}.

End UserProfilePage.

(** ** More of Go's [int]: multiplication, wrapping as [+] and [-] do *)
Module IntArith.

Definition mul (a b : Z) : Z := Int.wrap (a * b).

End IntArith.

(** ** The rest of [internal/application/project_repository.go]

    [FindAllProjects] and [FindProjectByID], the two reading methods of
    the [ProjectRepository] interface.  ([DeleteProject], the last method
    of the interface, is not followed here.) *)
Module ProjectRepositoryRest.

Class t (R : Type) : Type := {
  FindAllProjects : string -> Z -> Z -> M R (list Project.t * Z + error);
  FindProjectByID : uuid.UUID -> M R (Project.t + error)
}.

End ProjectRepositoryRest.

(** ** The rest of [internal/application/project_usecase.go] *)
Module ProjectUseCaseRest.
Section UseCase.

Context {R : Type} {ProjectRepo : ProjectRepositoryRest.t R}.

(** [GetProjects] retrieves all projects with optional search and pagination. *)
Definition GetProjects (searchQuery : string) (page limit : Z)
  : M R (list Project.t * Z + error) :=
  ProjectRepositoryRest.FindAllProjects searchQuery page limit.

(** [GetProjectByID] retrieves a single project by its ID. *)
Definition GetProjectByID (id : uuid.UUID) : M R (Project.t + error) :=
  ProjectRepositoryRest.FindProjectByID id.

End UseCase.
End ProjectUseCaseRest.

(** ** What [FindAllProjects] leaves to PostgreSQL

    Matching with [ILIKE] and the order of [ORDER BY] depend on the
    locale and the collation of the database; they are taken as
    given.  Rows that tie on all three columns of the [ORDER BY] have
    no order of their own: PostgreSQL is free to return them in one
    order for one query and in another for the next, so the order is
    given for each [LIMIT] and [OFFSET]. *)
Module postgres.

Class t : Type := {
  (** [value ILIKE pattern] *)
  ILIKE : string -> string -> bool;
  (** the rows in the order that the query with this [LIMIT] and this
      [OFFSET] gets from
      [ORDER BY vote_ratio DESC, vote_total DESC, title ASC] *)
  ORDER_BY_votes_title : Z -> Z -> list Project.t -> list Project.t
}.

End postgres.

(** ** The rest of the GORM repository *)
Module GormProjectRepositoryRest.
Section Queries.

Context {pg : postgres.t}.

Definition ErrRecordNotFound : error := "record not found"%string.

(** [Preload("Tags")]: the row with the tags its join rows lead to.
    ([Owner] and [Reviews] are not kept in [Project.t].) *)
Definition Preload (d : gorm.DB) (row : Project.t) : Project.t :=
  Project.with_Tags row (gorm.Tags_of (Project.ID row) d).

(** [Where("title ILIKE ? OR description ILIKE ?", "%"+q+"%", "%"+q+"%")],
    applied only if [searchQuery != ""]. *)
Definition Where (searchQuery : string) (rows : list Project.t) : list Project.t :=
  if String.eqb searchQuery EmptyString then rows
  else
    let pattern := ("%" ++ searchQuery ++ "%")%string in
    filter
      (fun p =>
         postgres.ILIKE (Project.Title p) pattern ||
         postgres.ILIKE (Project.Description p) pattern)
      rows.

(** [Limit(limit)]: GORM writes [LIMIT] for a limit that is not
    negative.  [Offset(offset)]: GORM writes [OFFSET] for a positive
    offset only. *)
Definition Limit (limit : Z) (rows : list Project.t) : list Project.t :=
  if limit <? 0 then rows else firstn (Z.to_nat limit) rows.

Definition Offset (offset : Z) (rows : list Project.t) : list Project.t :=
  if 0 <? offset then skipn (Z.to_nat offset) rows else rows.

(** [FindAllProjects] retrieves all projects with optional search and
    pagination.  It asks the database twice, with [Count] and with
    [Find], on the same query value: an error of [Count] stays on that
    value, [Find] is then not run and the error is what [.Error]
    returns. *)
Definition FindAllProjects (searchQuery : string) (page limit : Z)
  : M GormProjectRepository.t (list Project.t * Z + error) :=
  fun r =>
    let d := GormProjectRepository.DB r in
    let query := Where searchQuery (gorm.projects d) in
    if GormProjectRepository.is_down r
    then (inr GormProjectRepository.unreachable, GormProjectRepository.next r d)
    else
      let totalProjects := Z.of_nat (List.length query) in
      let r := GormProjectRepository.next r d in
      let offset := IntArith.mul (Int.sub page 1) limit in
      if GormProjectRepository.is_down r
      then (inr GormProjectRepository.unreachable, GormProjectRepository.next r d)
      else
        let projects :=
          map (Preload d)
            (Limit limit
               (Offset offset (postgres.ORDER_BY_votes_title limit offset query))) in
        (inl (projects, totalProjects), GormProjectRepository.next r d).

(** [FindProjectByID] retrieves a single project by its ID:
    [First(&project, "id = ?", id)] with the tags preloaded. *)
Definition FindProjectByID (id : uuid.UUID)
  : M GormProjectRepository.t (Project.t + error) :=
  fun r =>
    let d := GormProjectRepository.DB r in
    if GormProjectRepository.is_down r
    then (inr GormProjectRepository.unreachable, GormProjectRepository.next r d)
    else
      match find (fun p => (Project.ID p =? id)%N) (gorm.projects d) with
      | Some row => (inl (Preload d row), GormProjectRepository.next r d)
      | None => (inr ErrRecordNotFound, GormProjectRepository.next r d)
      end.

#[global] Instance repository : ProjectRepositoryRest.t GormProjectRepository.t := {
  ProjectRepositoryRest.FindAllProjects := FindAllProjects;
  ProjectRepositoryRest.FindProjectByID := FindProjectByID
}.

End Queries.
End GormProjectRepositoryRest.

(** ** [RenderProjectsPage]

    The handler of [/] and [/projects].  Of the template data, the
    projects, the search query and the pagination are kept; the flash
    messages and the authentication flag, which come from the session,
    are not. *)
Module ProjectsPage.
Section Handlers.

Context {R : Type} {ProjectRepo : ProjectRepositoryRest.t R}.

Local Open Scope repo_scope.

(** [c.Query(key)]: the value of the parameter, or the empty string. *)
Definition Query (c : gin.Context) (key : string) : string :=
  gin.DefaultQuery c key EmptyString.

Inductive Response : Type :=
| Redirect (location flashKey flashMessage : string)
| HTML (name : string) (Projects : list Project.t) (SearchQuery : string)
       (Pagination : utils.PaginationData).

(** [None]: the handler never answers ([Paginate] does not return). *)
Definition RenderProjectsPage (c : gin.Context) : M R (option Response) :=
  let searchQuery := Query c "search_query" in
  let page := fst (strconv.Atoi (gin.DefaultQuery c "page" "1")) in
  let limit := 3 in
  res <- ProjectUseCaseRest.GetProjects searchQuery page limit ;;
  match res with
  | inr _ => ret (Some (Redirect "/" "flash_error" "Failed to load projects"))
  | inl (projects, totalProjects) =>
      match utils.Paginate c totalProjects limit with
      | None => ret None
      | Some pagination =>
          ret (Some (HTML "projects.html" projects searchQuery pagination))
      end
  end.

End Handlers.
End ProjectsPage.

(** ** [golang.org/x/crypto/bcrypt]

    The two functions the program calls.  Which salt
    [GenerateFromPassword] draws is not modelled: what is proved below
    holds whatever hash it returns. *)
Module bcrypt.

Class t : Type := {
  GenerateFromPassword : string -> Z -> string + error;
  CompareHashAndPassword : string -> string -> option error
}.

Definition DefaultCost : Z := 10.

End bcrypt.

(** ** The user side of [internal/application]: the repository
    interfaces for users, profiles and skills

    A [map[string]string] is kept as the list of its entries; reading a
    key that is not there gives the empty string. *)
Definition map_index (m : list (string * string)) (key : string) : string :=
  match gin.lookup key m with
  | Some value => value
  | None => EmptyString
  end.

Module UserRepository.

Class t (R : Type) : Type := {
  CreateUser : User.t -> M R (option error * User.t);
  FindUserByUsername : string -> M R (User.t + error);
  FindUserByUsernameOrEmail : string -> string -> M R (User.t + error);
  FindUserByID : uuid.UUID -> M R (User.t + error);
  UpdateUser : User.t -> M R (option error * User.t);
  DeleteUser : uuid.UUID -> M R (option error)
}.

End UserRepository.

(** The methods of [ProfileRepository] that the use cases of accounts
    and skills call. *)
Module ProfileRepository.

Class t (R : Type) : Type := {
  CreateProfile : Profile.t -> M R (option error * Profile.t);
  FindProfileByUserID : uuid.UUID -> M R (Profile.t + error);
  UpdateProfile : Profile.t -> M R (option error * Profile.t)
}.

End ProfileRepository.

Module SkillRepository.

Class t (R : Type) : Type := {
  CreateSkill : Skill.t -> M R (option error * Skill.t);
  FindSkillByID : uuid.UUID -> M R (Skill.t + error);
  FindUserSkill : uuid.UUID -> uuid.UUID -> M R (Skill.t + error);
  UpdateSkill : Skill.t -> M R (option error * Skill.t);
  DeleteSkill : uuid.UUID -> M R (option error)
}.

End SkillRepository.

(** ** [internal/application/user_usecase.go]: accounts and skills *)
Module UserUseCase.
Section UseCase.

Context {R : Type} {UserRepo : UserRepository.t R} {ProfileRepo : ProfileRepository.t R}
        {SkillRepo : SkillRepository.t R} {Bcrypt : bcrypt.t}.

Local Open Scope repo_scope.

(** [fmt.Errorf("...: %w", err)] *)
Definition Errorf (message : string) (err : error) : error :=
  (message ++ ": " ++ err)%string.

(** [RegisterUser] registers a new user and creates their profile. *)
Definition RegisterUser (username email password : string)
  : M R (User.t * Profile.t + error) :=
  existing <- UserRepository.FindUserByUsernameOrEmail username email ;;
  match existing with
  | inl _ => ret (inr "username or email already exists"%string)
  | inr _ =>
      match bcrypt.GenerateFromPassword password bcrypt.DefaultCost with
      | inr err => ret (inr (Errorf "failed to hash password" err))
      | inl hashedPassword =>
          let user :=
            {| User.ID := uuid.Nil; User.Name := EmptyString; User.Email := EmptyString;
               User.Username := username; User.Password := hashedPassword |} in
          '(err, user) <- UserRepository.CreateUser user ;;
          match err with
          | Some err => ret (inr (Errorf "failed to create user" err))
          | None =>
              let profile :=
                {| Profile.ID := uuid.Nil; Profile.UserID := User.ID user;
                   Profile.Name := username; Profile.Email := email;
                   Profile.Username := username; Profile.Location := EmptyString;
                   Profile.ShortIntro := EmptyString; Profile.Bio := EmptyString;
                   Profile.ProfileImage := EmptyString; Profile.SocialGithub := EmptyString;
                   Profile.SocialLinkedin := EmptyString;
                   Profile.SocialWebsite := EmptyString; Profile.Skills := [] |} in
              '(err, profile) <- ProfileRepository.CreateProfile profile ;;
              match err with
              | Some err =>
                  _ <- UserRepository.DeleteUser (User.ID user) ;;
                  ret (inr (Errorf "failed to create user profile" err))
              | None => ret (inl (user, profile))
              end
          end
      end
  end.

(** [LoginUser] authenticates a user. *)
Definition LoginUser (username password : string) : M R (User.t + error) :=
  found <- UserRepository.FindUserByUsername username ;;
  match found with
  | inr _ => ret (inr "username or password is incorrect"%string)
  | inl user =>
      match bcrypt.CompareHashAndPassword (User.Password user) password with
      | Some _ => ret (inr "username or password is incorrect"%string)
      | None => ret (inl user)
      end
  end.

(** [GetUserAccount] retrieves the authenticated user's account details. *)
Definition GetUserAccount (userID : uuid.UUID) : M R (User.t + error) :=
  found <- UserRepository.FindUserByID userID ;;
  match found with
  | inr _ => ret (inr "user not found"%string)
  | inl user => ret (inl user)
  end.

(** [UpdateUserAccount] updates the authenticated user's account details. *)
Definition UpdateUserAccount (userID : uuid.UUID) (profileData : list (string * string))
    (profileImage : string) : M R (Profile.t + error) :=
  found <- UserRepository.FindUserByID userID ;;
  match found with
  | inr _ => ret (inr "user not found"%string)
  | inl user =>
      found <- ProfileRepository.FindProfileByUserID userID ;;
      match found with
      | inr _ => ret (inr "profile not found"%string)
      | inl profile =>
          let profile :=
            {| Profile.ID := Profile.ID profile;
               Profile.UserID := Profile.UserID profile;
               Profile.Name := map_index profileData "name";
               Profile.Email := map_index profileData "email";
               Profile.Username := map_index profileData "username";
               Profile.Location := Profile.Location profile;
               Profile.ShortIntro := map_index profileData "short_intro";
               Profile.Bio := map_index profileData "bio";
               Profile.ProfileImage :=
                 if negb (String.eqb profileImage EmptyString) then profileImage
                 else Profile.ProfileImage profile;
               Profile.SocialGithub := map_index profileData "social_github";
               Profile.SocialLinkedin := Profile.SocialLinkedin profile;
               Profile.SocialWebsite := map_index profileData "social_website";
               Profile.Skills := Profile.Skills profile |} in
          '(err, profile) <- ProfileRepository.UpdateProfile profile ;;
          match err with
          | Some err => ret (inr (Errorf "failed to update profile" err))
          | None =>
              if negb (String.eqb (User.Username user) (Profile.Username profile)) then
                let user :=
                  {| User.ID := User.ID user; User.Name := User.Name user;
                     User.Email := User.Email user;
                     User.Username := Profile.Username profile;
                     User.Password := User.Password user |} in
                '(err, _) <- UserRepository.UpdateUser user ;;
                match err with
                | Some err =>
                    ret (inr (Errorf "failed to update username in User table" err))
                | None => ret (inl profile)
                end
              else ret (inl profile)
          end
      end
  end.

(** [CreateSkill] creates a new skill for a user. *)
Definition CreateSkill (userID : uuid.UUID) (name description : string)
  : M R (Skill.t + error) :=
  found <- ProfileRepository.FindProfileByUserID userID ;;
  match found with
  | inr err => ret (inr (Errorf "profile not found for user" err))
  | inl profile =>
      let skill :=
        {| Skill.ID := uuid.Nil; Skill.OwnerID := Profile.ID profile;
           Skill.Name := name; Skill.Description := description |} in
      '(err, skill) <- SkillRepository.CreateSkill skill ;;
      match err with
      | Some err => ret (inr (Errorf "failed to create skill" err))
      | None => ret (inl skill)
      end
  end.

(** [UpdateSkill] updates an existing skill. *)
Definition UpdateSkill (skillID userID : uuid.UUID) (name description : string)
  : M R (Skill.t + error) :=
  found <- SkillRepository.FindUserSkill skillID userID ;;
  match found with
  | inr err => ret (inr (Errorf "skill not found or unauthorized" err))
  | inl skill =>
      let skill :=
        {| Skill.ID := Skill.ID skill; Skill.OwnerID := Skill.OwnerID skill;
           Skill.Name := name; Skill.Description := description |} in
      '(err, skill) <- SkillRepository.UpdateSkill skill ;;
      match err with
      | Some err => ret (inr (Errorf "failed to update skill" err))
      | None => ret (inl skill)
      end
  end.

(** [DeleteSkill] deletes a skill. *)
Definition DeleteSkill (skillID userID : uuid.UUID) : M R (option error) :=
  found <- SkillRepository.FindUserSkill skillID userID ;;
  match found with
  | inr err => ret (Some (Errorf "skill not found or unauthorized" err))
  | inl skill => SkillRepository.DeleteSkill (Skill.ID skill)
  end.

(** [GetSkillByID] retrieves a single skill by ID. *)
Definition GetSkillByID (id : uuid.UUID) : M R (Skill.t + error) :=
  SkillRepository.FindSkillByID id.

End UseCase.
End UserUseCase.

(** ** The tables of users, profiles and skills

    [users] has a unique index on [email] and one on [username];
    [profiles] has one on [user_id], which refers to a row of [users];
    [skills.owner_id] refers to a row of [profiles].  Each function
    below is what one GORM call of the repositories does to the
    tables.

    The tables keep these keys and references.  They do not keep the
    lengths of the columns ([size:255]): a statement that PostgreSQL
    refuses for a string that is too long fails with an error and
    changes no row, as a call at an outage of the repository does, and
    the functions below do not say when that happens.  What is proved
    of a call that succeeded, and of what no call changes, does not
    depend on it. *)
Module gorm_accounts.

Record DB : Type := {
  users : list User.t;
  profiles : list Profile.t;
  skills : list Skill.t
}.

Definition empty : DB := {| users := []; profiles := []; skills := [] |}.

Definition ErrRecordNotFound : error := "record not found"%string.
Definition ErrDuplicatedKey : error :=
  "duplicate key value violates unique constraint"%string.
Definition ErrForeignKeyViolated : error := "violates foreign key constraint"%string.

(** [uuid.New()] in a [BeforeCreate] hook: an identifier that nothing
    in the database has. *)
Definition New (d : DB) : uuid.UUID :=
  gorm.fresh (map User.ID (users d) ++ map Profile.ID (profiles d) ++ map Skill.ID (skills d)).

(** [First]: of the rows that satisfy the condition, the one with the
    least primary key. *)
Fixpoint First {A : Type} (key : A -> uuid.UUID) (condition : A -> bool) (rows : list A)
  : option A :=
  match rows with
  | [] => None
  | row :: rest =>
      match First key condition rest with
      | Some row' =>
          if condition row && (key row <? key row')%N then Some row else Some row'
      | None => if condition row then Some row else None
      end
  end.

Definition with_user_ID (u : User.t) (id : uuid.UUID) : User.t :=
  {| User.ID := id; User.Name := User.Name u; User.Email := User.Email u;
     User.Username := User.Username u; User.Password := User.Password u |}.

(** [db.Create(user)] *)
Definition Create_user (u : User.t) (d : DB) : option error * User.t * DB :=
  let u := if (User.ID u =? uuid.Nil)%N then with_user_ID u (New d) else u in
  if existsb
       (fun row =>
          (User.ID row =? User.ID u)%N ||
          String.eqb (User.Email row) (User.Email u) ||
          String.eqb (User.Username row) (User.Username u))
       (users d)
  then (Some ErrDuplicatedKey, u, d)
  else (None, u, {| users := users d ++ [u]; profiles := profiles d; skills := skills d |}).

(** [db.Save(user)] for a user that has an identifier: the row is
    written over, unless that breaks a unique index. *)
Definition Save_user (u : User.t) (d : DB) : option error * User.t * DB :=
  if (User.ID u =? uuid.Nil)%N then Create_user u d
  else if existsb
            (fun row =>
               negb (User.ID row =? User.ID u)%N &&
               (String.eqb (User.Email row) (User.Email u) ||
                String.eqb (User.Username row) (User.Username u)))
            (users d)
  then (Some ErrDuplicatedKey, u, d)
  else
    let rows :=
      if existsb (fun row => (User.ID row =? User.ID u)%N) (users d)
      then map (fun row => if (User.ID row =? User.ID u)%N then u else row) (users d)
      else users d ++ [u] in
    (None, u, {| users := rows; profiles := profiles d; skills := skills d |}).

(** [db.Delete(&User{}, "id = ?", id)]: refused while a profile refers
    to the user; deleting no row is no error. *)
Definition Delete_user (id : uuid.UUID) (d : DB) : option error * DB :=
  if existsb (fun p => (Profile.UserID p =? id)%N) (profiles d)
  then (Some ErrForeignKeyViolated, d)
  else
    (None,
     {| users := filter (fun u => negb (User.ID u =? id)%N) (users d);
        profiles := profiles d; skills := skills d |}).

Definition with_profile_ID (p : Profile.t) (id : uuid.UUID) : Profile.t :=
  {| Profile.ID := id; Profile.UserID := Profile.UserID p; Profile.Name := Profile.Name p;
     Profile.Email := Profile.Email p; Profile.Username := Profile.Username p;
     Profile.Location := Profile.Location p; Profile.ShortIntro := Profile.ShortIntro p;
     Profile.Bio := Profile.Bio p; Profile.ProfileImage := Profile.ProfileImage p;
     Profile.SocialGithub := Profile.SocialGithub p;
     Profile.SocialLinkedin := Profile.SocialLinkedin p;
     Profile.SocialWebsite := Profile.SocialWebsite p; Profile.Skills := Profile.Skills p |}.

Definition with_ProfileImage (p : Profile.t) (image : string) : Profile.t :=
  {| Profile.ID := Profile.ID p; Profile.UserID := Profile.UserID p;
     Profile.Name := Profile.Name p;
     Profile.Email := Profile.Email p; Profile.Username := Profile.Username p;
     Profile.Location := Profile.Location p; Profile.ShortIntro := Profile.ShortIntro p;
     Profile.Bio := Profile.Bio p; Profile.ProfileImage := image;
     Profile.SocialGithub := Profile.SocialGithub p;
     Profile.SocialLinkedin := Profile.SocialLinkedin p;
     Profile.SocialWebsite := Profile.SocialWebsite p; Profile.Skills := Profile.Skills p |}.

Definition with_Skills (p : Profile.t) (skills : list Skill.t) : Profile.t :=
  {| Profile.ID := Profile.ID p; Profile.UserID := Profile.UserID p;
     Profile.Name := Profile.Name p;
     Profile.Email := Profile.Email p; Profile.Username := Profile.Username p;
     Profile.Location := Profile.Location p; Profile.ShortIntro := Profile.ShortIntro p;
     Profile.Bio := Profile.Bio p; Profile.ProfileImage := Profile.ProfileImage p;
     Profile.SocialGithub := Profile.SocialGithub p;
     Profile.SocialLinkedin := Profile.SocialLinkedin p;
     Profile.SocialWebsite := Profile.SocialWebsite p; Profile.Skills := skills |}.

(** [db.Create(profile)] for a profile that brings no skills along (as
    [RegisterUser] builds it; the skills of a profile are rows of their
    own table).  An empty [ProfileImage] gets the default of the
    column. *)
Definition Create_profile (p : Profile.t) (d : DB) : option error * Profile.t * DB :=
  let p := if (Profile.ID p =? uuid.Nil)%N then with_profile_ID p (New d) else p in
  let p :=
    if String.eqb (Profile.ProfileImage p) EmptyString
    then with_ProfileImage p "user-default.png" else p in
  if existsb
       (fun row =>
          (Profile.ID row =? Profile.ID p)%N || (Profile.UserID row =? Profile.UserID p)%N)
       (profiles d)
  then (Some ErrDuplicatedKey, p, d)
  else if negb (existsb (fun u => (User.ID u =? Profile.UserID p)%N) (users d))
  then (Some ErrForeignKeyViolated, p, d)
  else
    (None, p,
     {| users := users d; profiles := profiles d ++ [with_Skills p []]; skills := skills d |}).

(** [db.Save(profile)] for a profile that has an identifier and brings
    no skills along. *)
Definition Save_profile (p : Profile.t) (d : DB) : option error * Profile.t * DB :=
  if (Profile.ID p =? uuid.Nil)%N then Create_profile p d
  else if existsb
            (fun row =>
               negb (Profile.ID row =? Profile.ID p)%N &&
               (Profile.UserID row =? Profile.UserID p)%N)
            (profiles d)
  then (Some ErrDuplicatedKey, p, d)
  else if negb (existsb (fun u => (User.ID u =? Profile.UserID p)%N) (users d))
  then (Some ErrForeignKeyViolated, p, d)
  else
    let rows :=
      if existsb (fun row => (Profile.ID row =? Profile.ID p)%N) (profiles d)
      then map (fun row => if (Profile.ID row =? Profile.ID p)%N then with_Skills p [] else row)
             (profiles d)
      else profiles d ++ [with_Skills p []] in
    (None, p, {| users := users d; profiles := rows; skills := skills d |}).

Definition with_skill_ID (s : Skill.t) (id : uuid.UUID) : Skill.t :=
  {| Skill.ID := id; Skill.OwnerID := Skill.OwnerID s; Skill.Name := Skill.Name s;
     Skill.Description := Skill.Description s |}.

(** [db.Create(skill)] *)
Definition Create_skill (s : Skill.t) (d : DB) : option error * Skill.t * DB :=
  let s := if (Skill.ID s =? uuid.Nil)%N then with_skill_ID s (New d) else s in
  if existsb (fun row => (Skill.ID row =? Skill.ID s)%N) (skills d)
  then (Some ErrDuplicatedKey, s, d)
  else if negb (existsb (fun p => (Profile.ID p =? Skill.OwnerID s)%N) (profiles d))
  then (Some ErrForeignKeyViolated, s, d)
  else (None, s, {| users := users d; profiles := profiles d; skills := skills d ++ [s] |}).

(** [db.Save(skill)] for a skill that has an identifier. *)
Definition Save_skill (s : Skill.t) (d : DB) : option error * Skill.t * DB :=
  if (Skill.ID s =? uuid.Nil)%N then Create_skill s d
  else if negb (existsb (fun p => (Profile.ID p =? Skill.OwnerID s)%N) (profiles d))
  then (Some ErrForeignKeyViolated, s, d)
  else
    let rows :=
      if existsb (fun row => (Skill.ID row =? Skill.ID s)%N) (skills d)
      then map (fun row => if (Skill.ID row =? Skill.ID s)%N then s else row) (skills d)
      else skills d ++ [s] in
    (None, s, {| users := users d; profiles := profiles d; skills := rows |}).

(** [db.Delete(&Skill{}, "id = ?", id)] *)
Definition Delete_skill (id : uuid.UUID) (d : DB) : DB :=
  {| users := users d; profiles := profiles d;
     skills := filter (fun s => negb (Skill.ID s =? id)%N) (skills d) |}.

End gorm_accounts.

(** ** [internal/infrastructure/user_gorm_repository.go]

    The repositories of users and skills, and of the profile
    repository the three methods that the use cases of accounts and
    skills call.  As for the project repository, the state is the database
    with the outages to come. *)
Module GormAccounts.

Record t : Type := { DB : gorm_accounts.DB; outages : list bool }.

Definition unreachable : error := "connection refused"%string.

Definition is_down (r : t) : bool :=
  match outages r with
  | true :: _ => true
  | _ => false
  end.

Definition next (r : t) (d : gorm_accounts.DB) : t :=
  {| DB := d; outages := tl (outages r) |}.

(** The result of a [First(&row)] query. *)
Definition found {A : Type} (row : option A) : A + error :=
  match row with
  | Some row => inl row
  | None => inr gorm_accounts.ErrRecordNotFound
  end.

End GormAccounts.

Module GormUserRepository.

(** [CreateUser] creates a new user. *)
Definition CreateUser (user : User.t) : M GormAccounts.t (option error * User.t) :=
  fun r =>
    if GormAccounts.is_down r
    then ((Some GormAccounts.unreachable, user), GormAccounts.next r (GormAccounts.DB r))
    else
      let '(err, user, d) := gorm_accounts.Create_user user (GormAccounts.DB r) in
      ((err, user), GormAccounts.next r d).

(** [FindUserByUsername] retrieves a user by their username. *)
Definition FindUserByUsername (username : string) : M GormAccounts.t (User.t + error) :=
  fun r =>
    let d := GormAccounts.DB r in
    if GormAccounts.is_down r then (inr GormAccounts.unreachable, GormAccounts.next r d)
    else
      (GormAccounts.found
         (gorm_accounts.First User.ID
            (fun u => String.eqb (User.Username u) username) (gorm_accounts.users d)),
       GormAccounts.next r d).

(** [FindUserByUsernameOrEmail] retrieves a user by their username or email. *)
Definition FindUserByUsernameOrEmail (username email : string)
  : M GormAccounts.t (User.t + error) :=
  fun r =>
    let d := GormAccounts.DB r in
    if GormAccounts.is_down r then (inr GormAccounts.unreachable, GormAccounts.next r d)
    else
      (GormAccounts.found
         (gorm_accounts.First User.ID
            (fun u =>
               String.eqb (User.Username u) username || String.eqb (User.Email u) email)
            (gorm_accounts.users d)),
       GormAccounts.next r d).

(** [FindUserByID] retrieves a user by their ID. *)
Definition FindUserByID (id : uuid.UUID) : M GormAccounts.t (User.t + error) :=
  fun r =>
    let d := GormAccounts.DB r in
    if GormAccounts.is_down r then (inr GormAccounts.unreachable, GormAccounts.next r d)
    else
      (GormAccounts.found
         (gorm_accounts.First User.ID (fun u => (User.ID u =? id)%N) (gorm_accounts.users d)),
       GormAccounts.next r d).

(** [UpdateUser] updates an existing user. *)
Definition UpdateUser (user : User.t) : M GormAccounts.t (option error * User.t) :=
  fun r =>
    if GormAccounts.is_down r
    then ((Some GormAccounts.unreachable, user), GormAccounts.next r (GormAccounts.DB r))
    else
      let '(err, user, d) := gorm_accounts.Save_user user (GormAccounts.DB r) in
      ((err, user), GormAccounts.next r d).

(** [DeleteUser] deletes a user by their ID. *)
Definition DeleteUser (id : uuid.UUID) : M GormAccounts.t (option error) :=
  fun r =>
    if GormAccounts.is_down r
    then (Some GormAccounts.unreachable, GormAccounts.next r (GormAccounts.DB r))
    else
      let (err, d) := gorm_accounts.Delete_user id (GormAccounts.DB r) in
      (err, GormAccounts.next r d).

#[global] Instance repository : UserRepository.t GormAccounts.t := {
  UserRepository.CreateUser := CreateUser;
  UserRepository.FindUserByUsername := FindUserByUsername;
  UserRepository.FindUserByUsernameOrEmail := FindUserByUsernameOrEmail;
  UserRepository.FindUserByID := FindUserByID;
  UserRepository.UpdateUser := UpdateUser;
  UserRepository.DeleteUser := DeleteUser
}.

End GormUserRepository.

Module GormProfileRepository.

(** [CreateProfile] creates a new profile. *)
Definition CreateProfile (profile : Profile.t)
  : M GormAccounts.t (option error * Profile.t) :=
  fun r =>
    if GormAccounts.is_down r
    then ((Some GormAccounts.unreachable, profile), GormAccounts.next r (GormAccounts.DB r))
    else
      let '(err, profile, d) := gorm_accounts.Create_profile profile (GormAccounts.DB r) in
      ((err, profile), GormAccounts.next r d).

(** [FindProfileByUserID] retrieves a profile by its user ID.  There is
    no [Preload]: [Skills] stays nil. *)
Definition FindProfileByUserID (userID : uuid.UUID) : M GormAccounts.t (Profile.t + error) :=
  fun r =>
    let d := GormAccounts.DB r in
    if GormAccounts.is_down r then (inr GormAccounts.unreachable, GormAccounts.next r d)
    else
      (GormAccounts.found
         (option_map (fun row => gorm_accounts.with_Skills row [])
            (gorm_accounts.First Profile.ID (fun p => (Profile.UserID p =? userID)%N)
               (gorm_accounts.profiles d))),
       GormAccounts.next r d).

(** [UpdateProfile] updates an existing profile. *)
Definition UpdateProfile (profile : Profile.t)
  : M GormAccounts.t (option error * Profile.t) :=
  fun r =>
    if GormAccounts.is_down r
    then ((Some GormAccounts.unreachable, profile), GormAccounts.next r (GormAccounts.DB r))
    else
      let '(err, profile, d) := gorm_accounts.Save_profile profile (GormAccounts.DB r) in
      ((err, profile), GormAccounts.next r d).

#[global] Instance repository : ProfileRepository.t GormAccounts.t := {
  ProfileRepository.CreateProfile := CreateProfile;
  ProfileRepository.FindProfileByUserID := FindProfileByUserID;
  ProfileRepository.UpdateProfile := UpdateProfile
}.

End GormProfileRepository.

Module GormSkillRepository.

(** [CreateSkill] creates a new skill. *)
Definition CreateSkill (skill : Skill.t) : M GormAccounts.t (option error * Skill.t) :=
  fun r =>
    if GormAccounts.is_down r
    then ((Some GormAccounts.unreachable, skill), GormAccounts.next r (GormAccounts.DB r))
    else
      let '(err, skill, d) := gorm_accounts.Create_skill skill (GormAccounts.DB r) in
      ((err, skill), GormAccounts.next r d).

(** [FindSkillByID] retrieves a skill by its ID. *)
Definition FindSkillByID (id : uuid.UUID) : M GormAccounts.t (Skill.t + error) :=
  fun r =>
    let d := GormAccounts.DB r in
    if GormAccounts.is_down r then (inr GormAccounts.unreachable, GormAccounts.next r d)
    else
      (GormAccounts.found
         (gorm_accounts.First Skill.ID (fun s => (Skill.ID s =? id)%N)
            (gorm_accounts.skills d)),
       GormAccounts.next r d).

(** [FindUserSkill] retrieves a skill for a specific user:
    [Where("owner_id IN (SELECT id FROM profiles WHERE user_id = ?)", userID)]
    [.First(&skill, "id = ?", skillID)]. *)
Definition FindUserSkill (skillID userID : uuid.UUID) : M GormAccounts.t (Skill.t + error) :=
  fun r =>
    let d := GormAccounts.DB r in
    if GormAccounts.is_down r then (inr GormAccounts.unreachable, GormAccounts.next r d)
    else
      (GormAccounts.found
         (gorm_accounts.First Skill.ID
            (fun s =>
               existsb
                 (fun p => (Profile.UserID p =? userID)%N &&
                           (Profile.ID p =? Skill.OwnerID s)%N)
                 (gorm_accounts.profiles d) &&
               (Skill.ID s =? skillID)%N)
            (gorm_accounts.skills d)),
       GormAccounts.next r d).

(** [UpdateSkill] updates an existing skill. *)
Definition UpdateSkill (skill : Skill.t) : M GormAccounts.t (option error * Skill.t) :=
  fun r =>
    if GormAccounts.is_down r
    then ((Some GormAccounts.unreachable, skill), GormAccounts.next r (GormAccounts.DB r))
    else
      let '(err, skill, d) := gorm_accounts.Save_skill skill (GormAccounts.DB r) in
      ((err, skill), GormAccounts.next r d).

(** [DeleteSkill] deletes a skill by its ID. *)
Definition DeleteSkill (id : uuid.UUID) : M GormAccounts.t (option error) :=
  fun r =>
    if GormAccounts.is_down r
    then (Some GormAccounts.unreachable, GormAccounts.next r (GormAccounts.DB r))
    else (None, GormAccounts.next r (gorm_accounts.Delete_skill id (GormAccounts.DB r))).

#[global] Instance repository : SkillRepository.t GormAccounts.t := {
  SkillRepository.CreateSkill := CreateSkill;
  SkillRepository.FindSkillByID := FindSkillByID;
  SkillRepository.FindUserSkill := FindUserSkill;
  SkillRepository.UpdateSkill := UpdateSkill;
  SkillRepository.DeleteSkill := DeleteSkill
}.

End GormSkillRepository.

(* ================================================================== *)
(** * Part II: what the specification speaks of                        *)
(* ================================================================== *)

(** ** Pagination *)

(** [ceil (a / b)], the least integer that is no less than the exact
    quotient ([0 < b]). *)
Definition ceil_div (a b : Z) : Z := - ((- a) / b).

(** The integers from [lo] to [hi], in order; empty when [hi < lo]. *)
Definition interval (lo hi : Z) : list Z :=
  map (fun k => lo + Z.of_nat k) (seq 0 (Z.to_nat (hi - lo + 1))).

(** The visible page window in the words of the specification:
    [[currentPage-2, currentPage+2]] intersected with [[1, totalPages]];
    if that has fewer than 5 entries and [totalPages >= 5], it is
    widened: a window that starts at 1 ends at 5, else one that ends at
    [totalPages] starts at [totalPages - 4]. *)
Definition spec_window (currentPage totalPages : Z) : list Z :=
  let lo := Z.max (currentPage - 2) 1 in
  let hi := Z.min (currentPage + 2) totalPages in
  if (Z.of_nat (List.length (interval lo hi)) <? 5) && (5 <=? totalPages) then
    if lo =? 1 then interval lo 5
    else if hi =? totalPages then interval (totalPages - 4) hi
    else interval lo hi
  else interval lo hi.

(** Each entry is the one before it plus one. *)
Fixpoint consecutive (l : list Z) : Prop :=
  match l with
  | x :: (y :: _) as rest => y = x + 1 /\ consecutive rest
  | _ => True
  end.

(** The value [Paginate] computes for [totalPages]. *)
Definition totalPages_of (totalItems itemsPerPage : Z) : Z :=
  Float64.to_int
    (Float64.Ceil
       (Float64.div (Float64.of_int totalItems) (Float64.of_int itemsPerPage))).

(** A significand of at most 53 bits. *)
Definition bounded (x : Float64.float64) : Prop :=
  match x with
  | Float64.Fin m _ => Z.abs m <= 2 ^ 53
  | _ => True
  end.

(** [float64(a) / float64(b)] of the model against the same division
    in the Standard Library's IEEE 754 specification. *)
Definition same_as_SpecFloat (a b : Z) : bool :=
  match
    Float64.to_spec (Float64.div (Float64.of_int a) (Float64.of_int b)),
    SFdiv Float64.prec Float64.emax
      (binary_normalize Float64.prec Float64.emax a 0 false)
      (binary_normalize Float64.prec Float64.emax b 0 false)
  with
  | S754_finite s m e, S754_finite s' m' e' => Bool.eqb s s' && Pos.eqb m m' && Z.eqb e e'
  | S754_zero _, S754_zero _ => true
  | S754_infinity s, S754_infinity s' => Bool.eqb s s'
  | S754_nan, S754_nan => true
  | _, _ => false
  end.

Fixpoint upto (n : nat) (a : Z) : list Z :=
  match n with
  | O => []
  | S n' => a :: upto n' (a + 1)
  end.

(** A request whose query string is [?page=...]. *)
Definition ctx (page : string) : gin.Context :=
  {| gin.Query := [("page"%string, page)] |}.

(** ** Tag names *)

(** The candidate names in the words of the specification: the
    comma-separated pieces, trimmed, the empty ones dropped. *)
Definition spec_candidates (tagsStr : string) : list string :=
  filter (fun name => negb (String.eqb name ""))
    (map strings.TrimSpace (strings.Split tagsStr ",")).

(** ** The tables *)

(** The primary keys of [tags] and [project_tags]. *)
Definition Keys (d : gorm.DB) : Prop :=
  NoDup (map Tag.ID (gorm.tags d)) /\ NoDup (gorm.project_tags d).

(** No two rows of [tags] carry the same name.  The schema does not
    enforce it; it holds for the empty database, and every call of the
    repository, made one after the other, keeps it. *)
Definition unique_names (d : gorm.DB) : Prop := NoDup (map Tag.Name (gorm.tags d)).

Definition Inv (d : gorm.DB) : Prop := Keys d /\ unique_names d.

(** The slice in memory holds rows of [tags] whose names are among [all]. *)
Definition mem_ok (all : list string) (p : Project.t) (d : gorm.DB) : Prop :=
  forall t, In t (Project.Tags p) -> In t (gorm.tags d) /\ In (Tag.Name t) all.

(** [Grows p d p' d']: from [(p, d)] to [(p', d')] nothing was deleted,
    and every new join row links the project to a tag of its slice. *)
Definition Grows (p : Project.t) (d : gorm.DB) (p' : Project.t) (d' : gorm.DB) : Prop :=
  Project.ID p' = Project.ID p /\
  incl (Project.Tags p) (Project.Tags p') /\
  incl (gorm.tags d) (gorm.tags d') /\
  gorm.projects d' = gorm.projects d /\
  incl (gorm.project_tags d) (gorm.project_tags d') /\
  (forall row, In row (gorm.project_tags d') ->
     In row (gorm.project_tags d) \/
     exists t, In t (Project.Tags p') /\ row = (Project.ID p, Tag.ID t)) /\
  (unique_names d -> unique_names d').

(** Where two requests for the new name [name] can stand, and what the
    table holds under that name then. *)
Definition race (name : string) (a b : Concurrent.Request) (rows : list Tag.t) : Prop :=
  match a, b with
  | Concurrent.Returned ta, Concurrent.Returned tb =>
      (ta = tb /\ Concurrent.named name rows = [ta]) \/
      (Tag.ID ta <> Tag.ID tb /\
       (Concurrent.named name rows = [ta; tb] \/ Concurrent.named name rows = [tb; ta]))
  | Concurrent.Returned t, Concurrent.Selecting m
  | Concurrent.Returned t, Concurrent.Inserting m
  | Concurrent.Selecting m, Concurrent.Returned t
  | Concurrent.Inserting m, Concurrent.Returned t =>
      m = name /\ Concurrent.named name rows = [t]
  | Concurrent.Selecting n, Concurrent.Selecting m
  | Concurrent.Selecting n, Concurrent.Inserting m
  | Concurrent.Inserting n, Concurrent.Selecting m
  | Concurrent.Inserting n, Concurrent.Inserting m =>
      n = name /\ m = name /\ Concurrent.named name rows = []
  end.

(** ** Sample data for the concrete runs *)

Definition a_project : Project.t :=
  {| Project.ID := uuid.Nil; Project.OwnerID := 7%N; Project.Title := "Blog engine";
     Project.Description := "A static site generator"; Project.FeaturedImage := "";
     Project.DemoLink := ""; Project.SourceLink := ""; Project.Tags := [];
     Project.VoteTotal := 0; Project.VoteRatio := 0 |}.

Definition a_form (tagsStr : string) : Handler.PostForm :=
  {| Handler.title := "Blog engine"; Handler.description := "A static site generator";
     Handler.demo_link := ""; Handler.source_link := ""; Handler.tags := tagsStr |}.

Definition store (d : gorm.DB) (outages : list bool) : GormProjectRepository.t :=
  {| GormProjectRepository.DB := d; GormProjectRepository.outages := outages |}.

(** One project, tagged [go]. *)
Definition tagged_go : gorm.DB :=
  {| gorm.projects := [Project.with_ID a_project 1%N];
     gorm.tags := [{| Tag.ID := 1%N; Tag.Name := "go" |}];
     gorm.project_tags := [(1%N, 1%N)] |}.

(** ** More about the tables *)

(** The foreign keys of [project_tags]: every join row leads to a
    project and to a tag that are there. *)
Definition Refs (d : gorm.DB) : Prop :=
  forall row, In row (gorm.project_tags d) ->
    gorm.has_project (fst row) d = true /\ gorm.has_tag (snd row) (gorm.tags d) = true.

(** A stand-in for the database's matching and ordering: every row
    matches every pattern, and the rows stay in the order of the table. *)
Definition table_order : postgres.t :=
  {| postgres.ILIKE := fun _ _ => true;
     postgres.ORDER_BY_votes_title := fun _ _ rows => rows |}.

(** What page [page] of a listing with [limit] rows a page shows. *)
Definition projects_on {pg : postgres.t} (searchQuery : string) (page limit : Z)
  (d : gorm.DB) : list Project.t :=
  match fst (GormProjectRepositoryRest.FindAllProjects searchQuery page limit (store d [])) with
  | inl (projects, _) => projects
  | inr _ => []
  end.

(** All rows the listing has to show, in the order in which the query
    for the first page finds them. *)
Definition listing {pg : postgres.t} (searchQuery : string) (limit : Z) (d : gorm.DB)
  : list Project.t :=
  map (GormProjectRepositoryRest.Preload d)
    (postgres.ORDER_BY_votes_title limit 0
       (GormProjectRepositoryRest.Where searchQuery (gorm.projects d))).

(** Seven projects, none tagged. *)
Definition seven_projects : gorm.DB :=
  {| gorm.projects := map (Project.with_ID a_project) [1; 2; 3; 4; 5; 6; 7]%N;
     gorm.tags := [];
     gorm.project_tags := [] |}.

(** ** Accounts *)

(** The foreign key of [profiles]: every profile belongs to a user. *)
Definition profiles_refer (d : gorm_accounts.DB) : Prop :=
  forall p, In p (gorm_accounts.profiles d) ->
    In (Profile.UserID p) (map User.ID (gorm_accounts.users d)).

(** The primary key of [skills]. *)
Definition skill_keys (d : gorm_accounts.DB) : Prop :=
  NoDup (map Skill.ID (gorm_accounts.skills d)).

(** The skill belongs to a profile of the user. *)
Definition owned_by (d : gorm_accounts.DB) (userID : uuid.UUID) (s : Skill.t) : Prop :=
  exists p, In p (gorm_accounts.profiles d) /\
            Profile.UserID p = userID /\ Profile.ID p = Skill.OwnerID s.

(** What bcrypt is for: a password matches the hash made of it. *)
Definition bcrypt_accepts_its_own_hashes (Bcrypt : bcrypt.t) : Prop :=
  forall password cost hash,
    bcrypt.GenerateFromPassword password cost = inl hash ->
    bcrypt.CompareHashAndPassword hash password = None.

(** A stand-in for bcrypt, good for running the examples: the hash is
    the password behind a prefix. *)
Definition prefix_bcrypt : bcrypt.t :=
  {| bcrypt.GenerateFromPassword := fun password _ => inl ("$2a$10$" ++ password)%string;
     bcrypt.CompareHashAndPassword := fun hash password =>
       if String.eqb hash ("$2a$10$" ++ password)%string then None
       else Some "hashedPassword is not the hash of the given password"%string |}.

Definition accounts (d : gorm_accounts.DB) (outages : list bool) : GormAccounts.t :=
  {| GormAccounts.DB := d; GormAccounts.outages := outages |}.

Definition a_user (id : uuid.UUID) (username email : string) : User.t :=
  {| User.ID := id; User.Name := username; User.Email := email;
     User.Username := username; User.Password := ("$2a$10$" ++ username)%string |}.

Definition a_profile (id userID : uuid.UUID) (username email : string) : Profile.t :=
  {| Profile.ID := id; Profile.UserID := userID; Profile.Name := username;
     Profile.Email := email; Profile.Username := username;
     Profile.Location := EmptyString; Profile.ShortIntro := EmptyString;
     Profile.Bio := EmptyString; Profile.ProfileImage := "user-default.png"%string;
     Profile.SocialGithub := EmptyString; Profile.SocialLinkedin := EmptyString;
     Profile.SocialWebsite := EmptyString; Profile.Skills := [] |}.

(** Two users with their profiles; the one skill is bob's. *)
Definition two_accounts : gorm_accounts.DB :=
  {| gorm_accounts.users :=
       [a_user 1%N "ada" "ada@example.org"; a_user 2%N "bob" "bob@example.org"]%string;
     gorm_accounts.profiles :=
       [a_profile 3%N 1%N "ada" "ada@example.org";
        a_profile 4%N 2%N "bob" "bob@example.org"]%string;
     gorm_accounts.skills :=
       [{| Skill.ID := 7%N; Skill.OwnerID := 4%N; Skill.Name := "Go"%string;
           Skill.Description := EmptyString |}] |}.

(** The profile that the account form asks for: the seven fields of the
    form, the new image if one came with it, and the rest of the
    profile as it was. *)
Definition account_of_form (profile : Profile.t) (profileData : list (string * string))
    (profileImage : string) : Profile.t :=
  {| Profile.ID := Profile.ID profile;
     Profile.UserID := Profile.UserID profile;
     Profile.Name := map_index profileData "name"%string;
     Profile.Email := map_index profileData "email"%string;
     Profile.Username := map_index profileData "username"%string;
     Profile.Location := Profile.Location profile;
     Profile.ShortIntro := map_index profileData "short_intro"%string;
     Profile.Bio := map_index profileData "bio"%string;
     Profile.ProfileImage :=
       if String.eqb profileImage EmptyString then Profile.ProfileImage profile
       else profileImage;
     Profile.SocialGithub := map_index profileData "social_github"%string;
     Profile.SocialLinkedin := Profile.SocialLinkedin profile;
     Profile.SocialWebsite := map_index profileData "social_website"%string;
     Profile.Skills := [] |}.

(** The user under a new username. *)
Definition renamed (user : User.t) (username : string) : User.t :=
  {| User.ID := User.ID user; User.Name := User.Name user; User.Email := User.Email user;
     User.Username := username; User.Password := User.Password user |}.

(** Every tag of the project is the row that a lookup of its name
    gives, the first of that name. *)
Definition first_of_their_names (id : uuid.UUID) (d : gorm.DB) : Prop :=
  forall t, In t (gorm.Tags_of id d) ->
    gorm.First_by_name (Tag.Name t) (gorm.tags d) = Some t.

(** The slice in memory holds rows of [tags], each the first of its
    name. *)
Definition slice_first (p : Project.t) (d : gorm.DB) : Prop :=
  forall t, In t (Project.Tags p) ->
    In t (gorm.tags d) /\ gorm.First_by_name (Tag.Name t) (gorm.tags d) = Some t.

(** Two tags named [go], as two requests at once leave them (C9), and
    one project, tagged with the second. *)
Definition two_go_tags : gorm.DB :=
  {| gorm.projects := [Project.with_ID a_project 1%N];
     gorm.tags := [{| Tag.ID := 1%N; Tag.Name := "go" |}; {| Tag.ID := 2%N; Tag.Name := "go" |}];
     gorm.project_tags := [(1%N, 2%N)] |}.

(** A second project created over [tagged_go] with two tag names, every
    call written down. *)
Definition created_over_tagged_go
  : option error * Project.t * (GormProjectRepository.t * list Recorder.Event) :=
  ProjectUseCase.CreateProject a_project ["go"%string; " web"%string] (store tagged_go [], []).

(** A string that a column of [size:255] holds as it is: [varchar(255)]
    counts characters, and 255 bytes are at most 255 of them. *)
Definition fits (s : string) : Prop := (String.length s <= 255)%nat.

(** The call that an event records returned no error. *)
Definition went_through (e : Recorder.Event) : bool :=
  match e with
  | Recorder.CreateProject _ None
  | Recorder.UpdateProject _ None
  | Recorder.FindOrCreateTag _ (inl _)
  | Recorder.AssociateTagWithProject _ _ None
  | Recorder.ClearProjectTags _ None => true
  | _ => false
  end.

(* ================================================================== *)
(** * Part III: what holds of the program                              *)
(* ================================================================== *)

Import Float64.
Import utils.

(** ** Powers of two and rounding *)

Lemma pow2_pos n : 0 < 2 ^ n \/ (n < 0 /\ 2 ^ n = 0).
Proof.
  destruct (Z_lt_le_dec n 0) as [H|H].
  - right. split; [assumption|]. apply Z.pow_neg_r; assumption.
  - left. apply Z.pow_pos_nonneg; lia.
Qed.

Lemma pow2_gt0 n : 0 <= n -> 0 < 2 ^ n.
Proof. intros. apply Z.pow_pos_nonneg; lia. Qed.

(** Comparing [p * 2^a] with [q * 2^b] only depends on [a - b]. *)
Lemma cmp_shift p q a b a' b' :
  0 <= a -> 0 <= b -> 0 <= a' -> 0 <= b' -> a - b = a' - b' ->
  (p * 2 ^ a ?= q * 2 ^ b) = (p * 2 ^ a' ?= q * 2 ^ b').
Proof.
  intros Ha Hb Ha' Hb' E.
  assert (G : forall x y c d, 0 <= x -> 0 <= y -> 0 <= c -> d = c ->
            (p * 2 ^ (x + c) ?= q * 2 ^ (y + d)) = (p * 2 ^ x ?= q * 2 ^ y)).
  { intros x y c d Hx Hy Hc ->. rewrite !Z.pow_add_r by lia.
    rewrite !Z.mul_assoc. symmetry. apply Zmult_compare_compat_r.
    pose proof (pow2_gt0 c Hc). lia. }
  destruct (Z_le_gt_dec a a').
  - replace a' with (a + (a' - a)) by lia. replace b' with (b + (a' - a)) by lia.
    symmetry. apply G; lia.
  - replace a with (a' + (a - a')) by lia. replace b with (b' + (a - a')) by lia.
    apply G; lia.
Qed.

Lemma rne_bounds n d : 0 < d -> 0 <= n ->
  n / d <= rne n d <= n / d + 1 /\ 2 * Z.abs (rne n d * d - n) <= d.
Proof.
  intros Hd Hn. unfold rne.
  pose proof (Z.div_mod n d ltac:(lia)) as E.
  pose proof (Z.mod_pos_bound n d Hd) as B.
  destruct (Z.compare_spec (2 * (n mod d)) d); [destruct (Z.even (n / d))| |]; split; try lia; nia.
Qed.

Lemma rne_exact c d : 0 < d -> rne (c * d) d = c.
Proof.
  intros Hd. unfold rne. rewrite Z.div_mul, Z.mod_mul by lia.
  destruct (Z.compare_spec (2 * 0) d); lia.
Qed.

Lemma rne_le n d M : 0 < d -> n <= M * d -> rne n d <= M.
Proof.
  intros Hd H. unfold rne.
  pose proof (Z.div_mod n d ltac:(lia)) as E.
  pose proof (Z.mod_pos_bound n d Hd) as B.
  destruct (Z.compare_spec (2 * (n mod d)) d); [destruct (Z.even (n / d))| |]; nia.
Qed.

Lemma rne_ge n d M : 0 < d -> M * d <= n -> M <= rne n d.
Proof.
  intros Hd H. unfold rne.
  pose proof (Z.div_mod n d ltac:(lia)) as E.
  pose proof (Z.mod_pos_bound n d Hd) as B.
  destruct (Z.compare_spec (2 * (n mod d)) d); [destruct (Z.even (n / d))| |]; nia.
Qed.

Lemma rne_gt n d M : 0 < d -> (2 * M + 1) * d < 2 * n -> M + 1 <= rne n d.
Proof.
  intros Hd H. unfold rne.
  pose proof (Z.div_mod n d ltac:(lia)) as E.
  pose proof (Z.mod_pos_bound n d Hd) as B.
  destruct (Z.compare_spec (2 * (n mod d)) d); [destruct (Z.even (n / d))| |]; nia.
Qed.

(** [ilog2_quot p q] is the binade of [p / q]:
    [2^k <= p/q < 2^(k+1)]. *)
Lemma ilog2_quot_spec p q : 0 < p -> 0 < q ->
  let k := ilog2_quot p q in
  q * 2 ^ Z.max 0 k <= p * 2 ^ Z.max 0 (- k) /\
  p * 2 ^ Z.max 0 (- (k + 1)) < q * 2 ^ Z.max 0 (k + 1).
Proof.
  intros Hp Hq. unfold ilog2_quot.
  destruct (Z.log2_spec p Hp) as [P1 P2]. destruct (Z.log2_spec q Hq) as [Q1 Q2].
  pose proof (Z.log2_nonneg p) as Lp. pose proof (Z.log2_nonneg q) as Lq.
  set (lp := Z.log2 p) in *. set (lq := Z.log2 q) in *.
  set (k0 := lp - lq).
  replace (Z.succ lp) with (lp + 1) in P2 by lia.
  replace (Z.succ lq) with (lq + 1) in Q2 by lia.
  pose proof (pow2_gt0 lp Lp) as Tp. pose proof (pow2_gt0 lq Lq) as Tq.
  rewrite Z.pow_add_r in P2, Q2 by lia. change (2 ^ 1) with 2 in *.
  assert (U : p * 2 ^ Z.max 0 (- (k0 + 1)) < q * 2 ^ Z.max 0 (k0 + 1)).
  { unfold Z.lt.
    rewrite (cmp_shift p q _ _ lq (lp + 1)) by lia.
    apply Z.compare_lt_iff. rewrite Z.pow_add_r by lia. change (2 ^ 1) with 2. nia. }
  assert (L : q * 2 ^ Z.max 0 (k0 - 1) <= p * 2 ^ Z.max 0 (- (k0 - 1))).
  { unfold Z.le.
    rewrite (cmp_shift q p _ _ lp (lq + 1)) by lia.
    apply Z.compare_le_iff. rewrite Z.pow_add_r by lia. change (2 ^ 1) with 2. nia. }
  destruct (Z.ltb_spec (p * 2 ^ Z.max 0 (- k0)) (q * 2 ^ Z.max 0 k0)) as [C|C]; cbv zeta.
  - split; [exact L|]. replace (k0 - 1 + 1) with k0 by lia. exact C.
  - split; [exact C| exact U].
Qed.


Lemma le_shift_mono p q a b a' b' :
  0 < q -> 0 <= a -> 0 <= b -> 0 <= a' -> 0 <= b' -> a' - b' <= a - b ->
  p * 2 ^ a <= q * 2 ^ b -> p * 2 ^ a' <= q * 2 ^ b'.
Proof.
  intros Hq Ha Hb Ha' Hb' D H.
  set (d := (a - b) - (a' - b')).
  unfold Z.le. rewrite (cmp_shift p q a' b' a (b + d)) by (unfold d; lia).
  apply Z.compare_le_iff. rewrite Z.pow_add_r by (unfold d; lia).
  pose proof (pow2_gt0 d ltac:(unfold d; lia)). pose proof (pow2_gt0 b Hb). nia.
Qed.

Lemma lt_shift_mono p q a b a' b' :
  0 < q -> 0 <= a -> 0 <= b -> 0 <= a' -> 0 <= b' -> a' - b' <= a - b ->
  p * 2 ^ a < q * 2 ^ b -> p * 2 ^ a' < q * 2 ^ b'.
Proof.
  intros Hq Ha Hb Ha' Hb' D H.
  set (d := (a - b) - (a' - b')).
  unfold Z.lt. rewrite (cmp_shift p q a' b' a (b + d)) by (unfold d; lia).
  apply Z.compare_lt_iff. rewrite Z.pow_add_r by (unfold d; lia).
  pose proof (pow2_gt0 d ltac:(unfold d; lia)). pose proof (pow2_gt0 b Hb). nia.
Qed.

(** The scaled quotient handed to [rne] lies in [[2^52, 2^53)] when the
    exponent is not held back by [emin], and below [2^53] in any case. *)
Lemma scaled_quot_bounds p q e : 0 < p -> 0 < q ->
  ilog2_quot p q - 52 <= e ->
  p * 2 ^ Z.max 0 (- e) < 2 ^ 53 * (q * 2 ^ Z.max 0 e) /\
  (e = ilog2_quot p q - 52 -> 2 ^ 52 * (q * 2 ^ Z.max 0 e) <= p * 2 ^ Z.max 0 (- e)).
Proof.
  intros Hp Hq He. destruct (ilog2_quot_spec p q Hp Hq) as [K1 K2].
  set (k := ilog2_quot p q) in *. split.
  - replace (2 ^ 53 * (q * 2 ^ Z.max 0 e)) with (q * 2 ^ (Z.max 0 e + 53))
      by (rewrite Z.pow_add_r by lia; ring).
    eapply lt_shift_mono; [| | | | | |exact K2]; lia.
  - intros ->.
    replace (2 ^ 52 * (q * 2 ^ Z.max 0 (k - 52))) with (q * 2 ^ (Z.max 0 (k - 52) + 52))
      by (rewrite Z.pow_add_r by lia; ring).
    eapply le_shift_mono; [| | | | | |exact K1]; lia.
Qed.

Lemma round_quot_bounded s p q : 0 < p -> 0 < q -> bounded (round_quot s p q).
Proof.
  intros Hp Hq. unfold round_quot.
  set (e := Z.max (ilog2_quot p q - (prec - 1)) emin).
  destruct (scaled_quot_bounds p q e Hp Hq) as [B _]; [unfold e, prec; lia|].
  set (N := p * 2 ^ Z.max 0 (- e)) in *. set (D := q * 2 ^ Z.max 0 e) in *.
  assert (HD : 0 < D) by (unfold D; pose proof (pow2_gt0 (Z.max 0 e) ltac:(lia)); nia).
  assert (HN : 0 <= N) by (unfold N; pose proof (pow2_gt0 (Z.max 0 (- e)) ltac:(lia)); nia).
  pose proof (rne_le N D (2 ^ 53) HD ltac:(lia)) as U.
  pose proof (rne_ge N D 0 HD ltac:(lia)) as L.
  destruct (2 ^ emax <=? rne N D * 2 ^ Z.max 0 e); simpl; [exact I|].
  destruct s; lia.
Qed.

Lemma round_quot_normal s p q : 0 < p -> 0 < q ->
  - 1022 <= ilog2_quot p q <= 1022 ->
  let e := ilog2_quot p q - 52 in
  let m := rne (p * 2 ^ Z.max 0 (- e)) (q * 2 ^ Z.max 0 e) in
  round_quot s p q = Fin (if s then - m else m) e /\ 2 ^ 52 <= m <= 2 ^ 53.
Proof.
  intros Hp Hq Hk. cbv zeta. unfold round_quot.
  replace (Z.max (ilog2_quot p q - (prec - 1)) emin) with (ilog2_quot p q - 52)
    by (unfold prec, emin; lia).
  set (e := ilog2_quot p q - 52).
  destruct (scaled_quot_bounds p q e Hp Hq) as [B1 B2]; [unfold e; lia|].
  specialize (B2 eq_refl).
  set (N := p * 2 ^ Z.max 0 (- e)) in *. set (D := q * 2 ^ Z.max 0 e) in *.
  assert (HD : 0 < D) by (unfold D; pose proof (pow2_gt0 (Z.max 0 e) ltac:(lia)); nia).
  pose proof (rne_le N D (2 ^ 53) HD ltac:(lia)) as U.
  pose proof (rne_ge N D (2 ^ 52) HD ltac:(lia)) as L.
  assert (O : rne N D * 2 ^ Z.max 0 e < 2 ^ emax).
  { assert (T : 2 ^ Z.max 0 e < 2 ^ 971) by (apply Z.pow_lt_mono_r; unfold e; lia).
    pose proof (pow2_gt0 (Z.max 0 e) ltac:(lia)).
    change (2 ^ emax) with (2 ^ 53 * 2 ^ 971).
    apply Z.le_lt_trans with (2 ^ 53 * 2 ^ Z.max 0 e).
    - apply Z.mul_le_mono_nonneg_r; [apply Z.lt_le_incl; assumption|exact U].
    - apply Z.mul_lt_mono_pos_l; [reflexivity|exact T]. }
  destruct (Z.leb_spec (2 ^ emax) (rne N D * 2 ^ Z.max 0 e)); [lia|].
  split; [reflexivity | lia].
Qed.

Lemma div_bounded x y : bounded (div x y).
Proof.
  destruct x as [|sx|mx ex], y as [|sy|my ey]; simpl; try exact I; try lia.
  destruct (Z.eqb_spec my 0); [destruct (mx =? 0); exact I|].
  destruct (Z.eqb_spec mx 0); [simpl; lia|].
  apply round_quot_bounded.
  - pose proof (pow2_gt0 (Z.max 0 (ex - ey)) ltac:(lia)). nia.
  - pose proof (pow2_gt0 (Z.max 0 (ey - ex)) ltac:(lia)). nia.
Qed.

Lemma to_int_range x : Int.in_range (to_int x).
Proof.
  unfold Int.in_range, to_int.
  destruct x as [| |m e]; try (unfold Int.min_int, Int.max_int; lia).
  destruct (_ && _) eqn:E; [|unfold Int.min_int, Int.max_int; lia].
  apply andb_true_iff in E. lia.
Qed.

(** [int(math.Ceil(x))] stays clear of the top of the [int] range: a
    53-bit significand cannot spell an integer between [2^63 - 1024] and
    [2^63]. *)
Lemma to_int_Ceil_le x : bounded x -> to_int (Ceil x) <= 2 ^ 63 - 1024.
Proof.
  intros B. destruct x as [| |m e]; try (simpl; unfold Int.min_int; lia).
  unfold Ceil. simpl in B.
  destruct (Z.leb_spec 0 e) as [He|He]; unfold to_int.
  - rewrite (proj2 (Z.leb_le 0 e) He).
    destruct (Z.leb_spec Int.min_int (m * 2 ^ e)); simpl; [|unfold Int.min_int; lia].
    destruct (Z.leb_spec (m * 2 ^ e) Int.max_int) as [U|U]; [|unfold Int.min_int; lia].
    unfold Int.max_int in U.
    destruct (Z_le_gt_dec e 9).
    + assert (0 < 2 ^ e <= 2 ^ 9) by (split; [apply pow2_gt0; lia|apply Z.pow_le_mono_r; lia]).
      assert (0 < 2 ^ 53) by lia. change (2 ^ 63) with (2 ^ 53 * 2 ^ 9 * 2). nia.
    + replace e with (e - 10 + 10) in * by lia.
      rewrite Z.pow_add_r in * by lia.
      pose proof (pow2_gt0 (e - 10) ltac:(lia)).
      change (2 ^ 63) with (2 ^ 53 * 2 ^ 10) in *. change (2 ^ 10) with 1024 in *. nia.
  - change (0 <=? 0) with true. cbv iota. rewrite Z.mul_1_r.
    pose proof (pow2_gt0 (- e) ltac:(lia)) as T.
    assert (Z.abs (- (- m / 2 ^ (- e))) <= Z.abs m).
    { pose proof (Z.div_mod (- m) (2 ^ (- e)) ltac:(lia)).
      pose proof (Z.mod_pos_bound (- m) (2 ^ (- e)) T). nia. }
    destruct (_ && _); [lia|unfold Int.min_int; lia].
Qed.


Lemma ceil_div_spec a b : 0 < b -> (ceil_div a b - 1) * b < a <= ceil_div a b * b.
Proof.
  intros Hb. unfold ceil_div.
  pose proof (Z.div_mod (- a) b ltac:(lia)). pose proof (Z.mod_pos_bound (- a) b Hb). nia.
Qed.

Lemma ceil_div_unique a b c : 0 < b -> (c - 1) * b < a <= c * b -> ceil_div a b = c.
Proof.
  intros Hb H. pose proof (ceil_div_spec a b Hb). nia.
Qed.

Lemma of_int_pos n : 0 < n <= Int.max_int ->
  exists m e b', of_int n = Fin m e /\ 0 < m /\ 0 < b' <= 2 ^ 63 /\
    m * 2 ^ Z.max 0 e = b' * 2 ^ Z.max 0 (- e) /\
    (n <= 2 ^ 53 -> b' = n) /\ (2 ^ 53 < n -> 2 ^ 53 <= b').
Proof.
  intros [Hn Hm]. unfold Int.max_int in Hm. unfold of_int.
  destruct (Z.eqb_spec n 0); [lia|].
  destruct (Z.ltb_spec n 0); [lia|]. rewrite Z.abs_eq by lia.
  destruct (ilog2_quot_spec n 1 Hn ltac:(lia)) as [K1 K2].
  set (k := ilog2_quot n 1) in *.
  assert (K0 : 0 <= k).
  { destruct (Z_lt_le_dec k 0); [|assumption].
    rewrite (Z.max_l 0 (k + 1)) in K2 by lia.
    pose proof (pow2_gt0 (Z.max 0 (- (k + 1))) ltac:(lia)). change (2 ^ 0) with 1 in K2. nia. }
  rewrite (Z.max_r 0 k), (Z.max_l 0 (- k)) in K1 by lia. change (2 ^ 0) with 1 in K1.
  rewrite (Z.max_r 0 (k + 1)), (Z.max_l 0 (- (k + 1))) in K2 by lia. change (2 ^ 0) with 1 in K2.
  assert (K63 : k < 63).
  { apply (Z.pow_lt_mono_r_iff 2); lia. }
  destruct (round_quot_normal false n 1 Hn ltac:(lia) ltac:(fold k; lia)) as [E B].
  fold k in E, B. rewrite E. clear E.
  set (m := rne (n * 2 ^ Z.max 0 (- (k - 52))) (1 * 2 ^ Z.max 0 (k - 52))) in *.
  destruct (Z_le_gt_dec k 52) as [Hk|Hk].
  - assert (Em : m = n * 2 ^ (52 - k)).
    { unfold m. rewrite (Z.max_l 0 (k - 52)), (Z.max_r 0 (- (k - 52))) by lia.
      change (1 * 2 ^ 0) with 1. replace (- (k - 52)) with (52 - k) by lia.
      rewrite <- (Z.mul_1_r (n * 2 ^ (52 - k))) at 1. apply rne_exact. lia. }
    exists m, (k - 52), n. split; [reflexivity|]. split; [lia|]. split; [lia|].
    split.
    + rewrite (Z.max_l 0 (k - 52)), (Z.max_r 0 (- (k - 52))) by lia.
      replace (- (k - 52)) with (52 - k) by lia. rewrite Em. change (2 ^ 0) with 1. ring.
    + split; [reflexivity|]. intros H53.
      assert (2 ^ (k + 1) <= 2 ^ 53) by (apply Z.pow_le_mono_r; lia). lia.
  - exists m, (k - 52), (m * 2 ^ (k - 52)).
    assert (T1 : 2 ^ 1 <= 2 ^ (k - 52)) by (apply Z.pow_le_mono_r; lia).
    assert (T2 : 2 ^ (k - 52) <= 2 ^ 10) by (apply Z.pow_le_mono_r; lia).
    change (2 ^ 1) with 2 in T1.
    split; [reflexivity|]. split; [lia|]. split; [|split; [|split]].
    + change (2 ^ 63) with (2 ^ 53 * 2 ^ 10). assert (0 < 2 ^ 53) by lia. nia.
    + rewrite (Z.max_r 0 (k - 52)), (Z.max_l 0 (- (k - 52))) by lia. change (2 ^ 0) with 1. ring.
    + intros H53. assert (2 ^ 53 <= 2 ^ k) by (apply Z.pow_le_mono_r; lia).
      assert (n = 2 ^ 53) by lia.
      destruct (Z.eq_dec k 53) as [K53|K53].
      * unfold m. rewrite K53. change (53 - 52) with 1.
        change (Z.max 0 (- (1))) with 0. change (Z.max 0 1) with 1. subst n.
        change (2 ^ 53 * 2 ^ 0) with (2 ^ 52 * (1 * 2 ^ 1)). rewrite rne_exact by lia. reflexivity.
      * assert (2 ^ 54 <= 2 ^ k) by (apply Z.pow_le_mono_r; lia). lia.
    + intros _. assert (0 < 2 ^ 52) by lia. change (2 ^ 53) with (2 ^ 52 * 2). nia.
Qed.


Lemma ceil_of_scaled m s c : 0 < s -> (c - 1) * s < m <= c * s -> - ((- m) / s) = c.
Proof.
  intros Hs H. pose proof (Z.div_mod (- m) s ltac:(lia)).
  pose proof (Z.mod_pos_bound (- m) s Hs). nia.
Qed.

(** Two equal fractions [p / q = a / b] compare alike with an integer. *)
Lemma cross_lt p q a b x : 0 < b -> 0 < q -> p * b = a * q -> x * b < a -> x * q < p.
Proof.
  intros Hb Hq E H. apply (Z.mul_lt_mono_pos_r b); [assumption|]. rewrite E.
  replace (x * q * b) with (x * b * q) by ring. apply Z.mul_lt_mono_pos_r; assumption.
Qed.

Lemma cross_gt p q a b x : 0 < b -> 0 < q -> p * b = a * q -> a < x * b -> p < x * q.
Proof.
  intros Hb Hq E H. apply (Z.mul_lt_mono_pos_r b); [assumption|]. rewrite E.
  replace (x * q * b) with (x * b * q) by ring. apply Z.mul_lt_mono_pos_r; assumption.
Qed.

Lemma cross_le p q a b x : 0 < b -> 0 < q -> p * b = a * q -> x * b <= a -> x * q <= p.
Proof.
  intros Hb Hq E H. apply (Z.mul_le_mono_pos_r _ _ b); [assumption|]. rewrite E.
  replace (x * q * b) with (x * b * q) by ring. apply Z.mul_le_mono_pos_r; assumption.
Qed.

(** The quotient [p / q = a / b], [a <= 2^53], strictly between the
    integers [c - 1] and [c], scaled by [s] to 53 bits ([2^k] is the
    power of two below it): it overshoots [c - 1] by more than half a
    unit in the last place. *)
Lemma above_half_ulp p q a b c k s :
  0 < q -> 0 < b -> 0 < a <= 2 ^ 53 -> p * b = a * q ->
  (c - 1) * b < a -> a <> c * b -> a <= c * b ->
  0 <= k -> q * 2 ^ k <= p -> s * 2 ^ k = 2 ^ 52 -> 0 < s ->
  (2 * ((c - 1) * s) + 1) * q < 2 * (p * s).
Proof.
  intros Hq Hb Ha E C1 Nex C2 K0 K1 Sk Hs.
  pose proof (pow2_gt0 k K0) as Tk.
  assert (Bk : 2 ^ k * b <= a).
  { apply (cross_le a b p q); [assumption..|lia|lia]. }
  assert (Bn : 2 ^ k * b <> a).
  { intros Eq. apply Nex. rewrite <- Eq in C1, C2.
    apply Z.mul_lt_mono_pos_r in C1; [|assumption].
    apply Z.mul_le_mono_pos_r in C2; [|assumption].
    rewrite <- Eq. f_equal. lia. }
  assert (Bs : b < 2 * s).
  { apply (Z.mul_lt_mono_pos_r (2 ^ k)); [assumption|].
    replace (2 * s * 2 ^ k) with (2 * 2 ^ 52) by (rewrite <- Sk; ring).
    change (2 * 2 ^ 52) with (2 ^ 53). lia. }
  pose proof (cross_lt p q a b (c - 1) Hb Hq E C1) as Hp1.
  set (d := p - (c - 1) * q).
  assert (Hd : 0 < d) by (unfold d; lia).
  assert (G : q <= d * b).
  { replace (d * b) with ((a - (c - 1) * b) * q) by (unfold d; lia).
    rewrite <- (Z.mul_1_l q) at 1. apply Z.mul_le_mono_nonneg_r; lia. }
  assert (Q : d * b < d * (2 * s)) by (apply Z.mul_lt_mono_pos_l; assumption).
  unfold d in *. lia.
Qed.

(** Rounding the quotient [a / b] of two integers, [a] no larger than
    [2^53], never moves it across an integer: [math.Ceil] of the rounded
    quotient is the ceiling of the exact one. *)
Lemma ceil_quot_exact p q a b :
  0 < p -> 0 < q -> 0 < a <= 2 ^ 53 -> 0 < b <= 2 ^ 63 -> p * b = a * q ->
  to_int (Ceil (round_quot false p q)) = ceil_div a b.
Proof.
  intros Hp Hq Ha Hb E.
  destruct (ilog2_quot_spec p q Hp Hq) as [K1 K2].
  pose proof (ceil_div_spec a b ltac:(lia)) as C.
  set (c := ceil_div a b) in *.
  assert (Hc : 1 <= c <= a) by (clear - C Ha Hb; nia).
  set (k := ilog2_quot p q) in *.
  assert (Kup : k <= 53).
  { destruct (Z_le_gt_dec k 53); [assumption|exfalso].
    rewrite (Z.max_r 0 k), (Z.max_l 0 (- k)) in K1 by lia. change (2 ^ 0) with 1 in K1.
    assert (2 ^ 54 <= 2 ^ k) by (apply Z.pow_le_mono_r; lia).
    assert (2 ^ k * b <= a) by (apply (cross_le a b p q); lia).
    assert (2 ^ 54 * b <= 2 ^ k * b) by (apply Z.mul_le_mono_nonneg_r; lia).
    lia. }
  assert (Klo : - 63 <= k).
  { destruct (Z_le_gt_dec (- 63) k); [assumption|exfalso].
    rewrite (Z.max_l 0 (k + 1)), (Z.max_r 0 (- (k + 1))) in K2 by lia.
    change (2 ^ 0) with 1 in K2.
    assert (2 ^ 63 <= 2 ^ (- (k + 1))) by (apply Z.pow_le_mono_r; lia).
    assert (p * 2 ^ 63 <= p * 2 ^ (- (k + 1))) by (apply Z.mul_le_mono_nonneg_l; lia).
    assert (p * b <= p * 2 ^ 63) by (apply Z.mul_le_mono_nonneg_l; lia).
    assert (1 * q <= a * q) by (apply Z.mul_le_mono_nonneg_r; lia).
    lia. }
  destruct (round_quot_normal false p q Hp Hq ltac:(fold k; lia)) as [R B].
  fold k in R, B. rewrite R. clear R.
  set (m := rne (p * 2 ^ Z.max 0 (- (k - 52))) (q * 2 ^ Z.max 0 (k - 52))) in *.
  assert (Fin_c : forall m', m' = c -> to_int (Fin m' 0) = c).
  { intros m' ->. unfold to_int. change (0 <=? 0) with true. cbv iota.
    change (2 ^ 0) with 1. rewrite Z.mul_1_r.
    destruct (Z.leb_spec Int.min_int c), (Z.leb_spec c Int.max_int); simpl;
      unfold Int.min_int, Int.max_int in *; lia. }
  destruct (Z.eq_dec a (c * b)) as [Ex|Nex].
  - (* the quotient is the integer [c] *)
    assert (Ep : p = c * q).
    { apply (Z.mul_reg_r _ _ b); [lia|]. rewrite E, Ex. ring. }
    destruct (Z_le_gt_dec k 52) as [Hk|Hk].
    + assert (Em : m = c * 2 ^ (52 - k)).
      { unfold m. rewrite (Z.max_l 0 (k - 52)), (Z.max_r 0 (- (k - 52))) by lia.
        change (2 ^ 0) with 1. replace (- (k - 52)) with (52 - k) by lia.
        rewrite Z.mul_1_r, Ep.
        replace (c * q * 2 ^ (52 - k)) with (c * 2 ^ (52 - k) * q) by ring.
        apply rne_exact; lia. }
      unfold Ceil. destruct (Z.leb_spec 0 (k - 52)).
      * assert (K52 : k = 52) by lia. rewrite K52 in Em |- *.
        apply Fin_c. rewrite Em. change (2 ^ (52 - 52)) with 1. ring.
      * apply Fin_c. replace (- (k - 52)) with (52 - k) by lia.
        pose proof (pow2_gt0 (52 - k) ltac:(lia)).
        apply ceil_of_scaled; lia.
    + assert (K53 : k = 53) by lia.
      rewrite (Z.max_r 0 k), (Z.max_l 0 (- k)) in K1 by lia.
      change (2 ^ 0) with 1 in K1. rewrite K53 in K1.
      assert (2 ^ 53 <= c).
      { apply (Z.mul_le_mono_pos_r _ _ q); [assumption|]. lia. }
      assert (c = 2 ^ 53) by lia.
      assert (Em : m = 2 ^ 52).
      { unfold m. rewrite K53.
        change (Z.max 0 (- (53 - 52))) with 0. change (Z.max 0 (53 - 52)) with 1.
        change (2 ^ 0) with 1. rewrite Z.mul_1_r, Ep.
        replace (c * q) with (2 ^ 52 * (q * 2 ^ 1)) by (change (2 ^ 1) with 2; lia).
        apply rne_exact. lia. }
      rewrite Em, K53. unfold Ceil, to_int. change (0 <=? 53 - 52) with true. cbv iota.
      replace c with (2 ^ 53) by lia. reflexivity.
  - (* the quotient lies strictly between [c - 1] and [c] *)
    assert (Hp1 : (c - 1) * q < p) by (apply (cross_lt p q a b); lia).
    assert (Hp2 : p < c * q) by (apply (cross_gt p q a b); lia).
    assert (Hk : k <= 52).
    { destruct (Z_le_gt_dec k 52); [assumption|exfalso].
      rewrite (Z.max_r 0 k), (Z.max_l 0 (- k)) in K1 by lia. change (2 ^ 0) with 1 in K1.
      assert (2 ^ 53 <= 2 ^ k) by (apply Z.pow_le_mono_r; lia).
      assert (2 ^ 53 * q <= 2 ^ k * q) by (apply Z.mul_le_mono_nonneg_r; lia).
      assert (c * q <= 2 ^ 53 * q) by (apply Z.mul_le_mono_nonneg_r; lia).
      lia. }
    set (s := 2 ^ (52 - k)).
    assert (Hs : 0 < s) by (apply pow2_gt0; lia).
    assert (Dm : m = rne (p * s) q).
    { unfold m, s. rewrite (Z.max_l 0 (k - 52)), (Z.max_r 0 (- (k - 52))) by lia.
      change (2 ^ 0) with 1. replace (- (k - 52)) with (52 - k) by lia.
      rewrite Z.mul_1_r. reflexivity. }
    assert (Up : m <= c * s).
    { rewrite Dm. apply rne_le; [assumption|].
      replace (c * s * q) with (c * q * s) by ring.
      apply Z.mul_le_mono_nonneg_r; lia. }
    assert (Lo : (c - 1) * s < m).
    { destruct (Z.eq_dec c 1) as [->|]; [lia|].
      assert (K0 : 0 <= k).
      { destruct (Z_lt_le_dec k 0); [exfalso|assumption].
        rewrite (Z.max_l 0 (k + 1)), (Z.max_r 0 (- (k + 1))) in K2 by lia.
        change (2 ^ 0) with 1 in K2.
        pose proof (pow2_gt0 (- (k + 1)) ltac:(lia)).
        assert (p * 1 <= p * 2 ^ (- (k + 1))) by (apply Z.mul_le_mono_nonneg_l; lia).
        assert (1 * q <= (c - 1) * q) by (apply Z.mul_le_mono_nonneg_r; lia).
        lia. }
      rewrite (Z.max_r 0 k), (Z.max_l 0 (- k)) in K1 by lia. change (2 ^ 0) with 1 in K1.
      assert (Sk : s * 2 ^ k = 2 ^ 52).
      { unfold s. rewrite <- Z.pow_add_r by lia. f_equal. lia. }
      assert ((c - 1) * s + 1 <= m); [|lia].
      rewrite Dm. apply rne_gt; [lia|].
      apply (above_half_ulp p q a b c k s); lia. }
    unfold Ceil. destruct (Z.leb_spec 0 (k - 52)).
    + assert (s = 1) by (unfold s; replace (52 - k) with 0 by lia; reflexivity).
      replace (k - 52) with 0 by lia. apply Fin_c. lia.
    + apply Fin_c. replace (- (k - 52)) with (52 - k) by lia. fold s.
      apply ceil_of_scaled; lia.
Qed.

Lemma totalPages_exact a b :
  0 <= a <= 2 ^ 53 -> 1 <= b <= Int.max_int ->
  to_int (Ceil (div (of_int a) (of_int b))) = ceil_div a b.
Proof.
  intros Ha Hb.
  destruct (of_int_pos b ltac:(lia)) as (mb & eb & b' & Eb & Hmb & Hb' & Vb & Sb & Lb).
  rewrite Eb.
  destruct (Z.eq_dec a 0) as [->|Na].
  - unfold of_int, div. simpl (0 =? 0). cbv iota.
    destruct (Z.eqb_spec mb 0); [lia|]. simpl. unfold ceil_div. simpl. reflexivity.
  - destruct (of_int_pos a ltac:(unfold Int.max_int; lia)) as (ma & ea & a' & Ea & Hma & Ha' & Va & Sa & _).
    rewrite Ea. specialize (Sa ltac:(lia)). subst a'.
    unfold div.
    destruct (Z.eqb_spec mb 0); [lia|]. destruct (Z.eqb_spec ma 0); [lia|].
    destruct (Z.ltb_spec ma 0); [lia|]. destruct (Z.ltb_spec mb 0); [lia|].
    rewrite !Z.abs_eq by lia. simpl xorb.
    assert (Eq : ceil_div a b = ceil_div a b').
    { destruct (Z_le_gt_dec b (2 ^ 53)); [rewrite Sb by assumption; reflexivity|].
      specialize (Lb ltac:(lia)).
      rewrite (ceil_div_unique a b 1), (ceil_div_unique a b' 1); lia. }
    rewrite Eq.
    pose proof (pow2_gt0 (Z.max 0 ea) (Z.le_max_l _ _)) as T1.
    pose proof (pow2_gt0 (Z.max 0 (- eb)) (Z.le_max_l _ _)) as T2.
    pose proof (pow2_gt0 (Z.max 0 (ea - eb)) (Z.le_max_l _ _)) as T3.
    pose proof (pow2_gt0 (Z.max 0 (eb - ea)) (Z.le_max_l _ _)) as T4.
    apply ceil_quot_exact;
      [apply Z.mul_pos_pos; assumption | apply Z.mul_pos_pos; assumption | lia | lia |].
    (* the operands of the division stand for [a / b'] *)
    apply (Z.mul_reg_r _ _ (2 ^ Z.max 0 ea * 2 ^ Z.max 0 (- eb))).
    { pose proof (Z.mul_pos_pos _ _ T1 T2). lia. }
    transitivity (a * mb * (2 ^ Z.max 0 (- ea) * 2 ^ Z.max 0 (ea - eb) * 2 ^ Z.max 0 eb)).
    + replace (ma * 2 ^ Z.max 0 (ea - eb) * b' * (2 ^ Z.max 0 ea * 2 ^ Z.max 0 (- eb)))
          with ((ma * 2 ^ Z.max 0 ea) * 2 ^ Z.max 0 (ea - eb) * (b' * 2 ^ Z.max 0 (- eb))) by ring.
        rewrite Va, <- Vb. ring.
    + replace (a * (mb * 2 ^ Z.max 0 (eb - ea)) * (2 ^ Z.max 0 ea * 2 ^ Z.max 0 (- eb)))
          with (a * mb * (2 ^ Z.max 0 (eb - ea) * 2 ^ Z.max 0 ea * 2 ^ Z.max 0 (- eb))) by ring.
        clear. rewrite <- !Z.pow_add_r by apply Z.le_max_l || (apply Z.add_nonneg_nonneg; apply Z.le_max_l).
        do 2 f_equal. lia.
Qed.



Lemma wrap_id z : Int.in_range z -> Int.wrap z = z.
Proof.
  unfold Int.in_range, Int.wrap, Int.min_int, Int.max_int. intros.
  rewrite Z.mod_small; lia.
Qed.

Lemma wrap_cases z : - 2 ^ 64 <= z < 2 ^ 64 ->
  (Int.in_range z /\ Int.wrap z = z) \/
  (Int.max_int < z /\ Int.wrap z = z - 2 ^ 64) \/
  (z < Int.min_int /\ Int.wrap z = z + 2 ^ 64).
Proof.
  intros H. unfold Int.in_range, Int.min_int, Int.max_int.
  destruct (Z_lt_le_dec z (- 2 ^ 63)); [right; right|destruct (Z_lt_le_dec z (2 ^ 63)); [left|right; left]];
    (split; [lia|]); unfold Int.wrap.
  - replace (z + 2 ^ 63) with (z + 2 ^ 64 + 2 ^ 63 + (- 1) * 2 ^ 64) by lia.
    rewrite Z.mod_add by lia. rewrite Z.mod_small; lia.
  - rewrite Z.mod_small; lia.
  - replace (z + 2 ^ 63) with (z - 2 ^ 64 + 2 ^ 63 + 1 * 2 ^ 64) by lia.
    rewrite Z.mod_add by lia. rewrite Z.mod_small; lia.
Qed.

Lemma interval_nil lo hi : hi < lo -> interval lo hi = [].
Proof. intros H. unfold interval. replace (Z.to_nat (hi - lo + 1)) with O by lia. reflexivity. Qed.

Lemma interval_cons lo hi : lo <= hi -> interval lo hi = lo :: interval (lo + 1) hi.
Proof.
  intros H. unfold interval.
  replace (Z.to_nat (hi - lo + 1)) with (S (Z.to_nat (hi - (lo + 1) + 1))) by lia.
  simpl. rewrite Z.add_0_r. f_equal. rewrite <- seq_shift, map_map.
  apply map_ext. intros k. lia.
Qed.

Lemma interval_length lo hi : Z.of_nat (List.length (interval lo hi)) = Z.max 0 (hi - lo + 1).
Proof. unfold interval. rewrite length_map, length_seq. lia. Qed.

(** The loop leaves by its own test, having appended [i, i+1, ..., endPage],
    as long as [endPage] is not the largest [int]. *)
Lemma customRange_loop_spec endPage : endPage < Int.max_int ->
  forall n i acc, Int.min_int <= i -> Z.to_nat (endPage - i + 1) = n ->
  customRange_loop (S n) i endPage acc = Some (acc ++ interval i endPage).
Proof.
  intros He. induction n as [|n IH]; intros i acc Hi Hn.
  - simpl. destruct (Z.leb_spec i endPage); [lia|].
    rewrite interval_nil by lia. rewrite app_nil_r. reflexivity.
  - cbn [customRange_loop]. destruct (Z.leb_spec i endPage) as [L|L]; [|lia].
    unfold Int.add. rewrite wrap_id by (unfold Int.in_range, Int.min_int, Int.max_int in *; lia).
    change (customRange_loop (S n) (i + 1) endPage (acc ++ [i]) = Some (acc ++ interval i endPage)).
    rewrite IH by (unfold Int.min_int in *; lia).
    rewrite (interval_cons i endPage L), <- app_assoc. reflexivity.
Qed.


Lemma ParseUint_loop_range s : forall n, 0 <= n <= strconv.maxUint64 ->
  0 <= fst (strconv.ParseUint_loop s n) <= strconv.maxUint64.
Proof.
  induction s as [|c s IH]; intros n Hn; cbn [strconv.ParseUint_loop]; [assumption|].
  assert (M : 0 <= strconv.maxUint64) by (unfold strconv.maxUint64; lia).
  destruct (_ && _) eqn:D; [|cbn [fst]; lia].
  apply andb_true_iff in D. destruct D as [D1 D2].
  apply Z.leb_le in D1, D2.
  destruct (Z.leb_spec (strconv.maxUint64 / 10 + 1) n); [cbn [fst]; lia|].
  destruct (Z.ltb_spec strconv.maxUint64 (n * 10 + (Z.of_N (N_of_ascii c) - 48)));
    [cbn [fst]; lia|].
  apply IH. lia.
Qed.

Lemma Atoi_range s : Int.in_range (fst (strconv.Atoi s)).
Proof.
  unfold Int.in_range, Int.min_int, Int.max_int, strconv.Atoi.
  destruct s as [|c rest]; [simpl; lia|]. cbv zeta.
  set (body := if (Ascii.eqb c "-" || Ascii.eqb c "+")%bool then rest else String c rest).
  assert (R : 0 <= fst (strconv.ParseUint body) <= strconv.maxUint64).
  { unfold strconv.ParseUint. destruct body; [simpl; unfold strconv.maxUint64; lia|].
    apply ParseUint_loop_range. unfold strconv.maxUint64. lia. }
  unfold strconv.maxUint64 in R.
  destruct (strconv.ParseUint body) as [un [[|]|]]; cbn [fst] in R;
    try (cbn [fst]; lia);
    destruct (Ascii.eqb c "-"); cbn [negb andb];
    destruct (Z.leb_spec (2 ^ 63) un); cbn [negb andb fst]; try lia;
    destruct (Z.ltb_spec (2 ^ 63) un); cbn [negb andb fst]; lia.
Qed.

Lemma requested_page_range c : Int.in_range (requested_page c).
Proof. apply Atoi_range. Qed.


Lemma totalPages_of_range a b :
  Int.min_int <= totalPages_of a b <= 2 ^ 63 - 1024.
Proof.
  unfold totalPages_of. split.
  - apply to_int_range.
  - apply to_int_Ceil_le, div_bounded.
Qed.

Ltac wrap_step :=
  match goal with
  | |- context [Int.wrap ?t] =>
      lazymatch t with
      | context [Int.wrap _] => fail
      | context [if _ then _ else _] => fail
      | _ => idtac
      end;
      let H := fresh "W" in
      destruct (wrap_cases t) as [[? H]|[[? H]|[? H]]];
      [unfold Int.in_range, Int.min_int, Int.max_int in *; lia
      |rewrite H; clear H ..]
  | |- context [Z.ltb ?x ?y] =>
      lazymatch x with
      | context [Int.wrap _] => fail
      | context [if _ then _ else _] => fail
      | _ => idtac
      end;
      lazymatch y with
      | context [Int.wrap _] => fail
      | context [if _ then _ else _] => fail
      | _ => idtac
      end;
      destruct (Z.ltb_spec x y)
  | |- context [Z.leb ?x ?y] =>
      lazymatch x with
      | context [Int.wrap _] => fail
      | context [if _ then _ else _] => fail
      | _ => idtac
      end;
      lazymatch y with
      | context [Int.wrap _] => fail
      | context [if _ then _ else _] => fail
      | _ => idtac
      end;
      destruct (Z.leb_spec x y)
  | |- context [Z.eqb ?x ?y] =>
      lazymatch x with
      | context [Int.wrap _] => fail
      | context [if _ then _ else _] => fail
      | _ => idtac
      end;
      lazymatch y with
      | context [Int.wrap _] => fail
      | context [if _ then _ else _] => fail
      | _ => idtac
      end;
      destruct (Z.eqb_spec x y)
  end;
  cbn [andb orb negb];
  try (exfalso; unfold Int.in_range, Int.min_int, Int.max_int in *; lia).

(** What [Paginate] returns, field by field. *)
Lemma Paginate_run c totalItems itemsPerPage :
  let tp := totalPages_of totalItems itemsPerPage in
  let req := requested_page c in
  exists page lo hi,
    Paginate c totalItems itemsPerPage =
      Some {| HasOtherPages := 1 <? tp;
              HasPrevious := 1 <? page;
              HasNext := page <? tp;
              PreviousPageNumber := page - 1;
              NextPageNumber := Int.add page 1;
              CurrentPageNumber := page;
              TotalPages := tp;
              CustomRange := interval lo hi |} /\
    1 <= page <= Int.max_int /\
    (1 <= tp -> page = Z.min (Z.max 1 req) tp) /\
    (tp <= 0 -> page = Z.max 1 req) /\
    1 <= lo /\ hi <= tp /\
    interval lo hi = spec_window page tp.
Proof.
  intros tp req.
  pose proof (totalPages_of_range totalItems itemsPerPage) as Rt. fold tp in Rt.
  pose proof (requested_page_range c) as Rq. fold req in Rq.
  unfold Paginate. fold (totalPages_of totalItems itemsPerPage). fold tp. fold req.
  cbv zeta. unfold Int.add, Int.sub.
  unfold Int.in_range, Int.min_int, Int.max_int in *.
  repeat wrap_step.
  all: match goal with
       | |- exists page lo hi, match customRange_loop _ ?l ?h [] with _ => _ end = _ /\ _ =>
           match goal with
           | |- context [Build_PaginationData _ _ _ _ _ ?p _ _] =>
               exists p, l, h;
               rewrite (customRange_loop_spec h ltac:(unfold Int.max_int; lia) _ l []
                          ltac:(unfold Int.min_int; lia) eq_refl)
           end
       end.
  all: cbn [app]; unfold Int.add.
  all: repeat wrap_step.
  all: split; [reflexivity|].
  all: repeat (split; [lia|]).
  all: unfold spec_window; rewrite interval_length.
  all: repeat wrap_step.
  all: first [ f_equal; lia | rewrite !interval_nil by lia; reflexivity ].
Qed.
Lemma interval_ind_principle (P : Z -> Z -> Prop) :
  (forall lo hi, hi < lo -> P lo hi) ->
  (forall lo hi, lo <= hi -> P (lo + 1) hi -> P lo hi) ->
  forall lo hi, P lo hi.
Proof.
  intros Hnil Hcons lo hi.
  remember (Z.to_nat (hi - lo + 1)) as n eqn:E. revert lo E.
  induction n as [|n IH]; intros lo E.
  - apply Hnil. lia.
  - apply Hcons; [lia|]. apply IH. lia.
Qed.

Lemma interval_bounds lo hi : Forall (fun p => lo <= p <= hi) (interval lo hi).
Proof.
  revert lo hi. apply (interval_ind_principle (fun lo hi => Forall (fun p => lo <= p <= hi) (interval lo hi))).
  - intros lo hi H. rewrite interval_nil by assumption. constructor.
  - intros lo hi H IH. rewrite interval_cons by assumption. constructor; [lia|].
    eapply Forall_impl; [|exact IH]. cbv beta. intros; lia.
Qed.

Lemma interval_consecutive lo hi : consecutive (interval lo hi).
Proof.
  revert lo hi. apply (interval_ind_principle (fun lo hi => consecutive (interval lo hi))).
  - intros lo hi H. rewrite interval_nil by assumption. exact I.
  - intros lo hi H IH. rewrite interval_cons by assumption.
    destruct (Z_lt_le_dec hi (lo + 1)).
    + rewrite interval_nil by assumption. exact I.
    + rewrite interval_cons in IH |- * by assumption. split; [reflexivity|exact IH].
Qed.

Lemma interval_increasing lo hi : StronglySorted Z.lt (interval lo hi).
Proof.
  revert lo hi.
  apply (interval_ind_principle (fun lo hi => StronglySorted Z.lt (interval lo hi))).
  - intros lo hi H. rewrite interval_nil by assumption. constructor.
  - intros lo hi H IH. rewrite interval_cons by assumption. constructor; [exact IH|].
    eapply Forall_impl; [|apply interval_bounds]. cbv beta. intros; lia.
Qed.

Lemma totalPages_of_zero b : 1 <= b <= Int.max_int -> totalPages_of 0 b = 0.
Proof.
  intros Hb. unfold totalPages_of. rewrite totalPages_exact by lia. reflexivity.
Qed.


(** *** The model of binary64 against the Standard Library's

    On grids of operands around zero, around [2^53] and around [2^63],
    [float64(a) / float64(b)] of the model is bit for bit what the
    Standard Library's specification of IEEE 754 division gives. *)
Example Float64_div_agrees_with_SpecFloat :
  forallb (fun a => forallb (same_as_SpecFloat a) (upto 12 1)) (upto 40 (- 20)) = true /\
  forallb (fun a => forallb (same_as_SpecFloat a) (upto 10 9007199254740987))
    (upto 12 9007199254740986) = true /\
  forallb (fun a => forallb (same_as_SpecFloat a) (upto 10 1))
    (upto 12 9223372036854775796) = true /\
  forallb (fun a => forallb (same_as_SpecFloat a) (upto 10 9223372036854775798))
    (upto 12 1) = true /\
  forallb (fun a => forallb (same_as_SpecFloat a) (upto 10 123456789012))
    (upto 12 (- 987654321098765)) = true.
Proof.
  split; [vm_compute; reflexivity|]. split; [vm_compute; reflexivity|].
  split; [vm_compute; reflexivity|]. split; vm_compute; reflexivity.
Qed.

(** *** The claims about [Paginate] *)

(** C1, as amended.  For every request and all [int]s [totalItems >= 0],
    [itemsPerPage >= 1], [Paginate] returns, and its [CurrentPageNumber]
    is at least 1; it is at most [TotalPages] whenever [TotalPages >= 1];
    when there is no page ([TotalPages = 0], as for [totalItems = 0]) the
    requested page is raised to 1 but not capped:
    [CurrentPageNumber = max 1 (requested page)]. *)
Theorem Paginate_current_page_range c totalItems itemsPerPage :
  0 <= totalItems <= Int.max_int -> 1 <= itemsPerPage <= Int.max_int ->
  exists pd,
    Paginate c totalItems itemsPerPage = Some pd /\
    1 <= CurrentPageNumber pd /\
    (1 <= TotalPages pd -> CurrentPageNumber pd <= TotalPages pd) /\
    (TotalPages pd <= 0 -> CurrentPageNumber pd = Z.max 1 (requested_page c)) /\
    (totalItems = 0 -> TotalPages pd = 0).
Proof.
  intros Ht Hp.
  destruct (Paginate_run c totalItems itemsPerPage) as (page & lo & hi & E & P1 & P2 & P3 & _).
  eexists. split; [exact E|]. cbn [CurrentPageNumber TotalPages].
  repeat split; try lia.
  intros ->. apply totalPages_of_zero. assumption.
Qed.

Lemma Paginate_current_page_range_witness :
  exists pd, Paginate (ctx "7") 0 3 = Some pd /\
    1 <= CurrentPageNumber pd /\
    (1 <= TotalPages pd -> CurrentPageNumber pd <= TotalPages pd) /\
    (TotalPages pd <= 0 -> CurrentPageNumber pd = Z.max 1 (requested_page (ctx "7"))) /\
    (0 = 0 -> TotalPages pd = 0).
Proof.
  apply (Paginate_current_page_range (ctx "7") 0 3); unfold Int.max_int; lia.
Defined.

(** C1, as stated, fails for [?page=7] over an empty listing: the page
    stays 7 while [max(totalPages, 1) = 1]. *)
Lemma Paginate_current_page_not_capped :
  0 <= 0 /\ 1 <= 3 /\
  exists pd, Paginate (ctx "7") 0 3 = Some pd /\
    TotalPages pd = 0 /\ CurrentPageNumber pd = 7 /\
    ~ (1 <= CurrentPageNumber pd <= Z.max (TotalPages pd) 1).
Proof.
  split; [lia|]. split; [lia|]. eexists. split; [vm_compute; reflexivity|].
  cbn [TotalPages CurrentPageNumber]. repeat split. lia.
Qed.

(** C4, as amended.  For every request, every [0 <= totalItems <= 2^53]
    and every [int] [itemsPerPage >= 1], [Paginate] returns with
    [TotalPages = ceil (totalItems / itemsPerPage)] (0 for no item), and
    its [CustomRange] is the window of the specification around the
    returned [CurrentPageNumber]. *)
Theorem Paginate_total_pages_and_window c totalItems itemsPerPage :
  0 <= totalItems <= 2 ^ 53 -> 1 <= itemsPerPage <= Int.max_int ->
  exists pd,
    Paginate c totalItems itemsPerPage = Some pd /\
    TotalPages pd = ceil_div totalItems itemsPerPage /\
    (totalItems = 0 -> TotalPages pd = 0) /\
    CustomRange pd = spec_window (CurrentPageNumber pd) (TotalPages pd).
Proof.
  intros Ht Hp.
  destruct (Paginate_run c totalItems itemsPerPage) as (page & lo & hi & E & _ & _ & _ & _ & _ & W).
  eexists. split; [exact E|]. cbn [CustomRange TotalPages CurrentPageNumber].
  split; [apply totalPages_exact; assumption|]. split; [|exact W].
  intros ->. apply totalPages_of_zero. assumption.
Qed.

Lemma Paginate_total_pages_and_window_witness :
  exists pd,
    Paginate (ctx "3") 100 10 = Some pd /\
    TotalPages pd = ceil_div 100 10 /\
    (100 = 0 -> TotalPages pd = 0) /\
    CustomRange pd = spec_window (CurrentPageNumber pd) (TotalPages pd).
Proof.
  apply (Paginate_total_pages_and_window (ctx "3") 100 10); unfold Int.max_int; lia.
Defined.

(** C4, as stated, fails for [totalItems = 2^53 + 1] and a page size of
    1: [float64] cannot hold the count, and [TotalPages] comes out one
    short of the ceiling. *)
Lemma Paginate_total_pages_beyond_float64 :
  0 <= 9007199254740993 /\ 1 <= 1 /\
  exists pd, Paginate (ctx "1") 9007199254740993 1 = Some pd /\
    TotalPages pd = 9007199254740992 /\
    ceil_div 9007199254740993 1 = 9007199254740993 /\
    TotalPages pd <> ceil_div 9007199254740993 1.
Proof.
  split; [lia|]. split; [lia|]. eexists. split; [vm_compute; reflexivity|].
  cbn [TotalPages]. split; [reflexivity|]. split; [reflexivity|]. vm_compute. discriminate.
Qed.

(** C8, as amended.  For every input [Paginate] returns
    [HasOtherPages = (totalPages > 1)], [HasPrevious = (currentPage > 1)],
    [HasNext = (currentPage < totalPages)],
    [PreviousPageNumber = currentPage - 1], and [NextPageNumber] is
    [currentPage + 1] in the arithmetic of [int]: the successor of
    [currentPage] unless [currentPage] is the largest [int], where it
    wraps to the smallest.  That happens only when [totalPages <= 0]
    (zero or, for counts that [float64] and [int] do not hold,
    negative), where the page is not capped.  For page 1 of no items at
    3 per page: no pages, [HasOtherPages = false], empty window. *)
Theorem Paginate_flags_and_neighbours c totalItems itemsPerPage :
  (exists pd,
    Paginate c totalItems itemsPerPage = Some pd /\
    HasOtherPages pd = (1 <? TotalPages pd) /\
    HasPrevious pd = (1 <? CurrentPageNumber pd) /\
    HasNext pd = (CurrentPageNumber pd <? TotalPages pd) /\
    PreviousPageNumber pd = CurrentPageNumber pd - 1 /\
    NextPageNumber pd = Int.add (CurrentPageNumber pd) 1 /\
    (CurrentPageNumber pd < Int.max_int -> NextPageNumber pd = CurrentPageNumber pd + 1) /\
    (1 <= TotalPages pd -> NextPageNumber pd = CurrentPageNumber pd + 1) /\
    (CurrentPageNumber pd = Int.max_int -> NextPageNumber pd = Int.min_int) /\
    (CurrentPageNumber pd = Int.max_int -> TotalPages pd <= 0) /\
    (NextPageNumber pd <> CurrentPageNumber pd + 1 ->
       CurrentPageNumber pd = Int.max_int /\ TotalPages pd <= 0)) /\
  Paginate (ctx "1") 0 3 =
    Some {| HasOtherPages := false; HasPrevious := false; HasNext := false;
            PreviousPageNumber := 0; NextPageNumber := 2; CurrentPageNumber := 1;
            TotalPages := 0; CustomRange := [] |}.
Proof.
  split; [|vm_compute; reflexivity].
  destruct (Paginate_run c totalItems itemsPerPage) as (page & lo & hi & E & P1 & P2 & _).
  pose proof (totalPages_of_range totalItems itemsPerPage) as R.
  eexists. split; [exact E|].
  cbn [HasOtherPages HasPrevious HasNext PreviousPageNumber NextPageNumber CurrentPageNumber TotalPages].
  assert (Succ : page < Int.max_int -> Int.add page 1 = page + 1).
  { intros H. unfold Int.add. apply wrap_id.
    unfold Int.in_range, Int.min_int, Int.max_int in *. lia. }
  assert (Capped : 1 <= totalPages_of totalItems itemsPerPage -> page < Int.max_int).
  { intros H. specialize (P2 H). unfold Int.min_int, Int.max_int in *. lia. }
  repeat split.
  - exact Succ.
  - intros H. apply Succ, Capped, H.
  - intros ->. reflexivity.
  - intros H. destruct (Z_le_gt_dec (totalPages_of totalItems itemsPerPage) 0) as [L|G];
      [exact L|]. specialize (Capped ltac:(lia)). lia.
  - destruct (Z.eq_dec page Int.max_int) as [Em|Nm]; [exact Em|].
    exfalso. apply H. apply Succ. lia.
  - destruct (Z_le_gt_dec (totalPages_of totalItems itemsPerPage) 0) as [L|G];
      [exact L|]. exfalso. apply H. apply Succ, Capped. lia.
Qed.

(** C8, as stated, fails for [?page=9223372036854775807] over an empty
    listing: [NextPageNumber] is the smallest [int], not the page plus one. *)
Lemma Paginate_next_page_wraps :
  exists pd, Paginate (ctx "9223372036854775807") 0 3 = Some pd /\
    CurrentPageNumber pd = 9223372036854775807 /\
    NextPageNumber pd = -9223372036854775808 /\
    NextPageNumber pd <> CurrentPageNumber pd + 1.
Proof.
  eexists. split; [vm_compute; reflexivity|]. cbn. repeat split. lia.
Qed.

(** The same over a count that is negative: the largest page with
    [totalPages = -2]. *)
Example Paginate_largest_page_of_negative_pages :
  exists pd, Paginate (ctx "9223372036854775807") (-7) 3 = Some pd /\
    TotalPages pd = -2 /\
    CurrentPageNumber pd = 9223372036854775807 /\
    NextPageNumber pd = -9223372036854775808.
Proof.
  eexists. split; [vm_compute; reflexivity|]. cbn. repeat split.
Qed.

(** C10.  For every input [Paginate] returns, and its [CustomRange] is a
    run of consecutive integers, strictly increasing, each between 1 and
    [TotalPages]; it is empty when [TotalPages = 0]. *)
Theorem Paginate_custom_range c totalItems itemsPerPage :
  exists pd,
    Paginate c totalItems itemsPerPage = Some pd /\
    consecutive (CustomRange pd) /\
    StronglySorted Z.lt (CustomRange pd) /\
    Forall (fun p => 1 <= p <= TotalPages pd) (CustomRange pd) /\
    (TotalPages pd = 0 -> CustomRange pd = []).
Proof.
  destruct (Paginate_run c totalItems itemsPerPage) as (page & lo & hi & E & _ & _ & _ & L & H & _).
  eexists. split; [exact E|]. cbn [CustomRange TotalPages].
  split; [apply interval_consecutive|]. split; [apply interval_increasing|]. split.
  - eapply Forall_impl; [|apply interval_bounds]. cbv beta. intros; lia.
  - intros Z. apply interval_nil. lia.
Qed.

(** ** The use cases over any repository *)

(** *** The use case seen through the recorder *)
Section Observed.

Context {R : Type} {repo : ProjectRepository.t R}.

Lemma looked_up_app l1 l2 :
  Recorder.looked_up (l1 ++ l2) = Recorder.looked_up l1 ++ Recorder.looked_up l2.
Proof. apply flat_map_app. Qed.

Lemma resolved_app l1 l2 :
  Recorder.resolved (l1 ++ l2) = Recorder.resolved l1 ++ Recorder.resolved l2.
Proof. apply flat_map_app. Qed.

Lemma associated_app l1 l2 :
  Recorder.associated (l1 ++ l2) = Recorder.associated l1 ++ Recorder.associated l2.
Proof. apply flat_map_app. Qed.

(** The loop over the tag names: every name is looked up, in order,
    whatever fails; a tag is associated exactly when its lookup
    succeeded; and the recorder does not change what the repository
    underneath does. *)
Lemma range_tagNames_observed tagNames :
  forall project (r : R) (log : list Recorder.Event),
  exists trace,
    ProjectUseCase.range_tagNames project tagNames (r, log) =
      (fst (ProjectUseCase.range_tagNames project tagNames r),
       (snd (ProjectUseCase.range_tagNames project tagNames r), log ++ trace)) /\
    Recorder.looked_up trace = tagNames /\
    Recorder.associated trace = Recorder.resolved trace /\
    forallb Recorder.is_tag_call trace = true.
Proof.
  induction tagNames as [|tagName rest IH]; intros project r log.
  - exists []. cbn. rewrite app_nil_r. auto.
  - cbn [ProjectUseCase.range_tagNames]. unfold bind.
    cbn [ProjectRepository.FindOrCreateTag ProjectRepository.AssociateTagWithProject
         Recorder.repository].
    unfold Recorder.record. cbn [fst snd].
    destruct (ProjectRepository.FindOrCreateTag tagName r) as [[tag|e] r1] eqn:F.
    + cbn [fst snd].
      destruct (ProjectRepository.AssociateTagWithProject project tag r1)
        as [[err project1] r2] eqn:A.
      destruct (IH project1 r2
                  ((log ++ [Recorder.FindOrCreateTag tagName (inl tag)]) ++
                   [Recorder.AssociateTagWithProject project tag err]))
        as (trace & E & L & S & T).
      exists (Recorder.FindOrCreateTag tagName (inl tag) ::
              Recorder.AssociateTagWithProject project tag err :: trace).
      cbn [fst]. rewrite E. rewrite <- !app_assoc. cbn [app].
      split; [reflexivity|].
      unfold Recorder.looked_up, Recorder.associated, Recorder.resolved in *.
      cbn [flat_map app forallb Recorder.is_tag_call andb].
      rewrite L, S, T. auto.
    + destruct (IH project r1 (log ++ [Recorder.FindOrCreateTag tagName (inr e)]))
        as (trace & E & L & S & T).
      exists (Recorder.FindOrCreateTag tagName (inr e) :: trace).
      rewrite E. rewrite <- !app_assoc. cbn [app].
      split; [reflexivity|].
      unfold Recorder.looked_up, Recorder.associated, Recorder.resolved in *.
      cbn [flat_map app forallb Recorder.is_tag_call andb].
      rewrite L, S, T. auto.
Qed.

(** [CreateProject] of the use case once the project is stored: the
    error is [nil] whatever the tag calls do, every name is looked up,
    and a tag is associated exactly when its lookup succeeded. *)
Lemma UseCase_CreateProject_observed project tagNames (r : R) log project1 r1 :
  ProjectRepository.CreateProject project r = ((None, project1), r1) ->
  exists project2 r2 trace,
    ProjectUseCase.CreateProject project tagNames r = ((None, project2), r2) /\
    ProjectUseCase.CreateProject project tagNames (r, log) =
      ((None, project2),
       (r2, log ++ Recorder.CreateProject project None :: trace)) /\
    Recorder.looked_up trace = tagNames /\
    Recorder.associated trace = Recorder.resolved trace /\
    forallb Recorder.is_tag_call trace = true.
Proof.
  intros H.
  destruct (range_tagNames_observed tagNames project1 r1
              (log ++ [Recorder.CreateProject project None]))
    as (trace & E & L & S & T).
  exists (fst (ProjectUseCase.range_tagNames project1 tagNames r1)),
         (snd (ProjectUseCase.range_tagNames project1 tagNames r1)), trace.
  unfold ProjectUseCase.CreateProject, bind.
  cbn [ProjectRepository.CreateProject Recorder.repository].
  unfold Recorder.record. cbn [fst snd]. rewrite H. cbn [fst].
  rewrite E. rewrite <- app_assoc. cbn [app fst snd].
  destruct (ProjectUseCase.range_tagNames project1 tagNames r1). auto.
Qed.

(** [UpdateProject] of the use case once the project is saved, whether
    or not clearing the associations failed. *)
Lemma UseCase_UpdateProject_observed project tagNames (r : R) log e0 project0 r0 project1 r1 :
  ProjectRepository.ClearProjectTags project r = ((e0, project0), r0) ->
  ProjectRepository.UpdateProject project0 r0 = ((None, project1), r1) ->
  exists project2 r2 trace,
    ProjectUseCase.UpdateProject project tagNames r = ((None, project2), r2) /\
    ProjectUseCase.UpdateProject project tagNames (r, log) =
      ((None, project2),
       (r2, log ++ Recorder.ClearProjectTags project e0 ::
                   Recorder.UpdateProject project0 None :: trace)) /\
    Recorder.looked_up trace = tagNames /\
    Recorder.associated trace = Recorder.resolved trace /\
    forallb Recorder.is_tag_call trace = true.
Proof.
  intros H0 H1.
  destruct (range_tagNames_observed tagNames project1 r1
              ((log ++ [Recorder.ClearProjectTags project e0]) ++
               [Recorder.UpdateProject project0 None]))
    as (trace & E & L & S & T).
  exists (fst (ProjectUseCase.range_tagNames project1 tagNames r1)),
         (snd (ProjectUseCase.range_tagNames project1 tagNames r1)), trace.
  unfold ProjectUseCase.UpdateProject, bind.
  cbn [ProjectRepository.ClearProjectTags ProjectRepository.UpdateProject
       Recorder.repository].
  unfold Recorder.record. cbn [fst snd]. rewrite H0. cbn [fst snd]. rewrite H1.
  cbn [fst]. rewrite E. rewrite <- !app_assoc. cbn [app fst snd].
  destruct (ProjectUseCase.range_tagNames project1 tagNames r1). auto.
Qed.

Lemma Split_not_nil s sep : strings.Split s sep <> [].
Proof.
  destruct s as [|c s]; cbn; [discriminate|].
  destruct (Ascii.eqb c sep); [discriminate|].
  destruct (strings.Split s sep); discriminate.
Qed.

End Observed.

Local Open Scope string_scope.
Local Open Scope list_scope.

(** ** The GORM repository on its tables *)

(** *** The tables under the GORM calls *)

Lemma NoDup_map_eq {A B : Type} (f : A -> B) (l : list A) (x y : A) :
  NoDup (map f l) -> In x l -> In y l -> f x = f y -> x = y.
Proof.
  induction l as [|a l IH]; intros N Hx Hy E; [destruct Hx|].
  cbn in N. inversion N as [|? ? Hn N']; subst.
  destruct Hx as [<-|Hx], Hy as [<-|Hy]; auto.
  - exfalso. apply Hn. rewrite E. apply in_map. assumption.
  - exfalso. apply Hn. rewrite <- E. apply in_map. assumption.
Qed.

Lemma NoDup_snoc {A : Type} (l : list A) (x : A) :
  NoDup l -> ~ In x l -> NoDup (l ++ [x]).
Proof.
  intros N H. apply NoDup_app; [assumption|repeat constructor; intros []|].
  intros a Ha [<-|[]]. contradiction.
Qed.

Lemma has_tag_true t rows : In t rows -> gorm.has_tag (Tag.ID t) rows = true.
Proof.
  intros H. unfold gorm.has_tag. apply existsb_exists. exists t.
  split; [assumption|apply N.eqb_refl].
Qed.

Lemma has_tag_false id rows : gorm.has_tag id rows = false -> ~ In id (map Tag.ID rows).
Proof.
  intros H I. apply in_map_iff in I. destruct I as (t & <- & I).
  rewrite has_tag_true in H by assumption. discriminate.
Qed.

Lemma row_eqb_eq a b : gorm.row_eqb a b = true <-> a = b.
Proof.
  unfold gorm.row_eqb. destruct a, b. cbn. rewrite andb_true_iff, !N.eqb_eq.
  split; [intros [-> ->]; reflexivity|intros E; inversion E; auto].
Qed.

Lemma insert_join_In rows row x :
  In x (gorm.insert_join rows row) <-> In x rows \/ (x = row /\ ~ In row rows).
Proof.
  unfold gorm.insert_join. destruct (existsb (gorm.row_eqb row) rows) eqn:E.
  - apply existsb_exists in E. destruct E as (y & Hy & E). apply row_eqb_eq in E. subst y.
    split; [auto|intros [H|[-> H]]; [assumption|contradiction]].
  - assert (N : ~ In row rows).
    { intros I. assert (existsb (gorm.row_eqb row) rows = true); [|congruence].
      apply existsb_exists. exists row. split; [assumption|apply row_eqb_eq; reflexivity]. }
    rewrite in_app_iff. cbn. split.
    + intros [H|[<-|[]]]; auto.
    + intros [H|[-> H]]; auto.
Qed.

Lemma insert_join_NoDup rows row : NoDup rows -> NoDup (gorm.insert_join rows row).
Proof.
  intros N. unfold gorm.insert_join. destruct (existsb (gorm.row_eqb row) rows) eqn:E;
    [assumption|].
  apply NoDup_snoc; [assumption|]. intros I.
  assert (existsb (gorm.row_eqb row) rows = true); [|congruence].
  apply existsb_exists. exists row. split; [assumption|apply row_eqb_eq; reflexivity].
Qed.

Lemma row_in_dec (rows : list (uuid.UUID * uuid.UUID)) row : In row rows \/ ~ In row rows.
Proof.
  destruct (existsb (gorm.row_eqb row) rows) eqn:E.
  - left. apply existsb_exists in E. destruct E as (y & Hy & E).
    apply row_eqb_eq in E. subst y. assumption.
  - right. intros I. assert (existsb (gorm.row_eqb row) rows = true); [|congruence].
    apply existsb_exists. exists row. split; [assumption|apply row_eqb_eq; reflexivity].
Qed.

Lemma fold_insert_join new : forall rows,
  NoDup rows ->
  NoDup (fold_left gorm.insert_join new rows) /\
  (forall x, In x (fold_left gorm.insert_join new rows) <-> In x rows \/ In x new).
Proof.
  induction new as [|row new IH]; intros rows N; cbn [fold_left].
  - split; [assumption|]. intros x. cbn. tauto.
  - destruct (IH (gorm.insert_join rows row) (insert_join_NoDup rows row N)) as [N' I'].
    split; [assumption|]. intros x. rewrite I', insert_join_In. cbn.
    destruct (row_in_dec rows row); intuition (subst; auto).
Qed.

Lemma fold_upsert_known ts : forall rows,
  (forall t, In t ts -> In t rows) -> fold_left gorm.upsert_tag ts rows = rows.
Proof.
  induction ts as [|t ts IH]; intros rows H; cbn [fold_left]; [reflexivity|].
  unfold gorm.upsert_tag at 2. rewrite has_tag_true by (apply H; left; reflexivity).
  apply IH. intros t' Ht'. apply H. right. assumption.
Qed.

(** With the slice in memory holding rows of [tags] only, saving the
    associations writes join rows and nothing else. *)
Lemma save_associations_spec p d :
  (forall t, In t (Project.Tags p) -> In t (gorm.tags d)) ->
  NoDup (gorm.project_tags d) ->
  let d' := gorm.save_associations p d in
  gorm.projects d' = gorm.projects d /\
  gorm.tags d' = gorm.tags d /\
  NoDup (gorm.project_tags d') /\
  (forall row, In row (gorm.project_tags d') <->
     In row (gorm.project_tags d) \/
     exists t, In t (Project.Tags p) /\ row = (Project.ID p, Tag.ID t)).
Proof.
  intros M N. cbv zeta. unfold gorm.save_associations. cbn [gorm.projects gorm.tags gorm.project_tags].
  rewrite fold_upsert_known by assumption.
  destruct (fold_insert_join (map (fun t => (Project.ID p, Tag.ID t)) (Project.Tags p))
              (gorm.project_tags d) N) as [N' I'].
  repeat split; try assumption.
  - intros H. apply I' in H. destruct H as [H|H]; [left; assumption|right].
    apply in_map_iff in H. destruct H as (t & <- & H). exists t. auto.
  - intros [H|(t & H & ->)]; apply I'; [left; assumption|right].
    apply in_map_iff. exists t. auto.
Qed.

Lemma fresh_not_in used : ~ In (gorm.fresh used) used.
Proof.
  assert (B : forall x, In x used -> (x <= fold_right N.max 0 used)%N).
  { induction used as [|a used IH]; intros x H; [destruct H|].
    cbn. destruct H as [->|H]; [lia|]. specialize (IH x H). lia. }
  intros I. apply B in I. unfold gorm.fresh in I. lia.
Qed.

Lemma First_by_name_Some name rows t :
  gorm.First_by_name name rows = Some t -> In t rows /\ Tag.Name t = name.
Proof.
  revert t. induction rows as [|a rows IH]; intros t; cbn; [discriminate|].
  destruct (gorm.First_by_name name rows) as [t'|].
  - destruct (IH t' eq_refl) as [I E].
    destruct ((Tag.Name a =? name)%string && (Tag.ID a <? Tag.ID t')%N) eqn:C;
      intros H; inversion H; subst.
    + apply andb_true_iff in C. destruct C as [C _]. apply String.eqb_eq in C. auto.
    + auto.
  - destruct (Tag.Name a =? name)%string eqn:C; [|discriminate].
    intros H; inversion H; subst. apply String.eqb_eq in C. auto.
Qed.

Lemma First_by_name_None name rows :
  gorm.First_by_name name rows = None -> ~ In name (map Tag.Name rows).
Proof.
  induction rows as [|a rows IH]; cbn; [intros _ []|].
  destruct (gorm.First_by_name name rows) as [t'|].
  - destruct (_ && _); discriminate.
  - destruct (Tag.Name a =? name)%string eqn:C; [discriminate|].
    intros _ [E|H]; [|apply IH; auto]. apply String.eqb_neq in C. contradiction.
Qed.

Lemma FirstOrCreate_spec name d :
  Keys d ->
  let (t, d') := gorm.FirstOrCreate name d in
  Keys d' /\ In t (gorm.tags d') /\ Tag.Name t = name /\
  gorm.projects d' = gorm.projects d /\
  gorm.project_tags d' = gorm.project_tags d /\
  (gorm.tags d' = gorm.tags d \/
   (gorm.tags d' = gorm.tags d ++ [t] /\ ~ In name (map Tag.Name (gorm.tags d)))) /\
  (unique_names d -> unique_names d').
Proof.
  intros (I1 & I3). unfold gorm.FirstOrCreate.
  destruct (gorm.First_by_name name (gorm.tags d)) as [t|] eqn:F.
  - destruct (First_by_name_Some _ _ _ F). unfold Keys. repeat split; auto.
  - pose proof (First_by_name_None _ _ F) as Nn.
    unfold Keys, unique_names. cbn [gorm.projects gorm.tags gorm.project_tags].
    rewrite !map_app. cbn [map Tag.ID Tag.Name].
    split; [split; [apply NoDup_snoc; [assumption|apply fresh_not_in]|assumption]|].
    split; [apply in_app_iff; right; left; reflexivity|].
    split; [reflexivity|]. split; [reflexivity|]. split; [reflexivity|].
    split; [right; auto|]. intros U. apply NoDup_snoc; assumption.
Qed.

(** *** One pass over the tag names, on the tables *)

Lemma Grows_refl p d : Grows p d p d.
Proof.
  unfold Grows. repeat (split; [reflexivity || apply incl_refl|]). auto.
Qed.

Lemma Grows_same_tables p d p' :
  Project.ID p' = Project.ID p -> incl (Project.Tags p) (Project.Tags p') ->
  Grows p d p' d.
Proof.
  intros E T. unfold Grows. split; [assumption|]. split; [assumption|].
  repeat (split; [reflexivity || apply incl_refl|]). auto.
Qed.

Lemma Grows_trans p d p1 d1 p2 d2 :
  Grows p d p1 d1 -> Grows p1 d1 p2 d2 -> Grows p d p2 d2.
Proof.
  intros (A1 & A2 & A3 & A4 & A5 & A6 & A7) (B1 & B2 & B3 & B4 & B5 & B6 & B7).
  unfold Grows. split; [congruence|]. split; [eapply incl_tran; eassumption|].
  split; [eapply incl_tran; eassumption|]. split; [congruence|].
  split; [eapply incl_tran; eassumption|]. split; [|auto].
  intros row Hr. destruct (B6 row Hr) as [H|(t & Ht & E)].
  - destruct (A6 row H) as [H'|(t & Ht & E)]; [left; assumption|].
    right. exists t. split; [apply B2; assumption|assumption].
  - right. exists t. split; [assumption|]. rewrite E, A1. reflexivity.
Qed.

Lemma FindOrCreateTag_gorm all name p r :
  In name all -> Keys (GormProjectRepository.DB r) -> mem_ok all p (GormProjectRepository.DB r) ->
  let res := GormProjectRepository.FindOrCreateTag name r in
  let d' := GormProjectRepository.DB (snd res) in
  Keys d' /\ mem_ok all p d' /\ Grows p (GormProjectRepository.DB r) p d' /\
  GormProjectRepository.outages (snd res) = tl (GormProjectRepository.outages r) /\
  match fst res with
  | inl tag => In tag (gorm.tags d') /\ Tag.Name tag = name
  | inr _ => True
  end.
Proof.
  intros Hn I M. cbv zeta. unfold GormProjectRepository.FindOrCreateTag.
  destruct (GormProjectRepository.is_down r); cbn [fst snd GormProjectRepository.DB GormProjectRepository.next GormProjectRepository.outages].
  - auto using Grows_refl.
  - pose proof (FirstOrCreate_spec name (GormProjectRepository.DB r) I) as F.
    destruct (gorm.FirstOrCreate name (GormProjectRepository.DB r)) as [tag d1].
    destruct F as (I1 & T1 & N1 & P1 & R1 & G1 & U1).
    cbn [fst snd GormProjectRepository.DB GormProjectRepository.next GormProjectRepository.outages].
    assert (Inc1 : incl (gorm.tags (GormProjectRepository.DB r)) (gorm.tags d1)).
    { destruct G1 as [->|[-> _]]; [apply incl_refl|apply incl_appl, incl_refl]. }
    split; [assumption|]. split.
    { intros t Ht. destruct (M t Ht). split; [apply Inc1; assumption|assumption]. }
    split; [|auto].
    unfold Grows. split; [reflexivity|]. split; [apply incl_refl|]. split; [assumption|].
    split; [assumption|]. rewrite R1. split; [apply incl_refl|]. auto.
Qed.

Lemma AssociateTagWithProject_gorm all p tag r :
  Keys (GormProjectRepository.DB r) -> mem_ok all p (GormProjectRepository.DB r) ->
  In tag (gorm.tags (GormProjectRepository.DB r)) -> In (Tag.Name tag) all ->
  let res := GormProjectRepository.AssociateTagWithProject p tag r in
  let p' := snd (fst res) in
  let d' := GormProjectRepository.DB (snd res) in
  Keys d' /\ mem_ok all p' d' /\ Grows p (GormProjectRepository.DB r) p' d' /\
  GormProjectRepository.outages (snd res) = tl (GormProjectRepository.outages r).
Proof.
  intros I M Ht Hn. cbv zeta. unfold GormProjectRepository.AssociateTagWithProject.
  set (p1 := gorm.Append_memory p tag). set (d := GormProjectRepository.DB r) in *.
  assert (M1 : mem_ok all p1 d).
  { intros t H. unfold p1, gorm.Append_memory in H. cbn in H.
    apply in_app_iff in H. destruct H as [H|[<-|[]]]; [apply M; assumption|auto]. }
  assert (Tp1 : incl (Project.Tags p) (Project.Tags p1)).
  { unfold p1, gorm.Append_memory. cbn. apply incl_appl, incl_refl. }
  assert (G0 : Grows p d p1 d) by (apply Grows_same_tables; [reflexivity|assumption]).
  destruct (GormProjectRepository.is_down r);
    cbn [fst snd GormProjectRepository.DB GormProjectRepository.next GormProjectRepository.outages];
    [auto|].
  unfold gorm.Append_save. fold d.
  destruct (gorm.has_project (Project.ID p1) d);
    cbn [fst snd GormProjectRepository.DB GormProjectRepository.next GormProjectRepository.outages];
    [|auto].
  destruct I as (Ia & Ic).
  destruct (save_associations_spec p1 d (fun t H => proj1 (M1 t H)) Ic) as (S1 & S2 & S3 & S4).
  set (d2 := gorm.save_associations p1 d) in *.
  split; [unfold Keys; rewrite S2; auto|]. split; [unfold mem_ok; rewrite S2; exact M1|].
  split; [|reflexivity].
  unfold Grows, unique_names. split; [reflexivity|]. split; [assumption|]. rewrite S2.
  split; [apply incl_refl|]. split; [assumption|]. split; [|split; [|auto]].
  - intros row Hr. apply S4. left. assumption.
  - intros row Hr. apply S4 in Hr. destruct Hr as [Hr|(t & H & ->)]; [left; assumption|].
    right. exists t. auto.
Qed.

Lemma range_tagNames_gorm all names :
  (forall n, In n names -> In n all) ->
  forall p r,
  Keys (GormProjectRepository.DB r) -> mem_ok all p (GormProjectRepository.DB r) ->
  let res := ProjectUseCase.range_tagNames p names r in
  let d' := GormProjectRepository.DB (snd res) in
  Keys d' /\ mem_ok all (fst res) d' /\ Grows p (GormProjectRepository.DB r) (fst res) d'.
Proof.
  induction names as [|name names IH]; intros Hall p r I M; cbv zeta.
  - cbn [ProjectUseCase.range_tagNames]. unfold ret. cbn [fst snd]. auto using Grows_refl.
  - cbn [ProjectUseCase.range_tagNames]. unfold bind.
    cbn [ProjectRepository.FindOrCreateTag ProjectRepository.AssociateTagWithProject
         GormProjectRepository.repository].
    assert (Hall' : forall n, In n names -> In n all) by (intros; apply Hall; right; assumption).
    pose proof (FindOrCreateTag_gorm all name p r (Hall name (or_introl eq_refl)) I M) as F.
    cbv zeta in F.
    destruct (GormProjectRepository.FindOrCreateTag name r) as [[tag|e] r1].
    + cbn [fst snd] in F. destruct F as (I1 & M1 & G1 & _ & T1 & N1).
      pose proof (AssociateTagWithProject_gorm all p tag r1 I1 M1 T1
                    ltac:(rewrite N1; apply Hall; left; reflexivity)) as A.
      cbv zeta in A.
      destruct (GormProjectRepository.AssociateTagWithProject p tag r1) as [[err p2] r2].
      cbn [fst snd] in A. destruct A as (I2 & M2 & G2 & _).
      destruct (IH Hall' p2 r2 I2 M2) as (I3 & M3 & G3).
      split; [assumption|]. split; [assumption|].
      eapply Grows_trans; [exact G1|]. eapply Grows_trans; [exact G2|exact G3].
    + cbn [fst snd] in F. destruct F as (I1 & M1 & G1 & _).
      destruct (IH Hall' p r1 I1 M1) as (I3 & M3 & G3).
      split; [assumption|]. split; [assumption|].
      eapply Grows_trans; [exact G1|exact G3].
Qed.

Lemma Tags_of_In id d t :
  In t (gorm.Tags_of id d) <-> In t (gorm.tags d) /\ In (id, Tag.ID t) (gorm.project_tags d).
Proof.
  unfold gorm.Tags_of. rewrite in_flat_map. split.
  - intros ([pid tid] & Hr & H). cbn [fst snd] in H.
    destruct (N.eqb_spec pid id) as [->|]; [|destruct H].
    apply filter_In in H. destruct H as [H E]. apply N.eqb_eq in E. rewrite E. auto.
  - intros [H Hr]. exists (id, Tag.ID t). split; [assumption|]. cbn [fst snd].
    rewrite N.eqb_refl. apply filter_In. split; [assumption|apply N.eqb_refl].
Qed.

Lemma filter_by_ID rows id :
  NoDup (map Tag.ID rows) ->
  filter (fun t => (Tag.ID t =? id)%N) rows = [] \/
  exists t, filter (fun t => (Tag.ID t =? id)%N) rows = [t] /\ In t rows /\ Tag.ID t = id.
Proof.
  induction rows as [|a rows IH]; intros N; [left; reflexivity|].
  cbn [map] in N. inversion N as [|? ? Hn N']; subst. cbn [filter].
  destruct (N.eqb_spec (Tag.ID a) id) as [E|E].
  - right. exists a. split; [|split; [left; reflexivity|assumption]]. f_equal.
    destruct (IH N') as [->|(t & _ & Ht & Et)]; [reflexivity|].
    exfalso. apply Hn. rewrite E, <- Et. apply in_map. assumption.
  - destruct (IH N') as [->|(t & -> & Ht & Et)]; [left; reflexivity|].
    right. exists t. split; [reflexivity|]. split; [right; assumption|assumption].
Qed.

(** With the primary keys in place and the tag names unique, the tags of
    a project carry pairwise different names. *)
Lemma Tags_of_names_NoDup d id : Inv d -> NoDup (map Tag.Name (gorm.Tags_of id d)).
Proof.
  intros [[Ki Kr] U]. unfold unique_names in U. unfold gorm.Tags_of.
  assert (G : forall rows, NoDup rows -> incl rows (gorm.project_tags d) ->
            NoDup (map Tag.Name
                     (flat_map (fun row => if (fst row =? id)%N
                                           then filter (fun t => (Tag.ID t =? snd row)%N) (gorm.tags d)
                                           else []) rows)) /\
            (forall t, In t (flat_map (fun row => if (fst row =? id)%N
                                           then filter (fun t => (Tag.ID t =? snd row)%N) (gorm.tags d)
                                           else []) rows) ->
                       In t (gorm.tags d) /\ In (id, Tag.ID t) rows)).
  { induction rows as [|[pid tid] rows IH]; intros N Inc; cbn [flat_map].
    - split; [constructor|intros t []].
    - inversion N as [|? ? Hn N']; subst.
      destruct (IH N' (fun x Hx => Inc x (or_intror Hx))) as [IH1 IH2].
      cbn [fst snd]. destruct (N.eqb_spec pid id) as [->|Ne].
      + destruct (filter_by_ID (gorm.tags d) tid Ki) as [->|(t & -> & Ht & Et)].
        * cbn [app]. split; [assumption|]. intros t Ht. destruct (IH2 t Ht). split; [assumption|right; assumption].
        * cbn [app map]. split.
          -- constructor; [|assumption]. intros I. apply in_map_iff in I.
             destruct I as (t' & En & Ht').
             destruct (IH2 t' Ht') as [Ht'' Hr'].
             assert (t' = t) by (apply (NoDup_map_eq Tag.Name (gorm.tags d) t' t U Ht'' Ht En)).
             subst t'. rewrite Et in Hr'. contradiction.
          -- intros t' [<-|Ht']; [rewrite Et; split; [assumption|left; reflexivity]|].
             destruct (IH2 t' Ht'). split; [assumption|right; assumption].
      + cbn [app]. split; [assumption|]. intros t Ht. destruct (IH2 t Ht). split; [assumption|right; assumption]. }
  apply (G (gorm.project_tags d) Kr (incl_refl _)).
Qed.

Lemma with_defaults_ID p : Project.ID (gorm.with_defaults p) = Project.ID p.
Proof. unfold gorm.with_defaults. destruct (String.eqb _ _); reflexivity. Qed.

Lemma with_defaults_Tags p : Project.Tags (gorm.with_defaults p) = Project.Tags p.
Proof. unfold gorm.with_defaults. destruct (String.eqb _ _); reflexivity. Qed.

Lemma CreateProject_gorm all p r :
  Keys (GormProjectRepository.DB r) -> mem_ok all p (GormProjectRepository.DB r) ->
  let res := GormProjectRepository.CreateProject p r in
  let p' := snd (fst res) in
  let d := GormProjectRepository.DB r in
  let d' := GormProjectRepository.DB (snd res) in
  Keys d' /\ mem_ok all p' d' /\
  Project.Tags p' = Project.Tags p /\ gorm.tags d' = gorm.tags d /\
  incl (gorm.project_tags d) (gorm.project_tags d') /\
  (forall row, In row (gorm.project_tags d') ->
     In row (gorm.project_tags d) \/
     exists t, In t (Project.Tags p') /\ row = (Project.ID p', Tag.ID t)) /\
  (Project.ID p <> uuid.Nil -> Project.ID p' = Project.ID p).
Proof.
  intros K M. cbv zeta. unfold GormProjectRepository.CreateProject.
  destruct (GormProjectRepository.is_down r);
    cbn [fst snd GormProjectRepository.DB GormProjectRepository.next];
    [split; [exact K|]; split; [exact M|]; repeat (split; [reflexivity || apply incl_refl|]);
     split; auto|].
  unfold gorm.Create. cbv zeta. set (d := GormProjectRepository.DB r) in *.
  set (p1 := gorm.with_defaults
               (if (Project.ID p =? uuid.Nil)%N
                then Project.with_ID p (gorm.fresh (map Project.ID (gorm.projects d))) else p)).
  assert (T1 : Project.Tags p1 = Project.Tags p).
  { unfold p1. rewrite with_defaults_Tags. destruct (_ =? _)%N; reflexivity. }
  assert (E1 : Project.ID p <> uuid.Nil -> Project.ID p1 = Project.ID p).
  { intros Hn. unfold p1. rewrite with_defaults_ID.
    destruct (N.eqb_spec (Project.ID p) uuid.Nil); [contradiction|reflexivity]. }
  assert (M1 : mem_ok all p1 d) by (unfold mem_ok; rewrite T1; exact M).
  destruct (gorm.has_project (Project.ID p1) d);
    cbn [fst snd GormProjectRepository.DB GormProjectRepository.next];
    [split; [exact K|]; split; [exact M1|]; split; [exact T1|];
     repeat (split; [reflexivity || apply incl_refl|]); split; auto|].
  match goal with |- context [gorm.save_associations _ ?x] => set (d0 := x) end.
  destruct K as [Ki Kr].
  destruct (save_associations_spec p1 d0 (fun t H => proj1 (M1 t H)) Kr) as (S1 & S2 & S3 & S4).
  cbn [d0 gorm.tags gorm.project_tags] in S2, S4.
  split; [unfold Keys; rewrite S2; auto|]. split; [unfold mem_ok; rewrite S2; exact M1|].
  split; [assumption|]. split; [assumption|]. split; [|split; [|assumption]].
  - intros row Hr. apply S4. left. assumption.
  - intros row Hr. apply S4 in Hr. destruct Hr as [Hr|(t & H & ->)]; [left; assumption|].
    right. exists t. auto.
Qed.

Lemma UpdateProject_gorm all p r :
  Keys (GormProjectRepository.DB r) -> mem_ok all p (GormProjectRepository.DB r) ->
  let res := GormProjectRepository.UpdateProject p r in
  let p' := snd (fst res) in
  let d := GormProjectRepository.DB r in
  let d' := GormProjectRepository.DB (snd res) in
  Keys d' /\ mem_ok all p' d' /\
  Project.Tags p' = Project.Tags p /\ gorm.tags d' = gorm.tags d /\
  incl (gorm.project_tags d) (gorm.project_tags d') /\
  (forall row, In row (gorm.project_tags d') ->
     In row (gorm.project_tags d) \/
     exists t, In t (Project.Tags p') /\ row = (Project.ID p', Tag.ID t)) /\
  (Project.ID p <> uuid.Nil -> Project.ID p' = Project.ID p).
Proof.
  intros K M. cbv zeta. unfold GormProjectRepository.UpdateProject.
  destruct (GormProjectRepository.is_down r) eqn:Dn;
    cbn [fst snd GormProjectRepository.DB GormProjectRepository.next];
    [split; [exact K|]; split; [exact M|]; repeat (split; [reflexivity || apply incl_refl|]);
     split; auto|].
  unfold gorm.Save. destruct (N.eqb_spec (Project.ID p) uuid.Nil) as [En|En].
  - pose proof (CreateProject_gorm all p r K M) as C. cbv zeta in C.
    unfold GormProjectRepository.CreateProject in C. rewrite Dn in C.
    destruct (gorm.Create p (GormProjectRepository.DB r)) as [[err p1] d1].
    exact C.
  - cbv zeta. cbn [fst snd GormProjectRepository.DB GormProjectRepository.next].
    match goal with |- context [gorm.save_associations ?y ?x] => set (d0 := x); set (p2 := y) end.
    assert (T2 : Project.Tags p2 = Project.Tags p).
    { unfold p2. destruct (gorm.has_project _ _); [reflexivity|apply with_defaults_Tags]. }
    assert (E2 : Project.ID p2 = Project.ID p).
    { unfold p2. destruct (gorm.has_project _ _); [reflexivity|apply with_defaults_ID]. }
    assert (M2 : mem_ok all p2 (GormProjectRepository.DB r)).
    { unfold mem_ok. rewrite T2. exact M. }
    destruct K as [Ki Kr].
    destruct (save_associations_spec p2 d0 (fun t H => proj1 (M2 t H)) Kr) as (S1 & S2 & S3 & S4).
    cbn [d0 gorm.tags gorm.project_tags] in S2, S4.
    split; [unfold Keys; rewrite S2; auto|]. split; [unfold mem_ok; rewrite S2; exact M2|].
    split; [assumption|]. split; [assumption|]. split; [|split; [|intros _; assumption]].
    + intros row Hr. apply S4. left. assumption.
    + intros row Hr. apply S4 in Hr. destruct Hr as [Hr|(t & H & ->)]; [left; assumption|].
      right. exists t. auto.
Qed.

Lemma ClearProjectTags_gorm p r :
  Keys (GormProjectRepository.DB r) ->
  let res := GormProjectRepository.ClearProjectTags p r in
  let p' := snd (fst res) in
  let d := GormProjectRepository.DB r in
  let d' := GormProjectRepository.DB (snd res) in
  Keys d' /\ Project.Tags p' = [] /\ Project.ID p' = Project.ID p /\
  gorm.tags d' = gorm.tags d /\
  incl (gorm.project_tags d') (gorm.project_tags d) /\
  (forall row, fst row <> Project.ID p -> In row (gorm.project_tags d) -> In row (gorm.project_tags d')) /\
  (GormProjectRepository.is_down r = false ->
     forall row, In row (gorm.project_tags d') -> fst row <> Project.ID p) /\
  (GormProjectRepository.is_down r = true -> d' = d).
Proof.
  intros [Ki Kr]. cbv zeta. unfold GormProjectRepository.ClearProjectTags.
  destruct (GormProjectRepository.is_down r);
    cbn [fst snd GormProjectRepository.DB GormProjectRepository.next].
  - split; [split; assumption|]. repeat (split; [reflexivity || apply incl_refl|]).
    split; [auto|]. split; [discriminate|reflexivity].
  - unfold gorm.Clear_delete, Keys. cbn [gorm.tags gorm.project_tags].
    split; [split; [assumption|apply NoDup_filter; assumption]|].
    split; [reflexivity|]. split; [reflexivity|]. split; [reflexivity|].
    split; [intros row Hr; apply filter_In in Hr; tauto|].
    split; [|split; [|discriminate]].
    + intros row Hn Hr. apply filter_In. split; [assumption|].
      apply negb_true_iff. apply N.eqb_neq. assumption.
    + intros _ row Hr. apply filter_In in Hr. destruct Hr as [_ Hr].
      apply negb_true_iff in Hr. apply N.eqb_neq in Hr. assumption.
Qed.

(** [UpdateProject] of the use case, step by step on the tables. *)
Lemma UseCase_UpdateProject_gorm project names r :
  Keys (GormProjectRepository.DB r) ->
  let d := GormProjectRepository.DB r in
  let cleared := GormProjectRepository.ClearProjectTags project r in
  let d0 := GormProjectRepository.DB (snd cleared) in
  let res := ProjectUseCase.UpdateProject project names r in
  let p' := snd (fst res) in
  let d' := GormProjectRepository.DB (snd res) in
  Keys d' /\ mem_ok names p' d' /\
  (unique_names d -> unique_names d') /\
  incl (gorm.tags d) (gorm.tags d') /\
  incl (gorm.project_tags d0) (gorm.project_tags d') /\
  (forall row, In row (gorm.project_tags d') ->
     In row (gorm.project_tags d0) \/
     exists t, In t (Project.Tags p') /\ row = (Project.ID p', Tag.ID t)) /\
  (Project.ID project <> uuid.Nil -> Project.ID p' = Project.ID project) /\
  (names = [] ->
     gorm.tags d' = gorm.tags d /\ incl (gorm.project_tags d') (gorm.project_tags d0)).
Proof.
  intros K. cbv zeta. unfold ProjectUseCase.UpdateProject, bind.
  cbn [ProjectRepository.ClearProjectTags ProjectRepository.UpdateProject
       GormProjectRepository.repository].
  pose proof (ClearProjectTags_gorm project r K) as C. cbv zeta in C.
  destruct (GormProjectRepository.ClearProjectTags project r) as [[e0 p0] r0].
  cbn [fst snd] in C |- *. destruct C as (K0 & T0 & E0 & G0 & _).
  assert (M0 : mem_ok names p0 (GormProjectRepository.DB r0)).
  { intros t Ht. rewrite T0 in Ht. destruct Ht. }
  pose proof (UpdateProject_gorm names p0 r0 K0 M0) as U. cbv zeta in U.
  destruct (GormProjectRepository.UpdateProject p0 r0) as [[e1 p1] r1].
  cbn [fst snd] in U. destruct U as (K1 & M1 & T1 & G1 & R1 & S1 & E1).
  assert (Sub1 : incl (gorm.project_tags (GormProjectRepository.DB r1))
                      (gorm.project_tags (GormProjectRepository.DB r0))).
  { intros row Hr. destruct (S1 row Hr) as [H|(t & Ht & _)]; [assumption|].
    rewrite T1, T0 in Ht. destruct Ht. }
  destruct e1 as [e|].
  - (* the save failed *)
    unfold ret. cbn [fst snd]. split; [assumption|]. split; [assumption|].
    unfold unique_names. rewrite G1, G0. split; [auto|]. split; [apply incl_refl|].
    split; [assumption|]. split; [assumption|]. split; [intros Hn; rewrite E1, E0; congruence|].
    intros _. split; [reflexivity|assumption].
  - pose proof (range_tagNames_gorm names names (fun n H => H) p1 r1 K1 M1) as L.
    cbv zeta in L.
    destruct (ProjectUseCase.range_tagNames p1 names r1) as [p2 r2] eqn:Q.
    cbn [fst snd] in L. unfold ret. cbn [fst snd].
    destruct L as (K2 & M2 & (A1 & A2 & A3 & A4 & A5 & A6 & A7)).
    split; [assumption|]. split; [assumption|].
    split; [intros Un; apply A7; unfold unique_names; rewrite G1, G0; exact Un|].
    split; [rewrite <- G0, <- G1; assumption|].
    split; [eapply incl_tran; eassumption|].
    split.
    { intros row Hr. destruct (A6 row Hr) as [H|(t & Ht & ->)]; [left; apply Sub1; assumption|].
      right. exists t. split; [assumption|]. rewrite A1. reflexivity. }
    split; [intros Hn; rewrite A1, E1, E0; congruence|].
    intros ->. cbn [ProjectUseCase.range_tagNames] in Q. unfold ret in Q.
    inversion Q; subst. split; [congruence|assumption].
Qed.

(** [CreateProject] of the use case on the tables. *)
Lemma UseCase_CreateProject_gorm project names r :
  Keys (GormProjectRepository.DB r) -> mem_ok names project (GormProjectRepository.DB r) ->
  let d := GormProjectRepository.DB r in
  let res := ProjectUseCase.CreateProject project names r in
  let d' := GormProjectRepository.DB (snd res) in
  Keys d' /\ mem_ok names (snd (fst res)) d' /\
  (unique_names d -> unique_names d') /\
  incl (gorm.tags d) (gorm.tags d') /\
  incl (gorm.project_tags d) (gorm.project_tags d').
Proof.
  intros K M. cbv zeta. unfold ProjectUseCase.CreateProject, bind.
  cbn [ProjectRepository.CreateProject GormProjectRepository.repository].
  pose proof (CreateProject_gorm names project r K M) as C. cbv zeta in C.
  destruct (GormProjectRepository.CreateProject project r) as [[e1 p1] r1].
  cbn [fst snd] in C. destruct C as (K1 & M1 & T1 & G1 & R1 & S1 & E1).
  destruct e1 as [e|].
  - unfold ret. cbn [fst snd]. unfold unique_names. rewrite G1.
    split; [assumption|]. split; [assumption|]. split; [auto|].
    split; [apply incl_refl|assumption].
  - pose proof (range_tagNames_gorm names names (fun n H => H) p1 r1 K1 M1) as L.
    cbv zeta in L.
    destruct (ProjectUseCase.range_tagNames p1 names r1) as [p2 r2].
    cbn [fst snd] in L. unfold ret. cbn [fst snd].
    destruct L as (K2 & M2 & (A1 & A2 & A3 & A4 & A5 & A6 & A7)).
    split; [assumption|]. split; [assumption|].
    split; [intros Un; apply A7; unfold unique_names; rewrite G1; exact Un|].
    split; [rewrite <- G1; assumption|]. eapply incl_tran; eassumption.
Qed.


(** *** Two requests inside [FindOrCreateTag] *)

Lemma named_app name rows t :
  Concurrent.named name (rows ++ [t]) =
  Concurrent.named name rows ++ (if String.eqb (Tag.Name t) name then [t] else []).
Proof. unfold Concurrent.named. rewrite filter_app. reflexivity. Qed.

Lemma named_In name rows t : In t (Concurrent.named name rows) -> In t rows /\ Tag.Name t = name.
Proof.
  unfold Concurrent.named. intros H. apply filter_In in H. destruct H as [H E].
  apply String.eqb_eq in E. auto.
Qed.

Lemma First_by_name_new name rows :
  Concurrent.named name rows = [] -> gorm.First_by_name name rows = None.
Proof.
  induction rows as [|a rows IH]; cbn; [reflexivity|].
  destruct (Tag.Name a =? name)%string eqn:E; [discriminate|].
  intros H. rewrite (IH H). reflexivity.
Qed.

Lemma First_by_name_only name rows t :
  Concurrent.named name rows = [t] -> gorm.First_by_name name rows = Some t.
Proof.
  induction rows as [|a rows IH]; cbn; [discriminate|].
  destruct (Tag.Name a =? name)%string eqn:E.
  - intros H. inversion H as [[Ha Hr]]. rewrite (First_by_name_new _ _ Hr). reflexivity.
  - intros H. rewrite (IH H). reflexivity.
Qed.

Section Race.

Variable name : string.

Lemma fresh_differs rows t :
  In t rows -> Tag.ID t <> gorm.fresh (map Tag.ID rows).
Proof.
  intros H E. apply (fresh_not_in (map Tag.ID rows)). rewrite <- E. apply in_map. assumption.
Qed.

Lemma race_step_left a b rows :
  race name a b rows ->
  race name (fst (Concurrent.step a rows)) b (snd (Concurrent.step a rows)).
Proof.
  destruct a as [n|n|ta], b as [m|m|tb]; cbn [race Concurrent.step];
    try (intros (-> & -> & H)); try (intros (-> & H)); try (intros H).
  all: try (rewrite (First_by_name_new _ _ H); cbn [fst snd race]; auto).
  all: try (rewrite (First_by_name_only _ _ _ H); cbn [fst snd race]; auto).
  all: cbn [fst snd race]; rewrite ?named_app; cbn [Tag.Name]; rewrite ?String.eqb_refl, ?H;
    cbn [app]; auto.
  right. split; [|auto]. cbn [Tag.ID]. intros E.
  apply (fresh_differs rows tb); [|symmetry; exact E].
  apply (named_In name). rewrite H. left. reflexivity.
Qed.

Lemma race_step_right a b rows :
  race name a b rows ->
  race name a (fst (Concurrent.step b rows)) (snd (Concurrent.step b rows)).
Proof.
  destruct a as [n|n|ta], b as [m|m|tb]; cbn [race Concurrent.step];
    try (intros (-> & -> & H)); try (intros (-> & H)); try (intros H).
  all: try (rewrite (First_by_name_new _ _ H); cbn [fst snd race]; auto).
  all: try (rewrite (First_by_name_only _ _ _ H); cbn [fst snd race]; auto).
  all: cbn [fst snd race]; rewrite ?named_app; cbn [Tag.Name]; rewrite ?String.eqb_refl, ?H;
    cbn [app]; auto.
  right. split; [|auto]. cbn [Tag.ID].
  apply (fresh_differs rows ta).
  apply (named_In name). rewrite H. left. reflexivity.
Qed.

Lemma race_run schedule : forall a b rows,
  race name a b rows ->
  let '(a', b', rows') := Concurrent.run schedule a b rows in race name a' b' rows'.
Proof.
  induction schedule as [|[|] schedule IH]; intros a b rows H; cbn [Concurrent.run].
  - exact H.
  - pose proof (race_step_right a b rows H) as S.
    destruct (Concurrent.step b rows) as [b' rows']. apply IH. exact S.
  - pose proof (race_step_left a b rows H) as S.
    destruct (Concurrent.step a rows) as [a' rows']. apply IH. exact S.
Qed.

End Race.

(** ** The claims about the projects and their tags *)

Section Claims.

Context {R : Type} {repo : ProjectRepository.t R}.

(** C7.  When the repository's [CreateProject] fails, the use case
    returns that very error, and the repository has seen no call but
    that one: no tag is looked up and none is associated. *)
Theorem CreateProject_failure_is_returned_before_any_tag_call
    (project project' : Project.t) (tagNames : list string) (r r' : R)
    (log : list Recorder.Event) (e : error) :
  ProjectRepository.CreateProject project r = ((Some e, project'), r') ->
  ProjectUseCase.CreateProject project tagNames r = ((Some e, project'), r') /\
  ProjectUseCase.CreateProject project tagNames (r, log) =
    ((Some e, project'), (r', log ++ [Recorder.CreateProject project (Some e)])).
Proof.
  intros H. unfold ProjectUseCase.CreateProject, bind.
  cbn [ProjectRepository.CreateProject Recorder.repository].
  unfold Recorder.record. cbn [fst snd]. rewrite H. split; reflexivity.
Qed.

(** C3.  Over any repository: once the project itself is stored
    ([CreateProject]) or saved ([UpdateProject]), the use case returns
    no error whatever the tag calls return; every tag name is still
    looked up, in order, after a failure too; a tag is associated
    exactly when its lookup succeeded; and the calls after the project's
    are tag calls only. *)
Theorem tag_failures_do_not_fail_the_use_case
    (project : Project.t) (tagNames : list string) (r : R)
    (log : list Recorder.Event) :
  (forall project1 r1,
     ProjectRepository.CreateProject project r = ((None, project1), r1) ->
     exists project2 r2 trace,
       ProjectUseCase.CreateProject project tagNames r = ((None, project2), r2) /\
       ProjectUseCase.CreateProject project tagNames (r, log) =
         ((None, project2),
          (r2, log ++ Recorder.CreateProject project None :: trace)) /\
       Recorder.looked_up trace = tagNames /\
       Recorder.associated trace = Recorder.resolved trace /\
       forallb Recorder.is_tag_call trace = true) /\
  (forall e0 project0 r0 project1 r1,
     ProjectRepository.ClearProjectTags project r = ((e0, project0), r0) ->
     ProjectRepository.UpdateProject project0 r0 = ((None, project1), r1) ->
     exists project2 r2 trace,
       ProjectUseCase.UpdateProject project tagNames r = ((None, project2), r2) /\
       ProjectUseCase.UpdateProject project tagNames (r, log) =
         ((None, project2),
          (r2, log ++ Recorder.ClearProjectTags project e0 ::
                      Recorder.UpdateProject project0 None :: trace)) /\
       Recorder.looked_up trace = tagNames /\
       Recorder.associated trace = Recorder.resolved trace /\
       forallb Recorder.is_tag_call trace = true).
Proof.
  split.
  - intros project1 r1 H. eapply UseCase_CreateProject_observed. exact H.
  - intros e0 project0 r0 project1 r1 H0 H1.
    eapply UseCase_UpdateProject_observed; eassumption.
Qed.

(** C2, as amended.  The names the handlers pass on are the pieces of
    the form's [tags] field between its commas, as they stand: whenever
    the use case succeeds, the names looked up in the repository are
    exactly [strings.Split(tags, ",")], a list that is never empty;
    nothing is trimmed and no empty piece is left out. *)
Theorem tag_names_are_the_split_pieces
    (profileID : uuid.UUID) (project : Project.t) (form : Handler.PostForm)
    (r : R) (log : list Recorder.Event) :
  strings.Split (Handler.tags form) "," <> [] /\
  (fst (fst (Handler.CreateProject profileID form r)) = None ->
   exists trace,
     snd (snd (Handler.CreateProject profileID form (r, log))) = log ++ trace /\
     Recorder.looked_up trace = strings.Split (Handler.tags form) ",") /\
  (fst (fst (Handler.UpdateProject project form r)) = None ->
   exists trace,
     snd (snd (Handler.UpdateProject project form (r, log))) = log ++ trace /\
     Recorder.looked_up trace = strings.Split (Handler.tags form) ",").
Proof.
  split; [apply Split_not_nil|]. split.
  - unfold Handler.CreateProject. cbv zeta.
    set (project0 := Project.Build_t _ _ _ _ _ _ _ _ _ _).
    set (names := strings.Split _ _). intros H.
    destruct (ProjectRepository.CreateProject project0 r) as [[[e|] project1] r1] eqn:C.
    + exfalso. revert H. unfold ProjectUseCase.CreateProject, bind. rewrite C. discriminate.
    + destruct (UseCase_CreateProject_observed project0 names r log project1 r1 C)
        as (p2 & r2 & trace & _ & E & L & _).
      exists (Recorder.CreateProject project0 None :: trace). rewrite E. split; [reflexivity|].
      exact L.
  - unfold Handler.UpdateProject. cbv zeta.
    set (project0 := Project.Build_t _ _ _ _ _ _ _ _ _ _).
    set (names := strings.Split _ _). intros H.
    destruct (ProjectRepository.ClearProjectTags project0 r) as [[e0 project1] r1] eqn:C.
    destruct (ProjectRepository.UpdateProject project1 r1) as [[[e|] project2] r2] eqn:U.
    + exfalso. revert H. unfold ProjectUseCase.UpdateProject, bind. rewrite C, U. discriminate.
    + destruct (UseCase_UpdateProject_observed project0 names r log e0 project1 r1 project2 r2 C U)
        as (p3 & r3 & trace & _ & E & L & _).
      exists (Recorder.ClearProjectTags project0 e0 ::
              Recorder.UpdateProject project1 None :: trace).
      rewrite E. split; [reflexivity|]. exact L.
Qed.

End Claims.

Lemma CreateProject_failure_is_returned_before_any_tag_call_witness :
  ProjectRepository.CreateProject a_project (store gorm.empty [true]) =
    ((Some GormProjectRepository.unreachable, a_project), store gorm.empty []) /\
  ProjectUseCase.CreateProject a_project ["go"; "web"] (store gorm.empty [true]) =
    ((Some GormProjectRepository.unreachable, a_project), store gorm.empty []) /\
  ProjectUseCase.CreateProject a_project ["go"; "web"] (store gorm.empty [true], []) =
    ((Some GormProjectRepository.unreachable, a_project),
     (store gorm.empty [],
      [] ++ [Recorder.CreateProject a_project (Some GormProjectRepository.unreachable)])).
Proof.
  split; [reflexivity|].
  apply (CreateProject_failure_is_returned_before_any_tag_call
           a_project a_project ["go"; "web"] (store gorm.empty [true]) (store gorm.empty [])
           [] GormProjectRepository.unreachable).
  reflexivity.
Defined.

Lemma tag_failures_do_not_fail_the_use_case_witness :
  (exists project2 r2 trace,
     ProjectUseCase.CreateProject a_project ["go"; "web"; "api"]
       (store gorm.empty [false; true; false; true]) = ((None, project2), r2) /\
     ProjectUseCase.CreateProject a_project ["go"; "web"; "api"]
       (store gorm.empty [false; true; false; true], []) =
       ((None, project2),
        (r2, [] ++ Recorder.CreateProject a_project None :: trace)) /\
     Recorder.looked_up trace = ["go"; "web"; "api"] /\
     Recorder.associated trace = Recorder.resolved trace /\
     forallb Recorder.is_tag_call trace = true) /\
  (exists project2 r2 trace,
     ProjectUseCase.UpdateProject (Project.with_ID a_project 1%N) ["go"; "web"]
       (store tagged_go [true; false; true]) = ((None, project2), r2) /\
     ProjectUseCase.UpdateProject (Project.with_ID a_project 1%N) ["go"; "web"]
       (store tagged_go [true; false; true], []) =
       ((None, project2),
        (r2, [] ++ Recorder.ClearProjectTags (Project.with_ID a_project 1%N)
                     (Some GormProjectRepository.unreachable) ::
                   Recorder.UpdateProject (Project.with_ID a_project 1%N) None :: trace)) /\
     Recorder.looked_up trace = ["go"; "web"] /\
     Recorder.associated trace = Recorder.resolved trace /\
     forallb Recorder.is_tag_call trace = true).
Proof.
  split.
  - eapply (proj1 (tag_failures_do_not_fail_the_use_case a_project ["go"; "web"; "api"]
                     (store gorm.empty [false; true; false; true]) [])).
    vm_compute. reflexivity.
  - eapply (proj2 (tag_failures_do_not_fail_the_use_case (Project.with_ID a_project 1%N)
                     ["go"; "web"] (store tagged_go [true; false; true]) [])).
    + vm_compute. reflexivity.
    + vm_compute. reflexivity.
Defined.

Lemma tag_names_are_the_split_pieces_witness :
  strings.Split (Handler.tags (a_form " go,,")) "," <> [] /\
  (exists trace,
     snd (snd (Handler.CreateProject 7%N (a_form " go,,") (store tagged_go [], []))) =
       [] ++ trace /\
     Recorder.looked_up trace = strings.Split (Handler.tags (a_form " go,,")) ",") /\
  (exists trace,
     snd (snd (Handler.UpdateProject (Project.with_ID a_project 1%N) (a_form " go,,")
                 (store tagged_go [], []))) = [] ++ trace /\
     Recorder.looked_up trace = strings.Split (Handler.tags (a_form " go,,")) ",").
Proof.
  destruct (tag_names_are_the_split_pieces 7%N (Project.with_ID a_project 1%N)
              (a_form " go,,") (store tagged_go []) []) as (A & B & C).
  split; [exact A|].
  split; [apply B; vm_compute; reflexivity|apply C; vm_compute; reflexivity].
Defined.

(** C2, as stated, fails for the form value [ go,,]: the handler looks
    up [ go] with its leading blank and the empty name twice, where the
    specification has the one candidate [go]; the project ends up
    tagged [ go] and the empty name. *)
Lemma tag_names_are_not_trimmed :
  fst (fst (Handler.CreateProject 7%N (a_form " go,,") (store gorm.empty [], []))) = None /\
  Recorder.looked_up
    (snd (snd (Handler.CreateProject 7%N (a_form " go,,") (store gorm.empty [], [])))) =
    [" go"; ""; ""] /\
  spec_candidates " go,," = ["go"] /\
  Recorder.looked_up
    (snd (snd (Handler.CreateProject 7%N (a_form " go,,") (store gorm.empty [], [])))) <>
    spec_candidates " go,," /\
  map Tag.Name
    (gorm.Tags_of 1%N
       (GormProjectRepository.DB
          (fst (snd (Handler.CreateProject 7%N (a_form " go,,") (store gorm.empty [], []))))))
    = [" go"; ""].
Proof.
  split; [vm_compute; reflexivity|]. split; [vm_compute; reflexivity|].
  split; [vm_compute; reflexivity|]. split; [vm_compute; discriminate|].
  vm_compute. reflexivity.
Qed.

Lemma Inv_empty : Inv gorm.empty.
Proof. repeat split; constructor. Qed.

Lemma Keys_tagged_go : Keys tagged_go.
Proof.
  split; cbn; repeat constructor; cbn; intuition discriminate.
Qed.

Lemma Inv_tagged_go : Inv tagged_go.
Proof.
  split; [apply Keys_tagged_go|]. unfold unique_names. cbn. repeat constructor.
  cbn. intuition discriminate.
Qed.

(** C5, as amended.  On the GORM repository, from tables whose primary
    keys hold: [ClearProjectTags] deletes join rows of this project only
    and no tag, and when it succeeds the project is left with no tag;
    [UpdateProject] of the use case never deletes a tag; when the clear
    succeeded, the project's tags afterwards all carry names of the new
    list, and with the empty list no tag is created and the project has
    none.  When the clear fails, the use case goes on all the same and
    what was associated stays associated. *)
Theorem update_replaces_the_associations (project : Project.t) (names : list string)
    (r : GormProjectRepository.t) :
  Keys (GormProjectRepository.DB r) ->
  let d := GormProjectRepository.DB r in
  let pid := Project.ID project in
  let cleared := GormProjectRepository.DB (snd (ProjectRepository.ClearProjectTags project r)) in
  let d' := GormProjectRepository.DB (snd (ProjectUseCase.UpdateProject project names r)) in
  (* clearing removes join rows of this project only, and no tag *)
  (gorm.tags cleared = gorm.tags d /\
   (forall id, id <> pid -> forall t, In t (gorm.Tags_of id d) -> In t (gorm.Tags_of id cleared)) /\
   (GormProjectRepository.is_down r = false -> gorm.Tags_of pid cleared = [])) /\
  (* no tag is ever deleted *)
  incl (gorm.tags d) (gorm.tags d') /\
  (* after a successful clear the project has the tags of the new names only *)
  (GormProjectRepository.is_down r = false -> pid <> uuid.Nil ->
   forall t, In t (gorm.Tags_of pid d') -> In (Tag.Name t) names) /\
  (* the empty list creates no tag and, after a successful clear, associates none *)
  (names = [] ->
   gorm.tags d' = gorm.tags d /\
   (GormProjectRepository.is_down r = false -> gorm.Tags_of pid d' = [])) /\
  (* a failed clear is passed over: what was associated stays associated *)
  (GormProjectRepository.is_down r = true ->
   forall t, In t (gorm.Tags_of pid d) -> In t (gorm.Tags_of pid d')).
Proof.
  intros K. cbv zeta.
  pose proof (UseCase_UpdateProject_gorm project names r K) as U. cbv zeta in U.
  destruct U as (K' & M' & _ & Tg & R0 & S & Ei & Em).
  pose proof (ClearProjectTags_gorm project r K) as C. cbv zeta in C.
  destruct C as (K0 & T0 & E0 & G0 & Sub0 & Oth0 & Up0 & Dn0).
  cbn [ProjectRepository.ClearProjectTags GormProjectRepository.repository] in *.
  set (d := GormProjectRepository.DB r) in *.
  set (d0 := GormProjectRepository.DB (snd (GormProjectRepository.ClearProjectTags project r))) in *.
  set (d' := GormProjectRepository.DB (snd (ProjectUseCase.UpdateProject project names r))) in *.
  set (p' := snd (fst (ProjectUseCase.UpdateProject project names r))) in *.
  assert (Nil0 : forall l : list Tag.t, (forall t, ~ In t l) -> l = []).
  { intros [|t l] H; [reflexivity|]. exfalso. apply (H t). left. reflexivity. }
  split; [split; [assumption|split]|].
  - intros id Hid t Ht. apply Tags_of_In in Ht. destruct Ht as [Ht Hr].
    apply Tags_of_In. rewrite G0. split; [assumption|]. apply Oth0; [exact Hid|assumption].
  - intros Up. apply Nil0. intros t Ht. apply Tags_of_In in Ht. destruct Ht as [_ Hr].
    apply (Up0 Up _ Hr). reflexivity.
  - split; [assumption|]. split; [|split].
    + intros Up Hn t Ht. apply Tags_of_In in Ht. destruct Ht as [Ht Hr].
      destruct (S _ Hr) as [H|(t' & Ht' & E)].
      * exfalso. apply (Up0 Up _ H). reflexivity.
      * destruct (M' t' Ht') as [In' Nm'].
        inversion E as [[Ep Et]].
        assert (t = t') by (apply (NoDup_map_eq Tag.ID (gorm.tags d') t t' (proj1 K') Ht In' Et)).
        subst t'. assumption.
    + intros Hnil. destruct (Em Hnil) as [Et Er]. split; [assumption|].
      intros Up. apply Nil0. intros t Ht. apply Tags_of_In in Ht. destruct Ht as [_ Hr].
      apply (Up0 Up _ (Er _ Hr)). reflexivity.
    + intros Dn t Ht. apply Tags_of_In in Ht. destruct Ht as [Ht Hr].
      apply Tags_of_In. split; [apply Tg; assumption|]. apply R0.
      rewrite (Dn0 Dn). assumption.
Qed.


Lemma update_replaces_the_associations_witness :
  (gorm.tags (GormProjectRepository.DB
     (snd (ProjectRepository.ClearProjectTags (Project.with_ID a_project 1%N)
             (store tagged_go [])))) = gorm.tags tagged_go /\
   gorm.Tags_of 1%N (GormProjectRepository.DB
     (snd (ProjectRepository.ClearProjectTags (Project.with_ID a_project 1%N)
             (store tagged_go [])))) = []) /\
  incl (gorm.tags tagged_go)
    (gorm.tags (GormProjectRepository.DB
       (snd (ProjectUseCase.UpdateProject (Project.with_ID a_project 1%N) ["web"]
               (store tagged_go []))))) /\
  (forall t,
     In t (gorm.Tags_of 1%N (GormProjectRepository.DB
       (snd (ProjectUseCase.UpdateProject (Project.with_ID a_project 1%N) ["web"]
               (store tagged_go []))))) ->
     In (Tag.Name t) ["web"]).
Proof.
  destruct (update_replaces_the_associations (Project.with_ID a_project 1%N) ["web"]
              (store tagged_go []) Keys_tagged_go) as ((A & _ & B) & C & D & _).
  split; [split; [exact A|apply B; reflexivity]|].
  split; [exact C|]. apply D; [reflexivity|discriminate].
Defined.

(** C5, as stated, fails when clearing the associations fails: updating
    with the empty tag list succeeds, and the project keeps its tag.
    (Through the handler the tag list is never empty: an empty [tags]
    field is the one empty name, for which a tag is created and
    associated.) *)
Lemma update_keeps_the_associations_when_the_clear_fails :
  Keys tagged_go /\
  gorm.Tags_of 1%N tagged_go = [{| Tag.ID := 1%N; Tag.Name := "go" |}] /\
  fst (fst (ProjectRepository.ClearProjectTags (Project.with_ID a_project 1%N)
              (store tagged_go [true]))) = Some GormProjectRepository.unreachable /\
  fst (fst (ProjectUseCase.UpdateProject (Project.with_ID a_project 1%N) []
              (store tagged_go [true]))) = None /\
  gorm.Tags_of 1%N
    (GormProjectRepository.DB
       (snd (ProjectUseCase.UpdateProject (Project.with_ID a_project 1%N) []
               (store tagged_go [true])))) = [{| Tag.ID := 1%N; Tag.Name := "go" |}] /\
  gorm.Tags_of 1%N
    (GormProjectRepository.DB
       (snd (ProjectUseCase.UpdateProject (Project.with_ID a_project 1%N) []
               (store tagged_go [true])))) <> [] /\
  strings.Split "" "," = [""] /\
  fst (fst (Handler.UpdateProject (Project.with_ID a_project 1%N) (a_form "")
              (store tagged_go []))) = None /\
  gorm.Tags_of 1%N
    (GormProjectRepository.DB
       (snd (Handler.UpdateProject (Project.with_ID a_project 1%N) (a_form "")
               (store tagged_go [])))) = [{| Tag.ID := 2%N; Tag.Name := "" |}].
Proof.
  split; [apply Keys_tagged_go|]. split; [reflexivity|]. split; [reflexivity|].
  split; [reflexivity|]. split; [reflexivity|]. split; [vm_compute; discriminate|].
  split; [reflexivity|]. split; reflexivity.
Qed.

(** *** A pass that starts from no association *)

Lemma NoDup_map_on {A B : Type} (f : A -> B) (l : list A) :
  NoDup l -> (forall x y, In x l -> In y l -> f x = f y -> x = y) -> NoDup (map f l).
Proof.
  induction l as [|a l IH]; intros N Inj; cbn [map]; [constructor|].
  inversion N as [|? ? Hn N']; subst. constructor.
  - intros I. apply in_map_iff in I. destruct I as (b & E & Hb).
    assert (b = a) by (apply Inj; [right; assumption|left; reflexivity|assumption]).
    subst b. contradiction.
  - apply IH; [assumption|]. intros x y Hx Hy. apply Inj; right; assumption.
Qed.

(** With the primary keys in place, [Preload] lists no tag twice. *)
Lemma Tags_of_NoDup d id : Keys d -> NoDup (gorm.Tags_of id d).
Proof.
  intros [Ki Kr]. unfold gorm.Tags_of.
  assert (G : forall rows, NoDup rows ->
            NoDup (flat_map (fun row => if (fst row =? id)%N
                                        then filter (fun t => (Tag.ID t =? snd row)%N) (gorm.tags d)
                                        else []) rows) /\
            (forall t, In t (flat_map (fun row => if (fst row =? id)%N
                                        then filter (fun t => (Tag.ID t =? snd row)%N) (gorm.tags d)
                                        else []) rows) ->
                       In (id, Tag.ID t) rows)).
  { induction rows as [|[pid tid] rows IH]; intros N; cbn [flat_map].
    - split; [constructor|intros t []].
    - inversion N as [|? ? Hn N']; subst.
      destruct (IH N') as [IH1 IH2].
      cbn [fst snd]. destruct (N.eqb_spec pid id) as [->|Ne].
      + destruct (filter_by_ID (gorm.tags d) tid Ki) as [->|(t & -> & Ht & Et)].
        * cbn [app]. split; [assumption|]. intros t Ht. right. apply IH2. assumption.
        * cbn [app]. split.
          -- constructor; [|assumption]. intros I. apply IH2 in I. rewrite Et in I.
             contradiction.
          -- intros t' [<-|Ht']; [rewrite Et; left; reflexivity|]. right. apply IH2. assumption.
      + cbn [app]. split; [assumption|]. intros t Ht. right. apply IH2. assumption. }
  apply (G (gorm.project_tags d) Kr).
Qed.

Lemma first_names_NoDup d id :
  Keys d -> first_of_their_names id d -> NoDup (map Tag.Name (gorm.Tags_of id d)).
Proof.
  intros K F. apply NoDup_map_on; [apply Tags_of_NoDup; assumption|].
  intros x y Hx Hy E. apply F in Hx. apply F in Hy. rewrite E in Hx. congruence.
Qed.

Lemma First_by_name_other name rows t :
  Tag.Name t <> name ->
  gorm.First_by_name name (rows ++ [t]) = gorm.First_by_name name rows.
Proof.
  intros N. apply String.eqb_neq in N.
  induction rows as [|a rows IH]; cbn [app gorm.First_by_name].
  - rewrite N. reflexivity.
  - rewrite IH. reflexivity.
Qed.

Lemma First_by_name_created name rows t :
  Tag.Name t = name -> gorm.First_by_name name rows = None ->
  gorm.First_by_name name (rows ++ [t]) = Some t.
Proof.
  intros E. apply String.eqb_eq in E.
  induction rows as [|a rows IH]; cbn [app gorm.First_by_name]; intros H.
  - rewrite E. reflexivity.
  - destruct (gorm.First_by_name name rows) as [t'|].
    + destruct (_ && _); discriminate.
    + destruct (Tag.Name a =? name)%string; [discriminate|]. rewrite (IH eq_refl), andb_false_l.
      reflexivity.
Qed.


Lemma FindOrCreateTag_first name p id r :
  Keys (GormProjectRepository.DB r) ->
  slice_first p (GormProjectRepository.DB r) ->
  first_of_their_names id (GormProjectRepository.DB r) ->
  let res := GormProjectRepository.FindOrCreateTag name r in
  let d' := GormProjectRepository.DB (snd res) in
  Keys d' /\ slice_first p d' /\ first_of_their_names id d' /\
  gorm.projects d' = gorm.projects (GormProjectRepository.DB r) /\
  match fst res with
  | inl tag => In tag (gorm.tags d') /\
               gorm.First_by_name (Tag.Name tag) (gorm.tags d') = Some tag
  | inr _ => True
  end.
Proof.
  intros K S F. cbv zeta. unfold GormProjectRepository.FindOrCreateTag.
  destruct (GormProjectRepository.is_down r);
    cbn [fst snd GormProjectRepository.DB GormProjectRepository.next]; [auto|].
  set (d := GormProjectRepository.DB r) in *.
  pose proof (FirstOrCreate_spec name d K) as Sp.
  unfold gorm.FirstOrCreate in *.
  destruct (gorm.First_by_name name (gorm.tags d)) as [t|] eqn:E.
  - cbn [fst snd GormProjectRepository.DB]. destruct (First_by_name_Some _ _ _ E) as [I N].
    split; [assumption|]. split; [assumption|]. split; [assumption|].
    split; [reflexivity|]. split; [assumption|]. rewrite N. assumption.
  - destruct Sp as (K' & I & N & P & R & G & _).
    cbn [fst snd GormProjectRepository.DB] in *.
    set (t := {| Tag.ID := gorm.fresh (map Tag.ID (gorm.tags d)); Tag.Name := name |}) in *.
    assert (Old : forall x, gorm.First_by_name (Tag.Name x) (gorm.tags d) = Some x ->
                  gorm.First_by_name (Tag.Name x) (gorm.tags d ++ [t]) = Some x).
    { intros x Hx. rewrite First_by_name_other; [assumption|].
      cbn [t Tag.Name]. intros Eq. rewrite <- Eq, E in Hx. discriminate. }
    split; [assumption|]. split.
    { intros x Hx. destruct (S x Hx) as [Ix Fx]. cbn [gorm.tags].
      split; [apply in_app_iff; left; assumption|apply Old; assumption]. }
    split.
    { intros x Hx. apply Tags_of_In in Hx. cbn [gorm.tags gorm.project_tags] in Hx.
      destruct Hx as [Ix Jx]. apply in_app_iff in Ix. destruct Ix as [Ix|[<-|[]]].
      - apply Old. apply F. apply Tags_of_In. split; assumption.
      - apply First_by_name_created; [reflexivity|assumption]. }
    split; [reflexivity|]. split; [assumption|].
    cbn [gorm.tags]. apply First_by_name_created; [reflexivity|assumption].
Qed.

Lemma AssociateTagWithProject_first p tag r :
  Keys (GormProjectRepository.DB r) ->
  slice_first p (GormProjectRepository.DB r) ->
  first_of_their_names (Project.ID p) (GormProjectRepository.DB r) ->
  In tag (gorm.tags (GormProjectRepository.DB r)) ->
  gorm.First_by_name (Tag.Name tag) (gorm.tags (GormProjectRepository.DB r)) = Some tag ->
  let res := GormProjectRepository.AssociateTagWithProject p tag r in
  let p' := snd (fst res) in
  let d' := GormProjectRepository.DB (snd res) in
  Keys d' /\ slice_first p' d' /\ first_of_their_names (Project.ID p) d' /\
  Project.ID p' = Project.ID p /\
  gorm.projects d' = gorm.projects (GormProjectRepository.DB r).
Proof.
  intros K S F It Ft. cbv zeta. unfold GormProjectRepository.AssociateTagWithProject.
  set (p1 := gorm.Append_memory p tag). set (d := GormProjectRepository.DB r) in *.
  assert (S1 : slice_first p1 d).
  { intros t H. unfold p1, gorm.Append_memory in H. cbn in H.
    apply in_app_iff in H. destruct H as [H|[<-|[]]]; [apply S; assumption|auto]. }
  assert (E1 : Project.ID p1 = Project.ID p) by reflexivity.
  destruct (GormProjectRepository.is_down r);
    cbn [fst snd GormProjectRepository.DB GormProjectRepository.next]; [auto|].
  unfold gorm.Append_save. fold d.
  destruct (gorm.has_project (Project.ID p1) d);
    cbn [fst snd GormProjectRepository.DB GormProjectRepository.next]; [|auto].
  destruct K as (Ka & Kc).
  destruct (save_associations_spec p1 d (fun t H => proj1 (S1 t H)) Kc) as (S2 & S3 & S4 & S5).
  set (d2 := gorm.save_associations p1 d) in *.
  split; [unfold Keys; rewrite S3; auto|]. split; [unfold slice_first; rewrite S3; exact S1|].
  split; [|auto].
  intros x Hx. apply Tags_of_In in Hx. destruct Hx as [Ix Jx]. rewrite S3 in *.
  apply S5 in Jx. destruct Jx as [Jx|(t & Ht & Eq)].
  - apply F. apply Tags_of_In. split; assumption.
  - inversion Eq as [Eid]. destruct (S1 t Ht) as [I1 F1].
    assert (x = t) by (apply (NoDup_map_eq Tag.ID (gorm.tags d) x t Ka Ix I1 Eid)).
    subst x. assumption.
Qed.

Lemma range_tagNames_first names : forall p r,
  Keys (GormProjectRepository.DB r) ->
  slice_first p (GormProjectRepository.DB r) ->
  first_of_their_names (Project.ID p) (GormProjectRepository.DB r) ->
  let res := ProjectUseCase.range_tagNames p names r in
  let d' := GormProjectRepository.DB (snd res) in
  Keys d' /\ first_of_their_names (Project.ID p) d' /\ Project.ID (fst res) = Project.ID p.
Proof.
  induction names as [|name names IH]; intros p r K S F; cbv zeta.
  - cbn [ProjectUseCase.range_tagNames]. unfold ret. cbn [fst snd]. auto.
  - cbn [ProjectUseCase.range_tagNames]. unfold bind.
    cbn [ProjectRepository.FindOrCreateTag ProjectRepository.AssociateTagWithProject
         GormProjectRepository.repository].
    pose proof (FindOrCreateTag_first name p (Project.ID p) r K S F) as Fd. cbv zeta in Fd.
    destruct (GormProjectRepository.FindOrCreateTag name r) as [[tag|e] r1].
    + cbn [fst snd] in Fd. destruct Fd as (K1 & S1 & F1 & _ & T1 & N1).
      pose proof (AssociateTagWithProject_first p tag r1 K1 S1 F1 T1 N1) as A. cbv zeta in A.
      destruct (GormProjectRepository.AssociateTagWithProject p tag r1) as [[err p2] r2].
      cbn [fst snd] in A. destruct A as (K2 & S2 & F2 & E2 & _).
      rewrite <- E2 in F2. destruct (IH p2 r2 K2 S2 F2) as (K3 & F3 & E3).
      rewrite E2 in F3, E3. auto.
    + cbn [fst snd] in Fd. destruct Fd as (K1 & S1 & F1 & _).
      apply IH; assumption.
Qed.

Lemma Create_is_new p d p1 d1 :
  gorm.Create p d = (None, p1, d1) -> gorm.has_project (Project.ID p1) d = false.
Proof.
  unfold gorm.Create. cbv zeta.
  match goal with
  | |- context [gorm.has_project ?i d] => destruct (gorm.has_project i d) eqn:H
  end; intros E; inversion E; subst.
  exact H.
Qed.

Lemma no_rows_first id d :
  (forall row, In row (gorm.project_tags d) -> fst row <> id) -> first_of_their_names id d.
Proof.
  intros H t Ht. apply Tags_of_In in Ht. destruct Ht as [_ Ht].
  exfalso. apply (H _ Ht). reflexivity.
Qed.

(** [UpdateProject] of the use case for a project that has an
    identifier, once the associations are cleared. *)
Lemma UseCase_UpdateProject_first project names r :
  Keys (GormProjectRepository.DB r) ->
  Project.ID project <> uuid.Nil ->
  GormProjectRepository.is_down r = false ->
  let res := ProjectUseCase.UpdateProject project names r in
  NoDup (map Tag.Name
           (gorm.Tags_of (Project.ID project) (GormProjectRepository.DB (snd res)))).
Proof.
  intros K NotNil Up. cbv zeta.
  unfold ProjectUseCase.UpdateProject, bind, ret.
  cbn [ProjectRepository.ClearProjectTags ProjectRepository.UpdateProject
       GormProjectRepository.repository].
  pose proof (ClearProjectTags_gorm project r K) as C. cbv zeta in C.
  destruct (GormProjectRepository.ClearProjectTags project r) as [[e0 p0] r0].
  cbn [fst snd] in C. destruct C as (K0 & T0 & E0 & _ & _ & _ & Gone & _).
  specialize (Gone Up).
  assert (M0 : mem_ok names p0 (GormProjectRepository.DB r0)).
  { intros t Ht. rewrite T0 in Ht. destruct Ht. }
  pose proof (UpdateProject_gorm names p0 r0 K0 M0) as U. cbv zeta in U.
  destruct (GormProjectRepository.UpdateProject p0 r0) as [[e1 p1] r1].
  cbn [fst snd] in U. destruct U as (K1 & _ & T1 & _ & _ & Rows & E1).
  rewrite E0 in E1. specialize (E1 NotNil).
  assert (F1 : first_of_their_names (Project.ID p1) (GormProjectRepository.DB r1)).
  { apply no_rows_first. intros row Hr. destruct (Rows row Hr) as [Hr0|(t & Ht & _)].
    - rewrite E1. apply Gone. assumption.
    - rewrite T1, T0 in Ht. destruct Ht. }
  assert (S1 : slice_first p1 (GormProjectRepository.DB r1)).
  { intros t Ht. rewrite T1, T0 in Ht. destruct Ht. }
  destruct e1 as [e1|]; cbn [fst snd].
  - rewrite <- E1. apply first_names_NoDup; assumption.
  - destruct (range_tagNames_first names p1 r1 K1 S1 F1) as (K2 & F2 & _).
    destruct (ProjectUseCase.range_tagNames p1 names r1) as [p2 r2].
    cbn [fst snd] in *. rewrite <- E1. apply first_names_NoDup; assumption.
Qed.

(** [CreateProject] of the use case for a project that comes without
    tags, once the project is stored. *)
Lemma UseCase_CreateProject_first project names r :
  Keys (GormProjectRepository.DB r) -> Refs (GormProjectRepository.DB r) ->
  Project.Tags project = [] ->
  let res := ProjectUseCase.CreateProject project names r in
  fst (fst res) = None ->
  NoDup (map Tag.Name
           (gorm.Tags_of (Project.ID (snd (fst res))) (GormProjectRepository.DB (snd res)))).
Proof.
  intros K FK T. cbv zeta.
  unfold ProjectUseCase.CreateProject, bind, ret.
  cbn [ProjectRepository.CreateProject GormProjectRepository.repository].
  assert (M : mem_ok names project (GormProjectRepository.DB r)).
  { intros t Ht. rewrite T in Ht. destruct Ht. }
  pose proof (CreateProject_gorm names project r K M) as C. cbv zeta in C.
  assert (New : forall e p1 r1,
            GormProjectRepository.CreateProject project r = ((e, p1), r1) -> e = None ->
            gorm.has_project (Project.ID p1) (GormProjectRepository.DB r) = false).
  { unfold GormProjectRepository.CreateProject.
    destruct (GormProjectRepository.is_down r); [intros e p1 r1 H; inversion H; discriminate|].
    destruct (gorm.Create project (GormProjectRepository.DB r)) as [[e' p'] d'] eqn:Cr.
    intros e p1 r1 H E. inversion H; subst. apply (Create_is_new _ _ _ _ Cr). }
  destruct (GormProjectRepository.CreateProject project r) as [[e1 p1] r1].
  specialize (New e1 p1 r1 eq_refl).
  cbn [fst snd] in C. destruct C as (K1 & _ & T1 & _ & _ & Rows & _).
  destruct e1 as [e1|]; cbn [fst snd]; [discriminate|]. intros _.
  specialize (New eq_refl).
  assert (F1 : first_of_their_names (Project.ID p1) (GormProjectRepository.DB r1)).
  { apply no_rows_first. intros row Hr E. destruct (Rows row Hr) as [Hr0|(t & Ht & _)].
    - destruct (FK row Hr0) as [P _]. rewrite E, New in P. discriminate.
    - rewrite T1, T in Ht. destruct Ht. }
  assert (S1 : slice_first p1 (GormProjectRepository.DB r1)).
  { intros t Ht. rewrite T1, T in Ht. destruct Ht. }
  destruct (range_tagNames_first names p1 r1 K1 S1 F1) as (K2 & F2 & E2).
  destruct (ProjectUseCase.range_tagNames p1 names r1) as [p2 r2].
  cbn [fst snd] in *. rewrite E2. apply first_names_NoDup; assumption.
Qed.

(** C6, as amended.  On the GORM repository, with the primary keys of
    [tags] and [project_tags] in place, no project has two tags of one
    name after a pass in either of two cases.  First, when no two rows
    of [tags] share a name before it (which no index enforces): then it
    holds for every project after [CreateProject] of the use case (for
    a project that comes without tags, as the handler builds it), after
    [UpdateProject], whatever call fails, and after [UpdateProject] run
    a second time with the same names, and the names in [tags] stay
    unique.  Second, whatever names [tags] holds, when the pass starts
    from no association: for the project that [CreateProject] has
    stored (no join row refers to a project that is not there), and for
    the project with an identifier that [UpdateProject] is given, once
    or a second time, when its [ClearProjectTags] went through. *)
Theorem one_association_per_tag_name (project : Project.t) (names : list string)
    (r : GormProjectRepository.t) :
  Keys (GormProjectRepository.DB r) ->
  (unique_names (GormProjectRepository.DB r) ->
   (Project.Tags project = [] ->
    let d' := GormProjectRepository.DB (snd (ProjectUseCase.CreateProject project names r)) in
    Inv d' /\ forall id, NoDup (map Tag.Name (gorm.Tags_of id d'))) /\
   (let d' := GormProjectRepository.DB (snd (ProjectUseCase.UpdateProject project names r)) in
    Inv d' /\ forall id, NoDup (map Tag.Name (gorm.Tags_of id d'))) /\
   (let once := ProjectUseCase.UpdateProject project names r in
    let twice := ProjectUseCase.UpdateProject (snd (fst once)) names (snd once) in
    let d' := GormProjectRepository.DB (snd twice) in
    Inv d' /\ forall id, NoDup (map Tag.Name (gorm.Tags_of id d')))) /\
  (Refs (GormProjectRepository.DB r) -> Project.Tags project = [] ->
   let res := ProjectUseCase.CreateProject project names r in
   fst (fst res) = None ->
   NoDup (map Tag.Name
            (gorm.Tags_of (Project.ID (snd (fst res))) (GormProjectRepository.DB (snd res))))) /\
  (Project.ID project <> uuid.Nil ->
   (GormProjectRepository.is_down r = false ->
    let res := ProjectUseCase.UpdateProject project names r in
    NoDup (map Tag.Name
             (gorm.Tags_of (Project.ID project) (GormProjectRepository.DB (snd res))))) /\
   (let once := ProjectUseCase.UpdateProject project names r in
    let twice := ProjectUseCase.UpdateProject (snd (fst once)) names (snd once) in
    GormProjectRepository.is_down (snd once) = false ->
    NoDup (map Tag.Name
             (gorm.Tags_of (Project.ID project) (GormProjectRepository.DB (snd twice)))))).
Proof.
  intros K.
  assert (Upd : forall p s, Inv (GormProjectRepository.DB s) ->
            Inv (GormProjectRepository.DB (snd (ProjectUseCase.UpdateProject p names s)))).
  { intros p s [Ks Us].
    pose proof (UseCase_UpdateProject_gorm p names s Ks) as H. cbv zeta in H.
    destruct H as (K' & _ & U' & _). split; auto. }
  split; [|split].
  - intros U. split; [|split]; cbv zeta.
    + intros T.
      assert (M : mem_ok names project (GormProjectRepository.DB r)).
      { intros t Ht. rewrite T in Ht. destruct Ht. }
      pose proof (UseCase_CreateProject_gorm project names r K M) as H. cbv zeta in H.
      destruct H as (K' & _ & U' & _).
      assert (I' : Inv (GormProjectRepository.DB
                          (snd (ProjectUseCase.CreateProject project names r))))
        by (split; auto).
      split; [assumption|]. intros id. apply Tags_of_names_NoDup. assumption.
    + pose proof (Upd project r (conj K U)) as I'.
      split; [assumption|]. intros id. apply Tags_of_names_NoDup. assumption.
    + pose proof (Upd (snd (fst (ProjectUseCase.UpdateProject project names r)))
                      (snd (ProjectUseCase.UpdateProject project names r))
                      (Upd project r (conj K U))) as I'.
      split; [exact I'|]. intros id. apply Tags_of_names_NoDup. exact I'.
  - intros FK T. apply UseCase_CreateProject_first; assumption.
  - intros NotNil. split.
    + intros Up. apply UseCase_UpdateProject_first; assumption.
    + cbv zeta. intros Up.
      pose proof (UseCase_UpdateProject_gorm project names r K) as H. cbv zeta in H.
      destruct H as (K' & _ & _ & _ & _ & _ & E & _). specialize (E NotNil).
      rewrite <- E. apply UseCase_UpdateProject_first; [assumption| |assumption].
      rewrite E. assumption.
Qed.

Lemma one_association_per_tag_name_witness :
  Keys two_go_tags /\
  ~ unique_names two_go_tags /\
  Project.ID (Project.with_ID a_project 1%N) <> uuid.Nil /\
  GormProjectRepository.is_down (store two_go_tags []) = false /\
  NoDup (map Tag.Name
           (gorm.Tags_of 1%N
              (GormProjectRepository.DB
                 (snd (ProjectUseCase.UpdateProject (Project.with_ID a_project 1%N)
                         ["go"; "web"; "go"] (store two_go_tags [])))))) /\
  (Inv (GormProjectRepository.DB
          (snd (ProjectUseCase.CreateProject a_project ["go"; "web"; "go"]
                  (store tagged_go [])))) /\
   forall id, NoDup (map Tag.Name (gorm.Tags_of id (GormProjectRepository.DB
          (snd (ProjectUseCase.CreateProject a_project ["go"; "web"; "go"]
                  (store tagged_go []))))))).
Proof.
  assert (K : Keys two_go_tags).
  { split; cbn; repeat constructor; cbn; intuition discriminate. }
  assert (NotNil : Project.ID (Project.with_ID a_project 1%N) <> uuid.Nil) by discriminate.
  split; [exact K|]. split.
  { intros U. inversion U as [|? ? Hn _]; subst. apply Hn. left. reflexivity. }
  split; [exact NotNil|]. split; [reflexivity|]. split.
  - apply (proj1 (proj2 (proj2 (one_association_per_tag_name (Project.with_ID a_project 1%N)
                                  ["go"; "web"; "go"] (store two_go_tags []) K)) NotNil)).
    reflexivity.
  - apply (proj1 (proj1 (one_association_per_tag_name a_project ["go"; "web"; "go"]
                           (store tagged_go []) Keys_tagged_go)
                    (proj2 Inv_tagged_go))). reflexivity.
Defined.

(** C6, as stated, fails when [tags] holds two rows of one name and
    clearing the associations fails: the project was tagged with the
    second [go]; the pass for the one name [go] finds the first [go]
    and associates it, and the project has two tags named [go]. *)
Lemma a_failed_clear_leaves_two_tags_of_one_name :
  Keys two_go_tags /\ Refs two_go_tags /\
  map Tag.Name (gorm.Tags_of 1%N two_go_tags) = ["go"] /\
  fst (fst (ProjectUseCase.UpdateProject (Project.with_ID a_project 1%N) ["go"]
              (store two_go_tags [true]))) = None /\
  map Tag.Name
    (gorm.Tags_of 1%N
       (GormProjectRepository.DB
          (snd (ProjectUseCase.UpdateProject (Project.with_ID a_project 1%N) ["go"]
                  (store two_go_tags [true]))))) = ["go"; "go"] /\
  ~ NoDup (map Tag.Name
             (gorm.Tags_of 1%N
                (GormProjectRepository.DB
                   (snd (ProjectUseCase.UpdateProject (Project.with_ID a_project 1%N) ["go"]
                           (store two_go_tags [true])))))).
Proof.
  split; [split; cbn; repeat constructor; cbn; intuition discriminate|].
  split; [intros row [<-|[]]; split; reflexivity|].
  split; [reflexivity|]. split; [reflexivity|]. split; [reflexivity|].
  intros N. change (NoDup ["go"; "go"]) in N. inversion N as [|? ? Hn _]; subst.
  apply Hn. left. reflexivity.
Qed.

(** The same on a run: [go] listed twice is associated once. *)
Example one_association_for_a_repeated_name :
  map Tag.Name
    (gorm.Tags_of 1%N
       (GormProjectRepository.DB
          (snd (ProjectUseCase.CreateProject a_project ["go"; "web"; "go"]
                  (store gorm.empty []))))) = ["go"; "web"].
Proof. vm_compute. reflexivity. Qed.

(** C9, as amended.  Two requests ask [FindOrCreateTag] for a name no
    tag has yet.  Whatever the interleaving of their [SELECT]s and
    [INSERT]s, once both have returned either they hold the same tag,
    the only one of that name, or they hold two tags of different ids
    and the table has two rows of that name.  Both happen: one request
    after the other gives one tag; both [SELECT]s before the first
    [INSERT] give two. *)
Theorem concurrent_FindOrCreateTag_outcomes (name : string) (rows : list Tag.t) :
  Concurrent.named name rows = [] ->
  (* whatever the schedule, once both requests have returned *)
  (forall schedule ta tb rows',
     Concurrent.run schedule (Concurrent.Selecting name) (Concurrent.Selecting name) rows =
       (Concurrent.Returned ta, Concurrent.Returned tb, rows') ->
     (ta = tb /\ Concurrent.named name rows' = [ta]) \/
     (Tag.ID ta <> Tag.ID tb /\ List.length (Concurrent.named name rows') = 2%nat)) /\
  (* one request after the other: one tag *)
  (exists t,
     Concurrent.run [false; false; true; true]
       (Concurrent.Selecting name) (Concurrent.Selecting name) rows =
       (Concurrent.Returned t, Concurrent.Returned t, rows ++ [t]) /\
     Concurrent.named name (rows ++ [t]) = [t]) /\
  (* both [SELECT]s before the first [INSERT]: two tags of that name *)
  (exists ta tb,
     Concurrent.run [false; true; false; true]
       (Concurrent.Selecting name) (Concurrent.Selecting name) rows =
       (Concurrent.Returned ta, Concurrent.Returned tb, (rows ++ [ta]) ++ [tb]) /\
     Tag.ID ta <> Tag.ID tb /\
     Concurrent.named name ((rows ++ [ta]) ++ [tb]) = [ta; tb]).
Proof.
  intros New. split; [|split].
  - intros schedule ta tb rows' E.
    pose proof (race_run name schedule (Concurrent.Selecting name) (Concurrent.Selecting name)
                  rows (conj eq_refl (conj eq_refl New))) as H.
    rewrite E in H. cbn [race] in H.
    destruct H as [H|[Hn [H|H]]]; [left; exact H|right..]; rewrite H; auto.
  - set (t := {| Tag.ID := gorm.fresh (map Tag.ID rows); Tag.Name := name |}).
    assert (Nt : Concurrent.named name (rows ++ [t]) = [t]).
    { rewrite named_app, New. cbn [Tag.Name t]. rewrite String.eqb_refl. reflexivity. }
    exists t. split; [|exact Nt].
    cbn [Concurrent.run Concurrent.step]. rewrite (First_by_name_new _ _ New).
    cbn [Concurrent.run Concurrent.step]. fold t.
    rewrite (First_by_name_only _ _ _ Nt). reflexivity.
  - set (ta := {| Tag.ID := gorm.fresh (map Tag.ID rows); Tag.Name := name |}).
    set (tb := {| Tag.ID := gorm.fresh (map Tag.ID (rows ++ [ta])); Tag.Name := name |}).
    exists ta, tb. split; [|split].
    + cbn [Concurrent.run Concurrent.step]. rewrite (First_by_name_new _ _ New).
      cbn [Concurrent.run Concurrent.step]. rewrite (First_by_name_new _ _ New).
      reflexivity.
    + cbn [Tag.ID tb]. apply fresh_differs. apply in_app_iff. right. left. reflexivity.
    + rewrite !named_app, New. cbn [Tag.Name ta tb]. rewrite String.eqb_refl. reflexivity.
Qed.

Lemma concurrent_FindOrCreateTag_outcomes_witness :
  (forall schedule ta tb rows',
     Concurrent.run schedule (Concurrent.Selecting "go") (Concurrent.Selecting "go") [] =
       (Concurrent.Returned ta, Concurrent.Returned tb, rows') ->
     (ta = tb /\ Concurrent.named "go" rows' = [ta]) \/
     (Tag.ID ta <> Tag.ID tb /\ List.length (Concurrent.named "go" rows') = 2%nat)) /\
  (exists t,
     Concurrent.run [false; false; true; true]
       (Concurrent.Selecting "go") (Concurrent.Selecting "go") [] =
       (Concurrent.Returned t, Concurrent.Returned t, [] ++ [t]) /\
     Concurrent.named "go" ([] ++ [t]) = [t]) /\
  (exists ta tb,
     Concurrent.run [false; true; false; true]
       (Concurrent.Selecting "go") (Concurrent.Selecting "go") [] =
       (Concurrent.Returned ta, Concurrent.Returned tb, ([] ++ [ta]) ++ [tb]) /\
     Tag.ID ta <> Tag.ID tb /\
     Concurrent.named "go" (([] ++ [ta]) ++ [tb]) = [ta; tb]).
Proof.
  apply (concurrent_FindOrCreateTag_outcomes "go" []). reflexivity.
Defined.

(** C9, as stated, fails: with both [SELECT]s done before the first
    [INSERT], two tags named [go] are created. *)
Lemma concurrent_FindOrCreateTag_creates_two_tags :
  Concurrent.named "go" [] = [] /\
  Concurrent.run [false; true; false; true]
    (Concurrent.Selecting "go") (Concurrent.Selecting "go") [] =
    (Concurrent.Returned {| Tag.ID := 1%N; Tag.Name := "go" |},
     Concurrent.Returned {| Tag.ID := 2%N; Tag.Name := "go" |},
     [{| Tag.ID := 1%N; Tag.Name := "go" |}; {| Tag.ID := 2%N; Tag.Name := "go" |}]) /\
  List.length
    (Concurrent.named "go"
       [{| Tag.ID := 1%N; Tag.Name := "go" |}; {| Tag.ID := 2%N; Tag.Name := "go" |}])
    <> 1%nat.
Proof. split; [reflexivity|]. split; [reflexivity|]. cbn. discriminate. Qed.

(* ================================================================== *)
(** * Part IV: more of the program                                     *)
(* ================================================================== *)

(** ** More about [Paginate] *)

(** [Paginate] reads its request through [requested_page] only. *)
Lemma Paginate_requested_page c c' totalItems itemsPerPage :
  requested_page c = requested_page c' ->
  Paginate c totalItems itemsPerPage = Paginate c' totalItems itemsPerPage.
Proof. intros E. unfold Paginate. rewrite E. reflexivity. Qed.

(** Any page below 1 is served as page 1. *)
Lemma Paginate_below_one c totalItems itemsPerPage :
  requested_page c <= 1 ->
  Paginate c totalItems itemsPerPage = Paginate (ctx "1") totalItems itemsPerPage.
Proof.
  intros H. unfold Paginate. change (requested_page (ctx "1")) with 1.
  cbv zeta. destruct (Z.ltb_spec (requested_page c) 1) as [L|L].
  - reflexivity.
  - replace (requested_page c) with 1 by lia. reflexivity.
Qed.

Lemma ParseUint_loop_syntax s : forall n,
  snd (strconv.ParseUint_loop s n) = Some strconv.ErrSyntax ->
  fst (strconv.ParseUint_loop s n) = 0.
Proof.
  induction s as [|c s IH]; intros n; cbn [strconv.ParseUint_loop]; [discriminate|].
  cbv zeta.
  repeat match goal with |- context [if ?b then _ else _] => destruct b end;
    cbn [fst snd]; try discriminate; try reflexivity.
  apply IH.
Qed.

(** A string that is no decimal integer parses as 0. *)
Lemma Atoi_syntax s :
  snd (strconv.Atoi s) = Some strconv.ErrSyntax -> fst (strconv.Atoi s) = 0.
Proof.
  unfold strconv.Atoi. destruct s as [|c rest]; [reflexivity|]. cbv zeta.
  destruct (strconv.ParseUint _) as [un [[]|]]; [reflexivity| |];
    repeat match goal with |- context [if ?b then _ else _] => destruct b end;
    cbn [fst snd]; intros H; try discriminate H.
Qed.

(** X1.  A request without [page] parameter, one whose [page] makes
    [strconv.Atoi] report a syntax error (the empty string, letters,
    ...), and one that asks for a page below 1 are all answered exactly
    as page 1 is.  (A [page] that [Atoi] rejects as out of range is not
    among them: it is read as the largest or the smallest [int], see
    [Paginate_page_out_of_range].) *)
Theorem Paginate_default_page c totalItems itemsPerPage :
  gin.lookup "page" (gin.Query c) = None \/
  (exists v, gin.lookup "page" (gin.Query c) = Some v /\
             snd (strconv.Atoi v) = Some strconv.ErrSyntax) \/
  requested_page c < 1 ->
  Paginate c totalItems itemsPerPage = Paginate (ctx "1") totalItems itemsPerPage.
Proof.
  intros H. apply Paginate_below_one.
  unfold requested_page, gin.DefaultQuery in *.
  destruct H as [->|[(v & -> & S)|H]].
  - cbn. lia.
  - rewrite (Atoi_syntax v S). lia.
  - lia.
Qed.

Lemma Paginate_default_page_witness :
  Paginate {| gin.Query := [("search_query", "go"); ("page", "two")] |} 10 3 =
  Paginate (ctx "1") 10 3.
Proof.
  apply Paginate_default_page. right. left. exists "two". split; reflexivity.
Defined.

(** Twenty nines and a letter are no decimal integer either, but
    [Atoi] stops at the twentieth nine with a range error and the
    largest [int]: the request is served as the last page. *)
Example Paginate_page_out_of_range :
  strconv.Atoi "99999999999999999999x" = (Int.max_int, Some strconv.ErrRange) /\
  exists pd,
    Paginate (ctx "99999999999999999999x") 10 3 = Some pd /\
    CurrentPageNumber pd = 4 /\ CustomRange pd = [2; 3; 4] /\
    Paginate (ctx "99999999999999999999x") 10 3 <> Paginate (ctx "1") 10 3.
Proof.
  split; [vm_compute; reflexivity|]. eexists.
  split; [vm_compute; reflexivity|]. split; [reflexivity|]. split; [reflexivity|].
  vm_compute. discriminate.
Qed.

(** The window of the specification around a page that exists. *)
Lemma spec_window_shape page tp :
  1 <= page <= tp ->
  exists lo hi,
    spec_window page tp = interval lo hi /\
    1 <= lo /\ lo <= page <= hi /\ hi <= tp /\ hi - lo + 1 <= 5 /\
    (5 <= tp -> hi - lo + 1 = 5) /\
    (tp <= 3 -> lo = 1 /\ hi = tp).
Proof.
  intros H. unfold spec_window. cbv zeta. rewrite interval_length.
  destruct (Z.ltb_spec (Z.max 0 (Z.min (page + 2) tp - Z.max (page - 2) 1 + 1)) 5) as [L|L];
    destruct (Z.leb_spec 5 tp) as [T|T]; cbn [andb].
  - destruct (Z.eqb_spec (Z.max (page - 2) 1) 1) as [E|E].
    + exists (Z.max (page - 2) 1), 5. split; [reflexivity|]. repeat split; intros; lia.
    + destruct (Z.eqb_spec (Z.min (page + 2) tp) tp) as [E'|E'].
      * exists (tp - 4), (Z.min (page + 2) tp). split; [reflexivity|]. repeat split; intros; lia.
      * exfalso. lia.
  - exists (Z.max (page - 2) 1), (Z.min (page + 2) tp). split; [reflexivity|]. repeat split; intros; lia.
  - exists (Z.max (page - 2) 1), (Z.min (page + 2) tp). split; [reflexivity|]. repeat split; intros; lia.
  - exists (Z.max (page - 2) 1), (Z.min (page + 2) tp). split; [reflexivity|]. repeat split; intros; lia.
Qed.

Lemma interval_In lo hi x : In x (interval lo hi) <-> lo <= x <= hi.
Proof.
  unfold interval. rewrite in_map_iff. split.
  - intros (k & <- & H). apply in_seq in H. lia.
  - intros H. exists (Z.to_nat (x - lo)). split; [lia|]. apply in_seq. lia.
Qed.

(** X2.  Whenever there is at least one page, the current page is one
    of the entries of the window [CustomRange], which has at most five
    entries; with five pages or more it has exactly five; with at most
    three pages it lists them all; with no page it is empty. *)
Theorem Paginate_window_size c totalItems itemsPerPage :
  exists pd,
    Paginate c totalItems itemsPerPage = Some pd /\
    (1 <= TotalPages pd -> In (CurrentPageNumber pd) (CustomRange pd)) /\
    (List.length (CustomRange pd) <= 5)%nat /\
    (5 <= TotalPages pd -> List.length (CustomRange pd) = 5%nat) /\
    (1 <= TotalPages pd <= 3 -> CustomRange pd = interval 1 (TotalPages pd)) /\
    (TotalPages pd <= 0 -> CustomRange pd = []).
Proof.
  destruct (Paginate_run c totalItems itemsPerPage)
    as (page & lo & hi & E & P1 & P2 & P3 & L & H & W).
  eexists. split; [exact E|]. cbn [CustomRange TotalPages CurrentPageNumber].
  set (tp := totalPages_of totalItems itemsPerPage) in *.
  assert (N : tp <= 0 -> interval lo hi = []) by (intros T; apply interval_nil; lia).
  destruct (Z_le_gt_dec tp 0) as [T0|T0].
  - rewrite (N T0). cbn [List.length]. repeat split; intros; try lia.
  - specialize (P2 ltac:(lia)).
    destruct (spec_window_shape page tp ltac:(lia)) as (lo' & hi' & S & B).
    rewrite W, S.
    pose proof (interval_length lo' hi') as Len.
    split; [intros _; apply interval_In; lia|].
    split; [lia|]. split; [intros T; lia|]. split; [|intros T; lia].
    intros T. destruct B as (_ & _ & _ & _ & _ & B). destruct (B ltac:(lia)) as [-> ->].
    reflexivity.
Qed.

(** X3.  The page served.  When there is at least one page: a
    requested page between 1 and [TotalPages] is served as asked, and
    one beyond [TotalPages] is served as the last page, with no next
    page.  When there is no page ([TotalPages <= 0]) the requested page
    is served as asked if it is at least 1, however large, and has no
    next page.  A requested page below 1 is always served as page 1,
    and on page 1 there is no previous page. *)
Theorem Paginate_page_served c totalItems itemsPerPage :
  exists pd,
    Paginate c totalItems itemsPerPage = Some pd /\
    (1 <= requested_page c <= TotalPages pd ->
       CurrentPageNumber pd = requested_page c) /\
    (1 <= TotalPages pd < requested_page c ->
       CurrentPageNumber pd = TotalPages pd /\ HasNext pd = false) /\
    (CurrentPageNumber pd = 1 -> HasPrevious pd = false) /\
    (1 <= TotalPages pd -> CurrentPageNumber pd = TotalPages pd -> HasNext pd = false) /\
    (TotalPages pd <= 0 -> 1 <= requested_page c ->
       CurrentPageNumber pd = requested_page c /\ HasNext pd = false) /\
    (requested_page c < 1 -> CurrentPageNumber pd = 1).
Proof.
  destruct (Paginate_run c totalItems itemsPerPage)
    as (page & lo & hi & E & P1 & P2 & P3 & _).
  eexists. split; [exact E|].
  cbn [CustomRange TotalPages CurrentPageNumber HasNext HasPrevious].
  set (tp := totalPages_of totalItems itemsPerPage) in *.
  repeat split.
  - intros T. specialize (P2 ltac:(lia)). lia.
  - specialize (P2 ltac:(lia)). lia.
  - specialize (P2 ltac:(lia)). apply Z.ltb_ge. lia.
  - intros ->. reflexivity.
  - intros T ->. apply Z.ltb_irrefl.
  - specialize (P3 ltac:(lia)). lia.
  - specialize (P3 ltac:(lia)). apply Z.ltb_ge. lia.
  - intros B. destruct (Z_le_gt_dec tp 0) as [T|T].
    + specialize (P3 T). lia.
    + specialize (P2 ltac:(lia)). lia.
Qed.

(** X4.  The links shown lead to pages that exist: when [HasNext] is
    set, [NextPageNumber] is the page after the current one and at most
    [TotalPages]; when [HasPrevious] is set, [PreviousPageNumber] is the
    page before the current one and at least 1 (and at most
    [TotalPages], if there is any page).  With exactly one page neither
    is set. *)
Theorem Paginate_links c totalItems itemsPerPage :
  exists pd,
    Paginate c totalItems itemsPerPage = Some pd /\
    (HasNext pd = true ->
       NextPageNumber pd = CurrentPageNumber pd + 1 /\
       1 < NextPageNumber pd <= TotalPages pd) /\
    (HasPrevious pd = true ->
       PreviousPageNumber pd = CurrentPageNumber pd - 1 /\
       1 <= PreviousPageNumber pd /\
       (1 <= TotalPages pd -> PreviousPageNumber pd < TotalPages pd)) /\
    (TotalPages pd = 1 -> HasNext pd = false /\ HasPrevious pd = false /\
                          HasOtherPages pd = false).
Proof.
  destruct (Paginate_run c totalItems itemsPerPage)
    as (page & lo & hi & E & P1 & P2 & P3 & _).
  pose proof (totalPages_of_range totalItems itemsPerPage) as R.
  eexists. split; [exact E|].
  cbn [TotalPages CurrentPageNumber HasNext HasPrevious HasOtherPages
       NextPageNumber PreviousPageNumber].
  set (tp := totalPages_of totalItems itemsPerPage) in *.
  split; [|split].
  - intros N. apply Z.ltb_lt in N.
    assert (A : Int.add page 1 = page + 1).
    { unfold Int.add. apply wrap_id. unfold Int.in_range, Int.min_int, Int.max_int in *. lia. }
    rewrite A. lia.
  - intros N. apply Z.ltb_lt in N. split; [reflexivity|]. split; [lia|].
    intros T. specialize (P2 T). lia.
  - intros T. rewrite T in *. specialize (P2 ltac:(lia)).
    replace page with 1 by lia. repeat split.
Qed.

(** ** The template helpers *)

Lemma string_length_app (a b : string) :
  String.length (a ++ b)%string = (String.length a + String.length b)%nat.
Proof. induction a as [|c a IH]; cbn; [reflexivity|]. rewrite IH. reflexivity. Qed.

Lemma string_app_assoc (a b c : string) : ((a ++ b) ++ c = a ++ (b ++ c))%string.
Proof. induction a as [|x a IH]; cbn; [reflexivity|]. rewrite IH. reflexivity. Qed.

Lemma list_ascii_app (a b : string) :
  list_ascii_of_string (a ++ b)%string = list_ascii_of_string a ++ list_ascii_of_string b.
Proof. induction a as [|x a IH]; cbn; [reflexivity|]. rewrite IH. reflexivity. Qed.

Lemma substring_0_length n : forall s,
  (n <= String.length s)%nat -> String.length (substring 0 n s) = n.
Proof.
  induction n as [|n IH]; intros s H.
  - destruct s; reflexivity.
  - destruct s as [|c s]; cbn in *; [lia|]. rewrite IH by lia. reflexivity.
Qed.

Lemma substring_0_app n : forall s t,
  (n <= String.length s)%nat -> substring 0 n (s ++ t)%string = substring 0 n s.
Proof.
  induction n as [|n IH]; intros s t H.
  - destruct s; destruct t; reflexivity.
  - destruct s as [|c s]; cbn in *; [lia|]. rewrite IH by lia. reflexivity.
Qed.

Lemma substring_0_idem n : forall s,
  substring 0 n (substring 0 n s) = substring 0 n s.
Proof.
  induction n as [|n IH]; intros s.
  - destruct s; reflexivity.
  - destruct s as [|c s]; cbn; [reflexivity|]. rewrite IH. reflexivity.
Qed.

(** X5.  [SliceString(s, length)] for [length >= 0]: a string of at
    most [length] bytes comes back unchanged; a longer one is cut after
    [length] bytes and gets three dots, so the result has [length + 3]
    bytes (which is longer than [s] itself when [s] exceeds [length] by
    one or two bytes) and its first [length] bytes are those of [s].
    For a negative [length] the call panics. *)
Theorem SliceString_spec s length :
  (0 <= length ->
     exists r,
       TemplateFuncs.SliceString s length = Some r /\
       (Z.of_nat (String.length s) <= length -> r = s) /\
       (length < Z.of_nat (String.length s) ->
          r = (substring 0 (Z.to_nat length) s ++ "...")%string /\
          Z.of_nat (String.length r) = length + 3 /\
          substring 0 (Z.to_nat length) r = substring 0 (Z.to_nat length) s /\
          (Z.of_nat (String.length s) < length + 3 ->
             (String.length s < String.length r)%nat))) /\
  (length < 0 -> TemplateFuncs.SliceString s length = None).
Proof.
  unfold TemplateFuncs.SliceString. split.
  - intros H. destruct (Z.leb_spec (Z.of_nat (String.length s)) length) as [L|L].
    + exists s. split; [reflexivity|]. split; [reflexivity|lia].
    + destruct (Z.ltb_spec length 0); [lia|].
      eexists. split; [reflexivity|]. split; [lia|]. intros _.
      assert (B : (Z.to_nat length <= String.length s)%nat) by lia.
      split; [reflexivity|].
      rewrite string_length_app, substring_0_length by exact B. cbn [String.length].
      split; [lia|]. split; [|lia].
      rewrite substring_0_app by (rewrite substring_0_length by exact B; lia).
      apply substring_0_idem.
  - intros H. destruct (Z.leb_spec (Z.of_nat (String.length s)) length); [lia|].
    destruct (Z.ltb_spec length 0); [reflexivity|lia].
Qed.

Lemma ReplaceAll_app a b old new :
  TemplateFuncs.ReplaceAll (a ++ b)%string old new =
  (TemplateFuncs.ReplaceAll a old new ++ TemplateFuncs.ReplaceAll b old new)%string.
Proof.
  induction a as [|c a IH]; cbn; [reflexivity|].
  destruct (Ascii.eqb c old); rewrite IH; [|reflexivity].
  symmetry. apply string_app_assoc.
Qed.

(** X6.  [Linebreaksbr]: no line feed is left in the result; every
    line feed has become the four bytes [<br>] and every other byte
    stands as it stood, so a text without line feed comes back
    unchanged, markup included; the result is three bytes longer for
    each line feed; and the function goes through concatenation. *)
Theorem Linebreaksbr_spec text :
  ~ In TemplateFuncs.LF (list_ascii_of_string (TemplateFuncs.Linebreaksbr text)) /\
  String.length (TemplateFuncs.Linebreaksbr text) =
    (String.length text +
     3 * count_occ ascii_dec (list_ascii_of_string text) TemplateFuncs.LF)%nat /\
  (~ In TemplateFuncs.LF (list_ascii_of_string text) ->
     TemplateFuncs.Linebreaksbr text = text) /\
  (forall more,
     TemplateFuncs.Linebreaksbr (text ++ more)%string =
     (TemplateFuncs.Linebreaksbr text ++ TemplateFuncs.Linebreaksbr more)%string).
Proof.
  unfold TemplateFuncs.Linebreaksbr. split; [|split; [|split]].
  - induction text as [|c text IH]; cbn [TemplateFuncs.ReplaceAll]; [cbn; tauto|].
    destruct (Ascii.eqb_spec c TemplateFuncs.LF) as [->|N].
    + rewrite list_ascii_app, in_app_iff. intros [H|H]; [|tauto].
      vm_compute in H. repeat destruct H as [H|H]; try discriminate H. exact H.
    + cbn [list_ascii_of_string In]. intros [E|H]; [congruence|tauto].
  - induction text as [|c text IH]; cbn [TemplateFuncs.ReplaceAll list_ascii_of_string count_occ String.length];
      [reflexivity|].
    destruct (Ascii.eqb_spec c TemplateFuncs.LF) as [->|N].
    + destruct (ascii_dec TemplateFuncs.LF TemplateFuncs.LF) as [_|C]; [|congruence].
      rewrite string_length_app, IH. cbn [String.length]. lia.
    + destruct (ascii_dec c TemplateFuncs.LF) as [C|_]; [congruence|].
      cbn [String.length]. rewrite IH. lia.
  - induction text as [|c text IH];
      cbn [TemplateFuncs.ReplaceAll list_ascii_of_string In]; [reflexivity|].
    intros H. destruct (Ascii.eqb_spec c TemplateFuncs.LF) as [->|N]; [tauto|].
    rewrite IH by tauto. reflexivity.
  - intros more. apply ReplaceAll_app.
Qed.

(** ** The profile page *)

Lemma range_Skills_filter skills : forall top other,
  UserProfilePage.range_Skills skills top other =
  (top ++ filter (fun s => negb (Skill.Description s =? "")%string) skills,
   other ++ filter (fun s => (Skill.Description s =? "")%string) skills).
Proof.
  induction skills as [|s skills IH]; intros top other; cbn [UserProfilePage.range_Skills filter].
  - rewrite !app_nil_r. reflexivity.
  - destruct (Skill.Description s =? "")%string; cbn [negb]; rewrite IH, <- app_assoc; reflexivity.
Qed.

Lemma filter_partition_Permutation {A : Type} (f : A -> bool) (l : list A) :
  Permutation (filter (fun x => negb (f x)) l ++ filter f l) l.
Proof.
  induction l as [|a l IH]; cbn; [constructor|].
  destruct (f a); cbn [negb].
  - apply Permutation_sym, Permutation_cons_app, Permutation_sym, IH.
  - constructor. exact IH.
Qed.

(** X7.  The profile page sorts every skill of the profile into
    exactly one of its two lists, keeping the order of the profile:
    [TopSkills] are the skills with a description, [OtherSkills] those
    without, and together they are the skills of the profile, none
    lost and none doubled. *)
Theorem RenderUserProfilePage_skills profile currentUserID :
  let data := UserProfilePage.RenderUserProfilePage profile currentUserID in
  UserProfilePage.TopSkills data =
    filter (fun s => negb (Skill.Description s =? "")%string) (Profile.Skills profile) /\
  UserProfilePage.OtherSkills data =
    filter (fun s => (Skill.Description s =? "")%string) (Profile.Skills profile) /\
  Permutation (UserProfilePage.TopSkills data ++ UserProfilePage.OtherSkills data)
    (Profile.Skills profile) /\
  (forall s, In s (UserProfilePage.TopSkills data) ->
             ~ In s (UserProfilePage.OtherSkills data)).
Proof.
  cbv zeta. unfold UserProfilePage.RenderUserProfilePage.
  rewrite range_Skills_filter. cbn [app UserProfilePage.TopSkills UserProfilePage.OtherSkills].
  split; [reflexivity|]. split; [reflexivity|]. split.
  - apply filter_partition_Permutation.
  - intros s H1 H2. apply filter_In in H1, H2. destruct H1 as [_ H1], H2 as [_ H2].
    rewrite H2 in H1. discriminate.
Qed.

(** ** More about the tags of a project *)

Lemma has_project_In id d :
  gorm.has_project id d = true <-> exists p, In p (gorm.projects d) /\ Project.ID p = id.
Proof.
  unfold gorm.has_project. rewrite existsb_exists. split.
  - intros (p & H & E). apply N.eqb_eq in E. eauto.
  - intros (p & H & E). exists p. split; [assumption|]. apply N.eqb_eq. assumption.
Qed.

(** An association that returned no error left its join row. *)
Lemma AssociateTagWithProject_row all p tag r p1 r1 :
  Keys (GormProjectRepository.DB r) -> mem_ok all p (GormProjectRepository.DB r) ->
  In tag (gorm.tags (GormProjectRepository.DB r)) ->
  GormProjectRepository.AssociateTagWithProject p tag r = ((None, p1), r1) ->
  In (Project.ID p, Tag.ID tag) (gorm.project_tags (GormProjectRepository.DB r1)).
Proof.
  intros [_ Kr] M T. unfold GormProjectRepository.AssociateTagWithProject.
  destruct (GormProjectRepository.is_down r); [discriminate|].
  unfold gorm.Append_save.
  destruct (gorm.has_project (Project.ID (gorm.Append_memory p tag))
              (GormProjectRepository.DB r)); [|discriminate].
  intros H. inversion H. subst p1 r1.
  cbn [GormProjectRepository.DB GormProjectRepository.next].
  assert (Mt : forall t, In t (Project.Tags (gorm.Append_memory p tag)) ->
                         In t (gorm.tags (GormProjectRepository.DB r))).
  { intros t Ht. cbn in Ht. apply in_app_iff in Ht.
    destruct Ht as [Ht|[<-|[]]]; [apply M; assumption|assumption]. }
  destruct (save_associations_spec (gorm.Append_memory p tag)
              (GormProjectRepository.DB r) Mt Kr) as (_ & _ & _ & S4).
  apply S4. right. exists tag. split; [|reflexivity].
  cbn. apply in_app_iff. right. left. reflexivity.
Qed.

(** The loop over the recorded GORM repository: if no call of the loop
    returned an error, every name of the list ends up associated. *)
Lemma range_tagNames_went_through all names :
  (forall n, In n names -> In n all) ->
  forall p r log,
  Keys (GormProjectRepository.DB r) -> mem_ok all p (GormProjectRepository.DB r) ->
  let res := ProjectUseCase.range_tagNames p names r in
  let d' := GormProjectRepository.DB (snd res) in
  exists trace,
    ProjectUseCase.range_tagNames p names (r, log) = (fst res, (snd res, log ++ trace)) /\
    (forallb went_through trace = true ->
     forall n, In n names ->
       exists t, Tag.Name t = n /\ In t (gorm.tags d') /\
                 In (Project.ID p, Tag.ID t) (gorm.project_tags d')).
Proof.
  induction names as [|name names IH]; intros Hall p r log K M; cbv zeta.
  - exists []. cbn. rewrite app_nil_r. split; [reflexivity|]. intros _ n [].
  - cbn [ProjectUseCase.range_tagNames]. unfold bind.
    cbn [ProjectRepository.FindOrCreateTag ProjectRepository.AssociateTagWithProject
         GormProjectRepository.repository Recorder.repository].
    unfold Recorder.record. cbn [fst snd].
    assert (Hall' : forall n, In n names -> In n all) by (intros; apply Hall; right; assumption).
    pose proof (FindOrCreateTag_gorm all name p r (Hall name (or_introl eq_refl)) K M) as F.
    cbv zeta in F.
    destruct (GormProjectRepository.FindOrCreateTag name r) as [[tag|e] r1] eqn:EF;
      cbn [fst snd] in F; destruct F as (K1 & M1 & G1 & _ & T1).
    + destruct T1 as [T1 N1]. cbn [fst snd].
      pose proof (AssociateTagWithProject_gorm all p tag r1 K1 M1 T1
                    ltac:(rewrite N1; apply Hall; left; reflexivity)) as A.
      cbv zeta in A.
      pose proof (AssociateTagWithProject_row all p tag r1) as Row.
      destruct (GormProjectRepository.AssociateTagWithProject p tag r1)
        as [[err p1] r2] eqn:EA.
      cbn [fst snd] in A. destruct A as (K2 & M2 & G2 & _).
      destruct (IH Hall' p1 r2
                  ((log ++ [Recorder.FindOrCreateTag name (inl tag)]) ++
                   [Recorder.AssociateTagWithProject p tag err]) K2 M2)
        as (trace & E & All).
      pose proof (range_tagNames_gorm all names Hall' p1 r2 K2 M2) as G3.
      cbv zeta in G3. destruct G3 as (_ & _ & G3).
      exists (Recorder.FindOrCreateTag name (inl tag) ::
              Recorder.AssociateTagWithProject p tag err :: trace).
      cbn [fst snd]. rewrite E. rewrite <- !app_assoc. cbn [app].
      split; [reflexivity|].
      cbn [forallb went_through]. destruct err as [e|]; [discriminate|].
      cbn [andb]. intros W.
      assert (Ei : Project.ID p1 = Project.ID p) by (destruct G2 as [Ei _]; exact Ei).
      intros n [<-|Hn].
      * exists tag. split; [exact N1|].
        destruct G3 as (_ & _ & It & _ & Ir & _).
        destruct G2 as (_ & _ & It2 & _).
        split; [apply It, It2, T1|].
        apply Ir. apply (Row p1 r2 K1 M1 T1 eq_refl).
      * destruct (All W n Hn) as (t & Nt & It & Ir). rewrite Ei in Ir. eauto.
    + destruct (IH Hall' p r1 (log ++ [Recorder.FindOrCreateTag name (inr e)]) K1 M1)
        as (trace & E & _).
      exists (Recorder.FindOrCreateTag name (inr e) :: trace).
      rewrite E. rewrite <- !app_assoc. cbn [app].
      split; [reflexivity|]. cbn [forallb went_through andb]. discriminate.
Qed.

(** X8.  Replace.  [UpdateProject] of the use case over the GORM
    repository, every call written down: if none of the calls returned
    an error (the clearing, whose error the use case drops, the saving,
    and for every name the lookup and the association), then the use
    case returns no error and afterwards the names of the project's tags
    are exactly the names of the list (each once, see C6): every listed
    name is there, and nothing else.  The names are taken within the 255
    bytes of the column [tags.name], a limit that the tables here do not
    keep. *)
Theorem UpdateProject_tags_are_the_listed_names (project : Project.t)
    (names : list string) (r : GormProjectRepository.t) :
  Keys (GormProjectRepository.DB r) ->
  Project.ID project <> uuid.Nil ->
  Forall (fun n => (String.length n <= 255)%nat) names ->
  let res := ProjectUseCase.UpdateProject project names (r, []) in
  let d' := GormProjectRepository.DB (fst (snd res)) in
  forallb went_through (snd (snd res)) = true ->
  fst (fst res) = None /\
  Project.ID (snd (fst res)) = Project.ID project /\
  forall n, In n (map Tag.Name (gorm.Tags_of (Project.ID project) d')) <-> In n names.
Proof.
  intros K Hid _. cbv zeta.
  pose proof (UseCase_UpdateProject_gorm project names r K) as U. cbv zeta in U.
  destruct U as (K' & M' & _ & _ & _ & S & Ei & _). specialize (Ei Hid).
  pose proof (ClearProjectTags_gorm project r K) as C. cbv zeta in C.
  destruct C as (K0 & T0 & E0 & G0 & _ & _ & Up0 & _).
  revert K' M' S Ei.
  unfold ProjectUseCase.UpdateProject, bind.
  cbn [ProjectRepository.ClearProjectTags ProjectRepository.UpdateProject
       GormProjectRepository.repository Recorder.repository].
  unfold Recorder.record. cbn [fst snd app].
  assert (Dn : fst (fst (GormProjectRepository.ClearProjectTags project r)) = None ->
               GormProjectRepository.is_down r = false).
  { unfold GormProjectRepository.ClearProjectTags.
    destruct (GormProjectRepository.is_down r); [discriminate|reflexivity]. }
  destruct (GormProjectRepository.ClearProjectTags project r) as [[e0 p0] r0] eqn:EC.
  cbn [fst snd] in K0, T0, E0, G0, Up0, Dn |- *.
  assert (M0 : mem_ok names p0 (GormProjectRepository.DB r0)).
  { intros t H. rewrite T0 in H. destruct H. }
  pose proof (UpdateProject_gorm names p0 r0 K0 M0) as S1. cbv zeta in S1.
  destruct (GormProjectRepository.UpdateProject p0 r0) as [[e1 p1] r1] eqn:ES.
  cbn [fst snd] in S1 |- *. destruct S1 as (K1 & M1 & _ & _ & _ & _ & Ei1).
  destruct e1 as [e1|].
  { unfold ret. cbn [fst snd forallb went_through andb].
    intros _ _ _ _ W. destruct e0; discriminate. }
  destruct (range_tagNames_went_through names names (fun n H => H) p1 r1
              [Recorder.ClearProjectTags project e0; Recorder.UpdateProject p0 None] K1 M1)
    as (trace & E & All).
  cbn [fst snd app]. rewrite E. unfold ret.
  destruct (ProjectUseCase.range_tagNames p1 names r1) as [p2 r2] eqn:ER.
  cbn [fst snd app forallb went_through] in *.
  intros K' M' S Ei W.
  destruct e0 as [e0|]; [discriminate|]. cbn [andb] in W.
  specialize (Up0 (Dn eq_refl)). specialize (All W).
  assert (E1 : Project.ID p1 = Project.ID project).
  { rewrite <- E0. apply Ei1. rewrite E0. exact Hid. }
  split; [reflexivity|]. split; [exact Ei|].
  intros n. rewrite in_map_iff. split.
  - intros (t & <- & Ht). apply Tags_of_In in Ht. destruct Ht as (Ht & Hr).
    destruct (S _ Hr) as [H|(t' & Ht' & E')].
    + exfalso. apply (Up0 _ H). reflexivity.
    + destruct (M' t' Ht') as [In' Nm']. inversion E' as [[Ep Et]].
      assert (t = t') by (apply (NoDup_map_eq Tag.ID _ t t' (proj1 K') Ht In' Et)).
      subst t'. assumption.
  - intros Hn. destruct (All n Hn) as (t & Nt & It & Ir).
    exists t. split; [assumption|]. apply Tags_of_In. rewrite <- E1. auto.
Qed.

Lemma UpdateProject_tags_are_the_listed_names_witness :
  fst (fst (ProjectUseCase.UpdateProject (Project.with_ID a_project 1%N) ["web"; "api"; "web"]
              (store tagged_go [], []))) = None /\
  Project.ID (snd (fst (ProjectUseCase.UpdateProject (Project.with_ID a_project 1%N)
                          ["web"; "api"; "web"] (store tagged_go [], [])))) = 1%N /\
  forall n,
    In n (map Tag.Name
            (gorm.Tags_of 1%N
               (GormProjectRepository.DB
                  (fst (snd (ProjectUseCase.UpdateProject (Project.with_ID a_project 1%N)
                               ["web"; "api"; "web"] (store tagged_go [], []))))))) <->
    In n ["web"; "api"; "web"].
Proof.
  apply (UpdateProject_tags_are_the_listed_names (Project.with_ID a_project 1%N)
           ["web"; "api"; "web"] (store tagged_go [])).
  - apply Keys_tagged_go.
  - discriminate.
  - repeat constructor.
  - reflexivity.
Defined.

Lemma has_tag_In id rows :
  gorm.has_tag id rows = true <-> exists t, In t rows /\ Tag.ID t = id.
Proof.
  unfold gorm.has_tag. rewrite existsb_exists. split.
  - intros (t & H & E). apply N.eqb_eq in E. eauto.
  - intros (t & H & E). exists t. split; [assumption|]. apply N.eqb_eq. assumption.
Qed.

(** Tables whose join rows changed for the projects [touched] only
    show every other project the tags it had. *)
Lemma Tags_of_other (touched : uuid.UUID -> Prop) d d' id :
  Keys d' -> Refs d ->
  incl (gorm.tags d) (gorm.tags d') ->
  (forall row, ~ touched (fst row) -> In row (gorm.project_tags d) ->
               In row (gorm.project_tags d')) ->
  (forall row, In row (gorm.project_tags d') ->
               In row (gorm.project_tags d) \/ touched (fst row)) ->
  ~ touched id ->
  forall t, In t (gorm.Tags_of id d') <-> In t (gorm.Tags_of id d).
Proof.
  intros K' R It Keep New Hid t. rewrite !Tags_of_In. split.
  - intros [Ht Hr]. destruct (New _ Hr) as [H|H]; [|cbn in H; contradiction].
    split; [|assumption].
    destruct (R _ H) as [_ Hx]. cbn [snd] in Hx. apply has_tag_In in Hx.
    destruct Hx as (t0 & H0 & E0).
    assert (t0 = t) by (apply (NoDup_map_eq Tag.ID _ t0 t (proj1 K')); auto).
    subst t0. assumption.
  - intros [Ht Hr]. split; [apply It; assumption|]. apply Keep; [cbn; assumption|assumption].
Qed.

Lemma CreateProject_rows p r q :
  let res := GormProjectRepository.CreateProject p r in
  In q (gorm.projects (GormProjectRepository.DB r)) ->
  In q (gorm.projects (GormProjectRepository.DB (snd res))).
Proof.
  cbv zeta. unfold GormProjectRepository.CreateProject.
  destruct (GormProjectRepository.is_down r); [auto|].
  unfold gorm.Create. cbv zeta.
  match goal with |- context [gorm.has_project ?i ?d] => destruct (gorm.has_project i d) end;
    cbn [snd GormProjectRepository.DB GormProjectRepository.next]; [auto|].
  unfold gorm.save_associations. cbn [gorm.projects]. intros H. apply in_app_iff. auto.
Qed.

Lemma UpdateProject_rows p r q :
  let res := GormProjectRepository.UpdateProject p r in
  Project.ID q <> Project.ID (snd (fst res)) ->
  In q (gorm.projects (GormProjectRepository.DB r)) ->
  In q (gorm.projects (GormProjectRepository.DB (snd res))).
Proof.
  cbv zeta. unfold GormProjectRepository.UpdateProject.
  destruct (GormProjectRepository.is_down r) eqn:Dn; [auto|].
  unfold gorm.Save. destruct (N.eqb_spec (Project.ID p) uuid.Nil) as [En|En].
  - intros _. pose proof (CreateProject_rows p r q) as C. cbv zeta in C.
    unfold GormProjectRepository.CreateProject in C. rewrite Dn in C.
    destruct (gorm.Create p (GormProjectRepository.DB r)) as [[e p1] d1]. exact C.
  - cbn [fst snd GormProjectRepository.DB GormProjectRepository.next].
    unfold gorm.save_associations. cbn [gorm.projects]. intros Hq H.
    destruct (gorm.has_project (Project.ID p) (GormProjectRepository.DB r)).
    + apply in_map_iff. exists q. split; [|assumption].
      destruct (N.eqb_spec (Project.ID q) (Project.ID p)); [contradiction|reflexivity].
    + apply in_app_iff. auto.
Qed.

(** X9.  What an update never does: whatever fails on the way,
    [UpdateProject] of the use case leaves every other project its row
    and exactly the tags it had. *)
Theorem UpdateProject_leaves_other_projects (project : Project.t)
    (names : list string) (r : GormProjectRepository.t) :
  Keys (GormProjectRepository.DB r) -> Refs (GormProjectRepository.DB r) ->
  let d := GormProjectRepository.DB r in
  let res := ProjectUseCase.UpdateProject project names r in
  let d' := GormProjectRepository.DB (snd res) in
  forall id, id <> Project.ID project -> id <> Project.ID (snd (fst res)) ->
    (forall q, In q (gorm.projects d) -> Project.ID q = id -> In q (gorm.projects d')) /\
    (forall t, In t (gorm.Tags_of id d') <-> In t (gorm.Tags_of id d)).
Proof.
  intros K R. cbv zeta. intros id H1 H2.
  pose proof (UseCase_UpdateProject_gorm project names r K) as U. cbv zeta in U.
  destruct U as (K' & _ & _ & It & Ir & S & _).
  pose proof (ClearProjectTags_gorm project r K) as C. cbv zeta in C.
  destruct C as (K0 & T0 & _ & _ & Sub0 & Oth0 & _).
  split.
  - intros q Hq Eq. revert H2. clear K' It Ir S Sub0 Oth0.
    unfold ProjectUseCase.UpdateProject, bind.
    cbn [ProjectRepository.ClearProjectTags ProjectRepository.UpdateProject
         GormProjectRepository.repository].
    assert (P0 : gorm.projects (GormProjectRepository.DB
                   (snd (GormProjectRepository.ClearProjectTags project r))) =
                 gorm.projects (GormProjectRepository.DB r)).
    { unfold GormProjectRepository.ClearProjectTags.
      destruct (GormProjectRepository.is_down r); reflexivity. }
    destruct (GormProjectRepository.ClearProjectTags project r) as [[e0 p0] r0].
    cbn [fst snd] in P0, K0, T0.
    assert (M0 : mem_ok names p0 (GormProjectRepository.DB r0)).
    { intros t H. rewrite T0 in H. destruct H. }
    pose proof (UpdateProject_rows p0 r0 q) as Rw. cbv zeta in Rw.
    pose proof (UpdateProject_gorm names p0 r0 K0 M0) as Ug. cbv zeta in Ug.
    destruct (GormProjectRepository.UpdateProject p0 r0) as [[[e|] p1] r1];
      unfold ret; cbn [fst snd] in *.
    + intros H2. apply Rw; [congruence|]. rewrite P0. assumption.
    + destruct Ug as (K1 & M1 & _).
      pose proof (range_tagNames_gorm names names (fun n H => H) p1 r1 K1 M1) as G.
      cbv zeta in G.
      destruct (ProjectUseCase.range_tagNames p1 names r1) as [p2 r2].
      cbn [fst snd] in *. destruct G as (_ & _ & Ei & _ & _ & Ep & _).
      intros H2. rewrite Ep. apply Rw; [congruence|]. rewrite P0. assumption.
  - apply (Tags_of_other
             (fun x => x = Project.ID project \/
                       x = Project.ID (snd (fst (ProjectUseCase.UpdateProject project names r)))));
      try assumption.
    + intros row Hr Hin. apply Ir. apply Oth0; [|assumption]. tauto.
    + intros row Hr. destruct (S _ Hr) as [H|(t & _ & ->)]; [left; apply Sub0; assumption|].
      right. right. reflexivity.
    + tauto.
Qed.

Lemma UpdateProject_leaves_other_projects_witness :
  (forall q, In q (gorm.projects tagged_go) -> Project.ID q = 1%N ->
     In q (gorm.projects
             (GormProjectRepository.DB
                (snd (ProjectUseCase.UpdateProject (Project.with_ID a_project 2%N) ["web"]
                        (store tagged_go [false; true])))))) /\
  (forall t,
     In t (gorm.Tags_of 1%N
             (GormProjectRepository.DB
                (snd (ProjectUseCase.UpdateProject (Project.with_ID a_project 2%N) ["web"]
                        (store tagged_go [false; true]))))) <->
     In t (gorm.Tags_of 1%N tagged_go)).
Proof.
  apply (UpdateProject_leaves_other_projects (Project.with_ID a_project 2%N) ["web"]
           (store tagged_go [false; true])).
  - apply Keys_tagged_go.
  - intros row [<-|[]]. split; reflexivity.
  - discriminate.
  - discriminate.
Defined.

(** ** Listing the projects page by page *)

Lemma firstn_plus {A : Type} (a b : nat) : forall l : list A,
  firstn (a + b) l = firstn a l ++ firstn b (skipn a l).
Proof.
  induction a as [|a IH]; intros l; [reflexivity|].
  destruct l as [|x l]; cbn; [rewrite firstn_nil; reflexivity|]. rewrite IH. reflexivity.
Qed.

(** Cutting a list into consecutive pieces of [L] entries and putting
    the first [m] of them together gives its first [m * L] entries. *)
Lemma pieces_tile {A : Type} (L : nat) (l : list A) : forall m,
  flat_map (fun k => firstn L (skipn (k * L) l)) (seq 0 m) = firstn (m * L) l.
Proof.
  induction m as [|m IH]; [reflexivity|].
  rewrite seq_S, flat_map_app, IH. cbn [flat_map Nat.add]. rewrite app_nil_r.
  replace (S m * L)%nat with (m * L + L)%nat by lia. symmetry. apply firstn_plus.
Qed.

Lemma mul_id a b : Int.in_range (a * b) -> IntArith.mul a b = a * b.
Proof. apply wrap_id. Qed.

Lemma sub_id a b : Int.in_range (a - b) -> Int.sub a b = a - b.
Proof. apply wrap_id. Qed.

Section Listing.

Context {pg : postgres.t}.

Hypothesis ORDER_BY_keeps_the_rows :
  forall limit offset rows,
    Permutation (postgres.ORDER_BY_votes_title limit offset rows) rows.

Hypothesis ORDER_BY_is_the_same_on_every_page :
  forall limit offset offset' rows,
    postgres.ORDER_BY_votes_title limit offset rows =
    postgres.ORDER_BY_votes_title limit offset' rows.

Lemma listing_length q limit d :
  List.length (listing q limit d) =
  List.length (GormProjectRepositoryRest.Where q (gorm.projects d)).
Proof.
  unfold listing. rewrite length_map. apply Permutation_length, ORDER_BY_keeps_the_rows.
Qed.

(** A page the database is asked for with an offset that is no
    negative number and has not wrapped around. *)
Lemma projects_on_page q page limit d :
  1 <= limit -> 1 <= page -> (page - 1) * limit <= Int.max_int ->
  projects_on q page limit d =
  firstn (Z.to_nat limit) (skipn (Z.to_nat ((page - 1) * limit)) (listing q limit d)).
Proof.
  intros Hl Hp Ho.
  unfold projects_on, GormProjectRepositoryRest.FindAllProjects, listing.
  cbn [store GormProjectRepository.is_down GormProjectRepository.outages
       GormProjectRepository.next GormProjectRepository.DB tl fst].
  rewrite sub_id by (unfold Int.in_range, Int.min_int, Int.max_int in *; nia).
  rewrite mul_id by (unfold Int.in_range, Int.min_int, Int.max_int in *; nia).
  unfold GormProjectRepositoryRest.Limit, GormProjectRepositoryRest.Offset.
  destruct (Z.ltb_spec limit 0); [lia|].
  rewrite skipn_map, firstn_map.
  rewrite (ORDER_BY_is_the_same_on_every_page limit ((page - 1) * limit) 0).
  destruct (Z.ltb_spec 0 ((page - 1) * limit)) as [O|O]; [reflexivity|].
  replace ((page - 1) * limit) with 0 by nia. reflexivity.
Qed.

(** A page at or below 1: GORM leaves [OFFSET] out. *)
Lemma projects_on_first q page limit d :
  1 <= limit -> page <= 1 -> Int.min_int <= (page - 1) * limit ->
  projects_on q page limit d = firstn (Z.to_nat limit) (listing q limit d).
Proof.
  intros Hl Hp Ho.
  unfold projects_on, GormProjectRepositoryRest.FindAllProjects, listing.
  cbn [store GormProjectRepository.is_down GormProjectRepository.outages
       GormProjectRepository.next GormProjectRepository.DB tl fst].
  rewrite sub_id by (unfold Int.in_range, Int.min_int, Int.max_int in *; nia).
  rewrite mul_id by (unfold Int.in_range, Int.min_int, Int.max_int in *; nia).
  unfold GormProjectRepositoryRest.Limit, GormProjectRepositoryRest.Offset.
  destruct (Z.ltb_spec limit 0); [lia|].
  rewrite firstn_map.
  rewrite (ORDER_BY_is_the_same_on_every_page limit ((page - 1) * limit) 0).
  destruct (Z.ltb_spec 0 ((page - 1) * limit)) as [O|O]; [nia|reflexivity].
Qed.

Lemma pages_tile q limit d n :
  1 <= limit -> 0 <= n -> (n - 1) * limit <= Int.max_int ->
  flat_map (fun page => projects_on q page limit d) (interval 1 n) =
  firstn (Z.to_nat (n * limit)) (listing q limit d).
Proof.
  intros Hl Hn Ho. unfold interval. rewrite flat_map_concat_map, map_map, <- flat_map_concat_map.
  replace (Z.to_nat (n - 1 + 1)) with (Z.to_nat n) by lia.
  replace (Z.to_nat (n * limit)) with (Z.to_nat n * Z.to_nat limit)%nat by nia.
  rewrite <- pieces_tile. rewrite !flat_map_concat_map. f_equal. apply map_ext_in.
  intros k Hk. apply in_seq in Hk.
  rewrite projects_on_page by nia.
  f_equal. f_equal. nia.
Qed.

Lemma Where_length q rows :
  (List.length (GormProjectRepositoryRest.Where q rows) <= List.length rows)%nat.
Proof.
  unfold GormProjectRepositoryRest.Where. destruct (q =? "")%string; [lia|].
  apply filter_length_le.
Qed.

Lemma FindAllProjects_up q page limit d :
  GormProjectRepositoryRest.FindAllProjects q page limit (store d []) =
  (inl (projects_on q page limit d,
        Z.of_nat (List.length (GormProjectRepositoryRest.Where q (gorm.projects d)))),
   store d []).
Proof. reflexivity. Qed.

Lemma pages_of_listing q limit d :
  1 <= limit <= Int.max_int ->
  Z.of_nat (List.length (gorm.projects d)) <= 2 ^ 53 ->
  let total := Z.of_nat (List.length (GormProjectRepositoryRest.Where q (gorm.projects d))) in
  let totalPages := totalPages_of total limit in
  flat_map (fun page => projects_on q page limit d) (interval 1 totalPages) = listing q limit d /\
  (forall page, 1 <= page <= totalPages -> projects_on q page limit d <> []) /\
  (forall page, totalPages < page -> (page - 1) * limit <= Int.max_int ->
                projects_on q page limit d = []) /\
  (forall page, page <= 1 -> Int.min_int <= (page - 1) * limit ->
                projects_on q page limit d = projects_on q 1 limit d).
Proof.
  intros Hl Hn. cbv zeta.
  pose proof (Where_length q (gorm.projects d)) as W.
  pose proof (listing_length q limit d) as Len.
  set (total := Z.of_nat (List.length (GormProjectRepositoryRest.Where q (gorm.projects d)))) in *.
  assert (Ht : 0 <= total <= 2 ^ 53) by (unfold total; lia).
  assert (Et : totalPages_of total limit = ceil_div total limit).
  { unfold totalPages_of. apply totalPages_exact; lia. }
  rewrite Et. pose proof (ceil_div_spec total limit ltac:(lia)) as C.
  set (c := ceil_div total limit) in *.
  assert (Hc : 0 <= c) by nia.
  assert (Ll : Z.of_nat (List.length (listing q limit d)) = total) by (unfold total; lia).
  split; [|split; [|split]].
  - rewrite pages_tile by (unfold Int.max_int; nia).
    apply firstn_all2. nia.
  - intros page Hp. rewrite projects_on_page by (unfold Int.max_int; nia).
    intros E. apply (f_equal (@List.length _)) in E.
    rewrite length_firstn, length_skipn in E. cbn [List.length] in E. nia.
  - intros page Hp Ho. rewrite projects_on_page by nia.
    rewrite skipn_all2 by nia. apply firstn_nil.
  - intros page Hp Ho. rewrite projects_on_first by lia.
    rewrite projects_on_page by (unfold Int.max_int; lia).
    reflexivity.
Qed.

(** X10.  Walking through the listing, with the database up, a page
    size of at least 1, at most [2^53] projects in the table (counts
    that [float64] holds exactly), and PostgreSQL returning the rows in
    the same order for every page (which it need not do for rows that
    tie on the three columns of the [ORDER BY]): every page reports the same
    total; the pages [1 .. totalPages], where [totalPages] is what
    [Paginate] computes from that total, put together are the whole
    listing, each project once and in order; none of these pages is
    empty; every page beyond, as long as its offset
    [(page - 1) * limit] does not exceed the largest [int], is empty;
    and every page below 1, as long as its offset is not below the
    smallest [int], is the first page.  (Beyond these bounds the
    offset wraps around, see [FindAllProjects_offset_wraps].) *)
Theorem pages_show_every_project_once q limit d :
  1 <= limit <= Int.max_int ->
  Z.of_nat (List.length (gorm.projects d)) <= 2 ^ 53 ->
  let total := Z.of_nat (List.length (GormProjectRepositoryRest.Where q (gorm.projects d))) in
  let totalPages := totalPages_of total limit in
  (forall page,
     fst (GormProjectRepositoryRest.FindAllProjects q page limit (store d [])) =
     inl (projects_on q page limit d, total)) /\
  flat_map (fun page => projects_on q page limit d) (interval 1 totalPages) = listing q limit d /\
  (forall page, 1 <= page <= totalPages -> projects_on q page limit d <> []) /\
  (forall page, totalPages < page -> (page - 1) * limit <= Int.max_int ->
                projects_on q page limit d = []) /\
  (forall page, page <= 1 -> Int.min_int <= (page - 1) * limit ->
                projects_on q page limit d = projects_on q 1 limit d).
Proof.
  intros Hl Hn. cbv zeta. split; [intros page; reflexivity|].
  apply pages_of_listing; assumption.
Qed.

(** X11.  What [RenderProjectsPage] shows, with the database up, at
    most [2^53] projects in the table, PostgreSQL returning the rows in
    the same order for every page, and at least one page to show.  The handler hands the requested
    page to the repository as it is, while [Paginate] clamps it: for a
    requested page from [- 2^61] up to [TotalPages] the projects shown
    are those of the page the pagination marks as current, and there
    are some; for a requested page beyond [TotalPages], up to [2^61],
    no project is shown although the pagination marks the last page
    as current, which is not empty.  (Further out the offset
    [(page - 1) * 3] wraps around.) *)
Theorem RenderProjectsPage_shows c d :
  Z.of_nat (List.length (gorm.projects d)) <= 2 ^ 53 ->
  let q := ProjectsPage.Query c "search_query" in
  let page := requested_page c in
  let total := Z.of_nat (List.length (GormProjectRepositoryRest.Where q (gorm.projects d))) in
  exists pagination,
    fst (ProjectsPage.RenderProjectsPage c (store d [])) =
      Some (ProjectsPage.HTML "projects.html" (projects_on q page 3 d) q pagination) /\
    Paginate c total 3 = Some pagination /\
    (1 <= TotalPages pagination -> - 2 ^ 61 <= page <= TotalPages pagination ->
       projects_on q page 3 d = projects_on q (CurrentPageNumber pagination) 3 d /\
       projects_on q page 3 d <> []) /\
    (1 <= TotalPages pagination < page -> page <= 2 ^ 61 ->
       projects_on q page 3 d = [] /\
       CurrentPageNumber pagination = TotalPages pagination /\
       projects_on q (CurrentPageNumber pagination) 3 d <> []).
Proof.
  intros Hn. cbv zeta.
  set (q := ProjectsPage.Query c "search_query").
  set (total := Z.of_nat (List.length (GormProjectRepositoryRest.Where q (gorm.projects d)))).
  destruct (Paginate_run c total 3) as (cur & lo & hi & E & P1 & P2 & P3 & _).
  destruct (pages_of_listing q 3 d ltac:(unfold Int.max_int; lia) Hn) as (_ & A1 & A2 & A3).
  fold total in A1, A2, A3.
  eexists. split; [|split; [exact E|]].
  - unfold ProjectsPage.RenderProjectsPage, bind, ProjectUseCaseRest.GetProjects.
    cbn [ProjectRepositoryRest.FindAllProjects GormProjectRepositoryRest.repository].
    fold q. fold (requested_page c). rewrite FindAllProjects_up. fold total.
    rewrite E. reflexivity.
  - cbn [TotalPages CurrentPageNumber]. split.
    + intros T Hp. specialize (P2 T).
      destruct (Z_le_gt_dec 1 (requested_page c)) as [G|G].
      * replace cur with (requested_page c) by lia. split; [reflexivity|]. apply A1. lia.
      * replace cur with 1 by lia. unfold Int.min_int in A3.
        split; [apply A3; lia|]. rewrite A3 by lia. apply A1. lia.
    + intros T Hp. specialize (P2 ltac:(lia)). replace cur with (totalPages_of total 3) by lia.
      unfold Int.max_int in A2.
      split; [apply A2; lia|]. split; [reflexivity|]. apply A1. lia.
Qed.

End Listing.

Lemma pages_show_every_project_once_witness :
  (forall page,
     fst (GormProjectRepositoryRest.FindAllProjects (pg := table_order) "" page 3
            (store seven_projects [])) =
     inl (projects_on (pg := table_order) "" page 3 seven_projects,
          Z.of_nat (List.length
                      (GormProjectRepositoryRest.Where (pg := table_order) ""
                         (gorm.projects seven_projects))))) /\
  flat_map (fun page => projects_on (pg := table_order) "" page 3 seven_projects)
    (interval 1
       (totalPages_of
          (Z.of_nat (List.length
                       (GormProjectRepositoryRest.Where (pg := table_order) ""
                          (gorm.projects seven_projects)))) 3)) =
    listing (pg := table_order) "" 3 seven_projects /\
  (forall page,
     1 <= page <=
       totalPages_of
         (Z.of_nat (List.length
                      (GormProjectRepositoryRest.Where (pg := table_order) ""
                         (gorm.projects seven_projects)))) 3 ->
     projects_on (pg := table_order) "" page 3 seven_projects <> []) /\
  (forall page,
     totalPages_of
       (Z.of_nat (List.length
                    (GormProjectRepositoryRest.Where (pg := table_order) ""
                       (gorm.projects seven_projects)))) 3 < page ->
     (page - 1) * 3 <= Int.max_int ->
     projects_on (pg := table_order) "" page 3 seven_projects = []) /\
  (forall page, page <= 1 -> Int.min_int <= (page - 1) * 3 ->
     projects_on (pg := table_order) "" page 3 seven_projects =
     projects_on (pg := table_order) "" 1 3 seven_projects).
Proof.
  apply (pages_show_every_project_once (pg := table_order)
           (fun _ _ rows => Permutation_refl rows) (fun _ _ _ _ => eq_refl)
           "" 3 seven_projects).
  - unfold Int.max_int. lia.
  - cbn. lia.
Defined.

Lemma RenderProjectsPage_shows_witness :
  exists pagination,
    fst (ProjectsPage.RenderProjectsPage
           (ProjectRepo := GormProjectRepositoryRest.repository (pg := table_order))
           (ctx "9") (store seven_projects [])) =
      Some (ProjectsPage.HTML "projects.html"
              (projects_on (pg := table_order) (ProjectsPage.Query (ctx "9") "search_query")
                 (requested_page (ctx "9")) 3 seven_projects)
              (ProjectsPage.Query (ctx "9") "search_query") pagination) /\
    Paginate (ctx "9")
      (Z.of_nat (List.length
                   (GormProjectRepositoryRest.Where (pg := table_order)
                      (ProjectsPage.Query (ctx "9") "search_query")
                      (gorm.projects seven_projects)))) 3 = Some pagination /\
    (1 <= TotalPages pagination ->
     - 2 ^ 61 <= requested_page (ctx "9") <= TotalPages pagination ->
       projects_on (pg := table_order) (ProjectsPage.Query (ctx "9") "search_query")
         (requested_page (ctx "9")) 3 seven_projects =
       projects_on (pg := table_order) (ProjectsPage.Query (ctx "9") "search_query")
         (CurrentPageNumber pagination) 3 seven_projects /\
       projects_on (pg := table_order) (ProjectsPage.Query (ctx "9") "search_query")
         (requested_page (ctx "9")) 3 seven_projects <> []) /\
    (1 <= TotalPages pagination < requested_page (ctx "9") ->
     requested_page (ctx "9") <= 2 ^ 61 ->
       projects_on (pg := table_order) (ProjectsPage.Query (ctx "9") "search_query")
         (requested_page (ctx "9")) 3 seven_projects = [] /\
       CurrentPageNumber pagination = TotalPages pagination /\
       projects_on (pg := table_order) (ProjectsPage.Query (ctx "9") "search_query")
         (CurrentPageNumber pagination) 3 seven_projects <> []).
Proof.
  apply (RenderProjectsPage_shows (pg := table_order)
           (fun _ _ rows => Permutation_refl rows) (fun _ _ _ _ => eq_refl)
           (ctx "9") seven_projects).
  cbn. lia.
Defined.

(** On a run: page 9 of seven projects, three to a page, shows no
    project, and the pagination marks page 3 of 3 as current. *)
Example RenderProjectsPage_beyond_the_last_page :
  fst (ProjectsPage.RenderProjectsPage
         (ProjectRepo := GormProjectRepositoryRest.repository (pg := table_order))
         (ctx "9") (store seven_projects [])) =
  Some (ProjectsPage.HTML "projects.html" [] ""
          {| HasOtherPages := true; HasPrevious := true; HasNext := false;
             PreviousPageNumber := 2; NextPageNumber := 4; CurrentPageNumber := 3;
             TotalPages := 3; CustomRange := [1; 2; 3] |}).
Proof. vm_compute. reflexivity. Qed.

(** For a page number so large that [(page - 1) * limit] no longer
    fits an [int], the offset wraps around: this page starts with the
    third project. *)
Example FindAllProjects_offset_wraps :
  map Project.ID (projects_on (pg := table_order) "" 6148914691236517207 3 seven_projects) =
  [3; 4; 5]%N.
Proof. vm_compute. reflexivity. Qed.

(** ** Creating and finding a project *)

Lemma find_last {A : Type} (f : A -> bool) (l : list A) (x : A) :
  (forall y, In y l -> f y = false) -> f x = true -> find f (l ++ [x]) = Some x.
Proof.
  intros H Hx. induction l as [|a l IH]; cbn.
  - rewrite Hx. reflexivity.
  - rewrite (H a (or_introl eq_refl)). apply IH. intros y Hy. apply H. right. assumption.
Qed.

Lemma fresh_has_no_project d :
  gorm.has_project (gorm.fresh (map Project.ID (gorm.projects d))) d = false.
Proof.
  destruct (gorm.has_project _ d) eqn:E; [|reflexivity].
  apply has_project_In in E. destruct E as (q & Hq & Eq).
  exfalso. apply (fresh_not_in (map Project.ID (gorm.projects d))).
  rewrite <- Eq. apply in_map. assumption.
Qed.

(** What a [CreateProject] of the repository that returned no error
    did with a project without identifier and without tags. *)
Lemma CreateProject_stored project r p1 r1 :
  Project.ID project = uuid.Nil -> Project.Tags project = [] ->
  GormProjectRepository.CreateProject project r = ((None, p1), r1) ->
  let d := GormProjectRepository.DB r in
  let id := gorm.fresh (map Project.ID (gorm.projects d)) in
  p1 = gorm.with_defaults (Project.with_ID project id) /\
  GormProjectRepository.DB r1 =
    {| gorm.projects := gorm.projects d ++ [gorm.row_of p1];
       gorm.tags := gorm.tags d; gorm.project_tags := gorm.project_tags d |}.
Proof.
  intros En Et. cbv zeta. unfold GormProjectRepository.CreateProject.
  destruct (GormProjectRepository.is_down r); [discriminate|].
  unfold gorm.Create. cbv zeta. rewrite En. cbn [N.eqb uuid.Nil].
  rewrite with_defaults_ID.
  change (Project.ID (Project.with_ID project ?i)) with i.
  rewrite fresh_has_no_project.
  intros H. inversion H. split; [reflexivity|].
  cbn [GormProjectRepository.DB GormProjectRepository.next].
  unfold gorm.save_associations. rewrite with_defaults_Tags.
  change (Project.Tags (Project.with_ID project ?i)) with (Project.Tags project).
  rewrite Et. reflexivity.
Qed.

(** X12.  A project that the use case stored is found again.
    [CreateProject] of the use case over the GORM repository, every call
    written down, for a project that comes without identifier and
    without tags, as the handler builds it: if the use case returns no
    error, the project it hands back has an identifier that is not the
    nil identifier, and a [FindProjectByID] that reaches the database
    returns under it a project with the owner, title, description and
    links that were handed in, the featured image or, for an empty one,
    the default of the column, and tags whose names are all among the
    listed names; if moreover no call for a tag returned an error, every
    listed name is the name of one of its tags.  The strings are taken
    within the 255 bytes of their columns, a limit that the tables here
    do not keep. *)
Theorem created_project_is_found (project : Project.t) (names : list string)
    (r : GormProjectRepository.t) (created : Project.t)
    (r' : GormProjectRepository.t) (trace : list Recorder.Event) :
  Keys (GormProjectRepository.DB r) -> Refs (GormProjectRepository.DB r) ->
  Project.ID project = uuid.Nil -> Project.Tags project = [] ->
  fits (Project.Title project) -> fits (Project.FeaturedImage project) ->
  fits (Project.DemoLink project) -> fits (Project.SourceLink project) ->
  Forall fits names ->
  ProjectUseCase.CreateProject project names (r, []) = ((None, created), (r', trace)) ->
  GormProjectRepository.is_down r' = false ->
  Project.ID created <> uuid.Nil /\
  exists found,
    fst (GormProjectRepositoryRest.FindProjectByID (Project.ID created) r') = inl found /\
    Project.ID found = Project.ID created /\
    Project.OwnerID found = Project.OwnerID project /\
    Project.Title found = Project.Title project /\
    Project.Description found = Project.Description project /\
    Project.DemoLink found = Project.DemoLink project /\
    Project.SourceLink found = Project.SourceLink project /\
    Project.FeaturedImage found =
      (if String.eqb (Project.FeaturedImage project) ""
       then "default.jpg" else Project.FeaturedImage project) /\
    (forall n, In n (map Tag.Name (Project.Tags found)) -> In n names) /\
    (forallb went_through trace = true ->
     forall n, In n names -> In n (map Tag.Name (Project.Tags found))).
Proof.
  intros K R En Et _ _ _ _ _.
  unfold ProjectUseCase.CreateProject, bind.
  cbn [ProjectRepository.CreateProject GormProjectRepository.repository Recorder.repository].
  unfold Recorder.record. cbn [fst snd app].
  pose proof (CreateProject_stored project r) as St.
  destruct (GormProjectRepository.CreateProject project r) as [[e p1] r1] eqn:EC.
  cbn [fst snd]. destruct e as [e|]; [unfold ret; discriminate|].
  destruct (St p1 r1 En Et eq_refl) as [Ep1 Ed1]. clear St. cbv zeta in Ep1, Ed1.
  set (d := GormProjectRepository.DB r) in *.
  set (id := gorm.fresh (map Project.ID (gorm.projects d))) in *.
  assert (Ei1 : Project.ID p1 = id) by (rewrite Ep1, with_defaults_ID; reflexivity).
  assert (K1 : Keys (GormProjectRepository.DB r1)) by (rewrite Ed1; exact K).
  assert (M1 : mem_ok names p1 (GormProjectRepository.DB r1)).
  { intros t H. rewrite Ep1, with_defaults_Tags in H.
    change (Project.Tags (Project.with_ID project id)) with (Project.Tags project) in H.
    rewrite Et in H. destruct H. }
  destruct (range_tagNames_went_through names names (fun n H => H) p1 r1
              [Recorder.CreateProject project None] K1 M1) as (tr & E & All).
  pose proof (range_tagNames_gorm names names (fun n H => H) p1 r1 K1 M1) as G.
  cbv zeta in G. rewrite E. unfold ret.
  destruct (ProjectUseCase.range_tagNames p1 names r1) as [p2 r2].
  cbn [fst snd app] in *. intros H Up. inversion H. subst created r' trace. clear H.
  destruct G as (K2 & M2 & Ei & _ & It & Ep & Ir & New & _).
  rewrite Ei, Ei1.
  split; [unfold id, gorm.fresh; intros H; apply (N.neq_succ_0 _ H)|].
  unfold GormProjectRepositoryRest.FindProjectByID. rewrite Up, Ep, Ed1.
  cbn [gorm.projects].
  rewrite (find_last _ _ (gorm.row_of p1)).
  - assert (Sub : forall n,
              In n (map Tag.Name (gorm.Tags_of id (GormProjectRepository.DB r2))) ->
              In n names).
    { intros n Hn. apply in_map_iff in Hn. destruct Hn as (t & <- & Ht).
      apply Tags_of_In in Ht. destruct Ht as [Ht Hr].
      destruct (New _ Hr) as [H|(t' & Ht' & E')].
      - exfalso. rewrite Ed1 in H. cbn [gorm.project_tags] in H.
        destruct (R _ H) as [Hx _]. cbn [fst] in Hx.
        fold d in Hx. unfold id in Hx. rewrite fresh_has_no_project in Hx.
        discriminate.
      - destruct (M2 t' Ht') as [In' Nm']. inversion E' as [[Ex Et']].
        assert (t = t') by (apply (NoDup_map_eq Tag.ID _ t t' (proj1 K2) Ht In' Et')).
        subst t'. assumption. }
    assert (Sup : forallb went_through tr = true -> forall n, In n names ->
              In n (map Tag.Name (gorm.Tags_of id (GormProjectRepository.DB r2)))).
    { intros W n Hn. destruct (All W n Hn) as (t & Nt & It' & Ir').
      apply in_map_iff. exists t. split; [assumption|].
      apply Tags_of_In. rewrite <- Ei1. auto. }
    eexists. split; [reflexivity|]. cbn [fst].
    unfold GormProjectRepositoryRest.Preload.
    change (Project.ID (gorm.row_of p1)) with (Project.ID p1). rewrite Ei1.
    split; [exact Ei1|].
    cbn [Project.Tags Project.with_Tags Project.OwnerID Project.Title Project.Description
         Project.DemoLink Project.SourceLink Project.FeaturedImage gorm.row_of].
    rewrite Ep1. unfold gorm.with_defaults.
    change (Project.FeaturedImage (Project.with_ID project id))
      with (Project.FeaturedImage project).
    destruct (String.eqb (Project.FeaturedImage project) "");
      repeat (split; [reflexivity|]); split; assumption.
  - intros y Hy. apply N.eqb_neq. intros Ey.
    apply (fresh_not_in (map Project.ID (gorm.projects d))).
    change (In id (map Project.ID (gorm.projects d))).
    rewrite <- Ey. apply in_map. assumption.
  - change (Project.ID (gorm.row_of p1)) with (Project.ID p1). rewrite Ei1.
    apply N.eqb_refl.
Qed.

Lemma created_project_is_found_witness :
  Project.ID (snd (fst created_over_tagged_go)) <> uuid.Nil /\
  exists found,
    fst (GormProjectRepositoryRest.FindProjectByID
           (Project.ID (snd (fst created_over_tagged_go)))
           (fst (snd created_over_tagged_go))) = inl found /\
    Project.ID found = Project.ID (snd (fst created_over_tagged_go)) /\
    Project.OwnerID found = Project.OwnerID a_project /\
    Project.Title found = Project.Title a_project /\
    Project.Description found = Project.Description a_project /\
    Project.DemoLink found = Project.DemoLink a_project /\
    Project.SourceLink found = Project.SourceLink a_project /\
    Project.FeaturedImage found =
      (if String.eqb (Project.FeaturedImage a_project) ""
       then "default.jpg" else Project.FeaturedImage a_project) /\
    (forall n, In n (map Tag.Name (Project.Tags found)) -> In n ["go"; " web"]) /\
    (forallb went_through (snd (snd created_over_tagged_go)) = true ->
     forall n, In n ["go"; " web"] -> In n (map Tag.Name (Project.Tags found))).
Proof.
  apply (created_project_is_found a_project ["go"; " web"] (store tagged_go [])
           (snd (fst created_over_tagged_go)) (fst (snd created_over_tagged_go))
           (snd (snd created_over_tagged_go))).
  - apply Keys_tagged_go.
  - intros row [<-|[]]. split; reflexivity.
  - reflexivity.
  - reflexivity.
  - unfold fits. cbn. lia.
  - unfold fits. cbn. lia.
  - unfold fits. cbn. lia.
  - unfold fits. cbn. lia.
  - repeat constructor; unfold fits; cbn; lia.
  - reflexivity.
  - reflexivity.
Defined.

(** The project of the sample comes back under the identifier 2 with
    the default image and both tags. *)
Example a_created_project_comes_back :
  forallb went_through (snd (snd created_over_tagged_go)) = true /\
  option_map
    (fun p => (Project.ID p, Project.FeaturedImage p, map Tag.Name (Project.Tags p)))
    (match fst (GormProjectRepositoryRest.FindProjectByID 2%N
                  (fst (snd created_over_tagged_go))) with
     | inl found => Some found
     | inr _ => None
     end) = Some (2%N, "default.jpg", ["go"; " web"]).
Proof. vm_compute. split; reflexivity. Qed.

(** ** Accounts: registration, login and skills over the tables *)

Lemma First_In {A : Type} (key : A -> uuid.UUID) condition rows (row : A) :
  gorm_accounts.First key condition rows = Some row ->
  In row rows /\ condition row = true.
Proof.
  revert row. induction rows as [|a rows IH]; intros row H; [discriminate|].
  cbn [gorm_accounts.First] in H.
  destruct (gorm_accounts.First key condition rows) as [row'|] eqn:F.
  - destruct (condition a) eqn:Ca; cbn [andb] in H.
    + destruct (key a <? key row')%N; inversion H; subst.
      * split; [left; reflexivity|assumption].
      * destruct (IH _ eq_refl) as [I C]. split; [right; assumption|assumption].
    + inversion H; subst. destruct (IH _ eq_refl) as [I C].
      split; [right; assumption|assumption].
  - destruct (condition a) eqn:Ca; inversion H; subst.
    split; [left; reflexivity|assumption].
Qed.

Lemma First_None {A : Type} (key : A -> uuid.UUID) condition (rows : list A) :
  gorm_accounts.First key condition rows = None ->
  forall row, In row rows -> condition row = false.
Proof.
  induction rows as [|a rows IH]; intros H row I; [destruct I|].
  cbn [gorm_accounts.First] in H.
  destruct (gorm_accounts.First key condition rows) as [row'|] eqn:F.
  - destruct (condition a && (key a <? key row')%N); discriminate.
  - destruct (condition a) eqn:Ca; [discriminate|].
    destruct I as [->|I]; [assumption|apply IH; [reflexivity|assumption]].
Qed.

Lemma First_finds {A : Type} (key : A -> uuid.UUID) condition (rows : list A) row :
  In row rows -> condition row = true ->
  exists row', gorm_accounts.First key condition rows = Some row'.
Proof.
  intros I C. destruct (gorm_accounts.First key condition rows) as [row'|] eqn:F.
  - exists row'. reflexivity.
  - rewrite (First_None _ _ _ F row I) in C. discriminate.
Qed.

(** When all the rows that satisfy the condition are one and the same
    row, that row is the one [First] gives. *)
Lemma First_only {A : Type} (key : A -> uuid.UUID) condition (rows : list A) row :
  In row rows -> condition row = true ->
  (forall row', In row' rows -> condition row' = true -> row' = row) ->
  gorm_accounts.First key condition rows = Some row.
Proof.
  intros I C U. destruct (First_finds key condition rows row I C) as [row' F].
  rewrite F. f_equal. destruct (First_In _ _ _ _ F) as [I' C']. apply U; assumption.
Qed.

Lemma existsb_false {A : Type} (f : A -> bool) rows :
  existsb f rows = false -> forall row, In row rows -> f row = false.
Proof.
  intros E row I. destruct (f row) eqn:F; [|reflexivity].
  assert (X : existsb f rows = true) by (apply existsb_exists; exists row; split; assumption).
  rewrite E in X. discriminate.
Qed.

Lemma New_not_Nil d : gorm_accounts.New d <> uuid.Nil.
Proof. unfold gorm_accounts.New, gorm.fresh, uuid.Nil. lia. Qed.

Lemma filter_all {A : Type} (f : A -> bool) rows :
  (forall row, In row rows -> f row = true) -> filter f rows = rows.
Proof.
  induction rows as [|a rows IH]; intros H; [reflexivity|].
  cbn [filter]. rewrite (H a (or_introl eq_refl)). f_equal.
  apply IH. intros row I. apply H. right. assumption.
Qed.

(** What [Create_user] does when it accepts the row. *)
Lemma Create_user_spec u d err u' d' :
  gorm_accounts.Create_user u d = (err, u', d') ->
  u' = (if (User.ID u =? uuid.Nil)%N then gorm_accounts.with_user_ID u (gorm_accounts.New d)
        else u) /\
  (err = None ->
     d' = {| gorm_accounts.users := gorm_accounts.users d ++ [u'];
             gorm_accounts.profiles := gorm_accounts.profiles d;
             gorm_accounts.skills := gorm_accounts.skills d |} /\
     forall row, In row (gorm_accounts.users d) ->
       User.ID row <> User.ID u' /\ User.Email row <> User.Email u' /\
       User.Username row <> User.Username u') /\
  (err <> None -> d' = d /\
     exists row, In row (gorm_accounts.users d) /\
       (User.ID row = User.ID u' \/ User.Email row = User.Email u' \/
        User.Username row = User.Username u')).
Proof.
  unfold gorm_accounts.Create_user.
  set (v := if (User.ID u =? uuid.Nil)%N then _ else u).
  match goal with |- context [existsb ?f ?l] => destruct (existsb f l) eqn:X end;
    intros H; inversion H; subst; clear H.
  - split; [reflexivity|]. split; [discriminate|]. intros _. split; [reflexivity|].
    apply existsb_exists in X. destruct X as [row [I X]]. exists row. split; [assumption|].
    apply orb_true_iff in X. destruct X as [X|X].
    + apply orb_true_iff in X. destruct X as [X|X].
      * left. apply N.eqb_eq. assumption.
      * right. left. apply String.eqb_eq. assumption.
    + right. right. apply String.eqb_eq. assumption.
  - split; [reflexivity|]. split; [|intros N; exfalso; apply N; reflexivity].
    intros _. split; [reflexivity|]. intros row I.
    pose proof (existsb_false _ _ X row I) as F. cbv beta in F.
    apply orb_false_iff in F. destruct F as [F F3].
    apply orb_false_iff in F. destruct F as [F1 F2].
    apply N.eqb_neq in F1. apply String.eqb_neq in F2. apply String.eqb_neq in F3.
    repeat split; assumption.
Qed.

Lemma New_not_a_user d u : In u (gorm_accounts.users d) -> User.ID u <> gorm_accounts.New d.
Proof.
  intros I E. apply (fresh_not_in (map User.ID (gorm_accounts.users d) ++
    map Profile.ID (gorm_accounts.profiles d) ++ map Skill.ID (gorm_accounts.skills d))).
  fold (gorm_accounts.New d). rewrite <- E. apply in_app_iff. left. apply in_map. assumption.
Qed.

Lemma New_not_a_profile d p :
  In p (gorm_accounts.profiles d) -> Profile.ID p <> gorm_accounts.New d.
Proof.
  intros I E. apply (fresh_not_in (map User.ID (gorm_accounts.users d) ++
    map Profile.ID (gorm_accounts.profiles d) ++ map Skill.ID (gorm_accounts.skills d))).
  fold (gorm_accounts.New d). rewrite <- E. apply in_app_iff. right. apply in_app_iff. left.
  apply in_map. assumption.
Qed.

Lemma New_not_a_skill d s : In s (gorm_accounts.skills d) -> Skill.ID s <> gorm_accounts.New d.
Proof.
  intros I E. apply (fresh_not_in (map User.ID (gorm_accounts.users d) ++
    map Profile.ID (gorm_accounts.profiles d) ++ map Skill.ID (gorm_accounts.skills d))).
  fold (gorm_accounts.New d). rewrite <- E. apply in_app_iff. right. apply in_app_iff. right.
  apply in_map. assumption.
Qed.

Lemma is_down_nth d o :
  GormAccounts.is_down {| GormAccounts.DB := d; GormAccounts.outages := o |} = nth 0 o false.
Proof. destruct o as [|[|] o]; reflexivity. Qed.

Lemma nth_tl (n : nat) (o : list bool) : nth n (tl o) false = nth (S n) o false.
Proof. destruct o; [destruct n; reflexivity|reflexivity]. Qed.

Lemma skipn_tl (n : nat) (o : list bool) : skipn n (tl o) = skipn (S n) o.
Proof. destruct o; [destruct n; reflexivity|reflexivity]. Qed.

Lemma users_without_the_new_one d u id :
  User.ID u = id ->
  (forall row, In row (gorm_accounts.users d) -> User.ID row <> id) ->
  filter (fun row => negb (User.ID row =? id)%N) (gorm_accounts.users d ++ [u])
  = gorm_accounts.users d.
Proof.
  intros E U. rewrite filter_app. cbn [filter]. rewrite E, N.eqb_refl. cbn [negb].
  rewrite app_nil_r. apply filter_all. intros row I.
  apply negb_true_iff. apply N.eqb_neq. apply U. assumption.
Qed.

(** What [Create_profile] does with a profile that has no identifier
    and no image yet. *)
Lemma Create_profile_spec p d err p' d' :
  Profile.ID p = uuid.Nil -> Profile.ProfileImage p = "" ->
  gorm_accounts.Create_profile p d = (err, p', d') ->
  p' = gorm_accounts.with_ProfileImage (gorm_accounts.with_profile_ID p (gorm_accounts.New d))
         "user-default.png" /\
  (err = None ->
     d' = {| gorm_accounts.users := gorm_accounts.users d;
             gorm_accounts.profiles :=
               gorm_accounts.profiles d ++ [gorm_accounts.with_Skills p' []];
             gorm_accounts.skills := gorm_accounts.skills d |} /\
     forall row, In row (gorm_accounts.profiles d) ->
       Profile.ID row <> gorm_accounts.New d /\ Profile.UserID row <> Profile.UserID p) /\
  (err <> None -> d' = d /\
     ((exists row, In row (gorm_accounts.profiles d) /\
         (Profile.ID row = gorm_accounts.New d \/ Profile.UserID row = Profile.UserID p)) \/
      ~ In (Profile.UserID p) (map User.ID (gorm_accounts.users d)))).
Proof.
  intros N I. unfold gorm_accounts.Create_profile. rewrite N, N.eqb_refl.
  cbn [gorm_accounts.with_profile_ID Profile.ProfileImage]. rewrite I. cbn [String.eqb].
  cbn [gorm_accounts.with_ProfileImage Profile.ID Profile.UserID].
  match goal with |- context [existsb ?f ?l] => destruct (existsb f l) eqn:X end.
  { intros H. inversion H; subst; clear H. split; [reflexivity|]. split; [discriminate|].
    intros _. split; [reflexivity|]. left.
    apply existsb_exists in X. destruct X as [row [J X]]. exists row. split; [assumption|].
    apply orb_true_iff in X. destruct X as [X|X]; apply N.eqb_eq in X; [left|right]; assumption. }
  match goal with |- context [existsb ?f ?l] => destruct (existsb f l) eqn:Y end; cbn [negb].
  - intros H. inversion H; subst; clear H. split; [reflexivity|].
    split; [|intros E; exfalso; apply E; reflexivity].
    intros _. split; [reflexivity|]. intros row J.
    pose proof (existsb_false _ _ X row J) as F. cbv beta in F.
    apply orb_false_iff in F. destruct F as [F1 F2].
    apply N.eqb_neq in F1. apply N.eqb_neq in F2. split; assumption.
  - intros H. inversion H; subst; clear H. split; [reflexivity|]. split; [discriminate|].
    intros _. split; [reflexivity|]. right. intros J. apply in_map_iff in J.
    destruct J as [u [E J]]. pose proof (existsb_false _ _ Y u J) as F. cbv beta in F.
    apply N.eqb_neq in F. apply F. assumption.
Qed.

Section Accounts.
Context {Bcrypt : bcrypt.t}.

(** The user and the profile that [RegisterUser] writes. *)
Lemma RegisterUser_cases username email password d o :
  let run := UserUseCase.RegisterUser username email password (accounts d o) in
  (exists err, fst run = inr err /\ GormAccounts.DB (snd run) = d) \/
  (exists hash,
     bcrypt.GenerateFromPassword password bcrypt.DefaultCost = inl hash /\
     let user :=
       {| User.ID := gorm_accounts.New d; User.Name := ""; User.Email := "";
          User.Username := username; User.Password := hash |} in
     let d1 :=
       {| gorm_accounts.users := gorm_accounts.users d ++ [user];
          gorm_accounts.profiles := gorm_accounts.profiles d;
          gorm_accounts.skills := gorm_accounts.skills d |} in
     let profile :=
       {| Profile.ID := gorm_accounts.New d1; Profile.UserID := gorm_accounts.New d;
          Profile.Name := username; Profile.Email := email;
          Profile.Username := username; Profile.Location := "";
          Profile.ShortIntro := ""; Profile.Bio := "";
          Profile.ProfileImage := "user-default.png"; Profile.SocialGithub := "";
          Profile.SocialLinkedin := ""; Profile.SocialWebsite := "";
          Profile.Skills := [] |} in
     (forall row, In row (gorm_accounts.users d) ->
        User.ID row <> gorm_accounts.New d /\ User.Email row <> "" /\
        User.Username row <> username) /\
     ((run =
         (inl (user, profile),
          accounts
            {| gorm_accounts.users := gorm_accounts.users d ++ [user];
               gorm_accounts.profiles := gorm_accounts.profiles d ++ [profile];
               gorm_accounts.skills := gorm_accounts.skills d |} (skipn 3 o)) /\
       forall p, In p (gorm_accounts.profiles d) ->
         Profile.ID p <> gorm_accounts.New d1 /\ Profile.UserID p <> gorm_accounts.New d) \/
      (exists err, fst run = inr err /\ GormAccounts.DB (snd run) = d1 /\
         ((nth 2 o false = true /\ nth 3 o false = true) \/
          exists p, In p (gorm_accounts.profiles d) /\
                    Profile.UserID p = gorm_accounts.New d)))).
Proof.
  intros run. subst run.
  unfold UserUseCase.RegisterUser, bind, ret.
  cbn [UserRepository.FindUserByUsernameOrEmail UserRepository.CreateUser
       UserRepository.DeleteUser ProfileRepository.CreateProfile
       GormUserRepository.repository GormProfileRepository.repository].
  unfold GormUserRepository.FindUserByUsernameOrEmail.
  set (answer := if GormAccounts.is_down (accounts d o) then _ else _).
  assert (A : GormAccounts.DB (snd answer) = d /\ GormAccounts.outages (snd answer) = tl o).
  { subst answer. destruct (GormAccounts.is_down (accounts d o)); split; reflexivity. }
  destruct answer as [[existing|e] [d0 o1]]. cbn [snd GormAccounts.DB GormAccounts.outages] in A.
  { left. eexists. split; [reflexivity|]. apply A. }
  cbn [snd GormAccounts.DB GormAccounts.outages] in A. destruct A as [-> ->].
  destruct (bcrypt.GenerateFromPassword password bcrypt.DefaultCost) as [hash|e'] eqn:G;
    [|left; eexists; split; reflexivity].
  unfold GormUserRepository.CreateUser.
  destruct (GormAccounts.is_down _) eqn:D1.
  { left. eexists. split; reflexivity. }
  cbn [GormAccounts.DB].
  destruct (gorm_accounts.Create_user _ d) as [[err u'] d1] eqn:C.
  apply Create_user_spec in C. cbn [User.ID] in C. rewrite N.eqb_refl in C.
  destruct C as [-> [Ok Ko]].
  destruct err as [err|].
  { left. eexists. split; [reflexivity|]. cbn. apply Ko. discriminate. }
  destruct (Ok eq_refl) as [-> U]. clear Ok Ko.
  cbn [gorm_accounts.with_user_ID User.ID User.Name User.Email User.Username User.Password] in *.
  unfold GormProfileRepository.CreateProfile, GormAccounts.next.
  cbn [GormAccounts.DB GormAccounts.outages].
  rewrite is_down_nth in D1. rewrite nth_tl in D1.
  rewrite is_down_nth. rewrite !nth_tl.
  destruct (nth 2 o false) eqn:D2.
  { (* the insert of the profile does not reach the database *)
    unfold GormUserRepository.DeleteUser, GormAccounts.next.
    cbn [GormAccounts.DB GormAccounts.outages]. rewrite is_down_nth. rewrite !nth_tl.
    destruct (nth 3 o false) eqn:D3.
    - right. exists hash. split; [reflexivity|]. cbv zeta. split; [exact U|].
      right. eexists. split; [reflexivity|]. split; [reflexivity|]. left. split; reflexivity.
    - unfold gorm_accounts.Delete_user. cbn [gorm_accounts.profiles gorm_accounts.users].
      match goal with |- context [existsb ?f ?l] => destruct (existsb f l) eqn:X end.
      + right. exists hash. split; [reflexivity|]. cbv zeta. split; [exact U|].
        right. eexists. split; [reflexivity|]. split; [reflexivity|]. right.
        apply existsb_exists in X. destruct X as [p [I X]]. exists p.
        split; [assumption|apply N.eqb_eq; assumption].
      + left. eexists. split; [reflexivity|]. cbn [snd GormAccounts.DB].
        rewrite users_without_the_new_one.
        * destruct d; reflexivity.
        * reflexivity.
        * intros row I. apply U. assumption. }
  destruct (gorm_accounts.Create_profile _ _) as [[err p'] d2] eqn:C.
  apply Create_profile_spec in C; [|reflexivity|reflexivity].
  cbn [gorm_accounts.with_profile_ID gorm_accounts.with_ProfileImage
       gorm_accounts.with_Skills Profile.ID Profile.UserID Profile.Name Profile.Email
       Profile.Username Profile.Location Profile.ShortIntro Profile.Bio
       Profile.ProfileImage Profile.SocialGithub Profile.SocialLinkedin
       Profile.SocialWebsite Profile.Skills gorm_accounts.users gorm_accounts.profiles
       gorm_accounts.skills] in C.
  destruct C as [-> [Ok Ko]].
  destruct err as [err|].
  - destruct (Ko ltac:(discriminate)) as [-> K]. clear Ok Ko.
    assert (Dangling : exists p, In p (gorm_accounts.profiles d) /\
                                 Profile.UserID p = gorm_accounts.New d).
    { destruct K as [[row [I [K|K]]]|K].
      - exfalso. revert K. apply New_not_a_profile. exact I.
      - exists row. split; assumption.
      - exfalso. apply K. cbn [gorm_accounts.users]. rewrite map_app. apply in_app_iff.
        right. left. reflexivity. }
    right. exists hash. split; [reflexivity|]. cbv zeta. split; [exact U|].
    right. unfold GormUserRepository.DeleteUser, GormAccounts.next.
    cbn [GormAccounts.DB GormAccounts.outages]. rewrite is_down_nth. rewrite !nth_tl.
    destruct (nth 3 o false) eqn:D3.
    + eexists. split; [reflexivity|]. split; [reflexivity|]. right. exact Dangling.
    + unfold gorm_accounts.Delete_user. cbn [gorm_accounts.profiles gorm_accounts.users].
      match goal with |- context [existsb ?f ?l] => destruct (existsb f l) eqn:X end.
      * eexists. split; [reflexivity|]. split; [reflexivity|]. right. exact Dangling.
      * exfalso. destruct Dangling as [p [I E]].
        pose proof (existsb_false _ _ X p I) as F. cbv beta in F.
        apply N.eqb_neq in F. apply F. assumption.
  - destruct (Ok eq_refl) as [-> P]. clear Ok Ko.
    right. exists hash. split; [reflexivity|]. cbv zeta. split; [exact U|].
    left. split.
    + unfold accounts. rewrite <- !skipn_tl. reflexivity.
    + exact P.
Qed.

(** X15. Whoever has registered can log in: after [RegisterUser] has
    succeeded, [LoginUser] with the same username and password gives
    the user that was registered (the database answering, and bcrypt
    accepting the hashes it makes), and the user's profile is the one
    that was registered, with the username and the email of the
    form. *)
Theorem registered_user_can_log_in username email password r user profile r' :
  bcrypt_accepts_its_own_hashes Bcrypt ->
  UserUseCase.RegisterUser username email password r = (inl (user, profile), r') ->
  fst (UserUseCase.LoginUser username password (accounts (GormAccounts.DB r') []))
  = inl user /\
  fst (GormProfileRepository.FindProfileByUserID (User.ID user)
         (accounts (GormAccounts.DB r') [])) = inl profile /\
  Profile.UserID profile = User.ID user /\
  Profile.Username profile = username /\ Profile.Email profile = email.
Proof.
  intros Law H. destruct r as [d o]. fold (accounts d o) in H.
  destruct (RegisterUser_cases username email password d o) as [[e [E _]]|[hash [G [U C]]]].
  { rewrite H in E. discriminate. }
  cbv zeta in U, C. destruct C as [[S P]|[e [E _]]]; [|rewrite H in E; discriminate].
  rewrite H in S. inversion S; subst; clear S H.
  unfold accounts.
  cbn [GormAccounts.DB User.ID Profile.UserID Profile.Username Profile.Email].
  split; [|split; [|repeat split]].
  - unfold UserUseCase.LoginUser, bind, ret.
    cbn [UserRepository.FindUserByUsername GormUserRepository.repository].
    unfold GormUserRepository.FindUserByUsername.
    cbn [GormAccounts.is_down GormAccounts.outages GormAccounts.DB gorm_accounts.users].
    rewrite First_only with
      (row := {| User.ID := gorm_accounts.New d; User.Name := ""; User.Email := "";
                 User.Username := username; User.Password := hash |}).
    + cbn [GormAccounts.found User.Password]. rewrite (Law _ _ _ G). reflexivity.
    + apply in_app_iff. right. left. reflexivity.
    + cbn [User.Username]. apply String.eqb_refl.
    + intros row' I C. apply in_app_iff in I. destruct I as [I|[<-|[]]]; [|reflexivity].
      exfalso. apply String.eqb_eq in C. destruct (U row' I) as [_ [_ N]]. apply N. assumption.
  - unfold GormProfileRepository.FindProfileByUserID.
    cbn [GormAccounts.is_down GormAccounts.outages GormAccounts.DB gorm_accounts.profiles].
    match goal with
    | |- context [gorm_accounts.profiles d ++ [?p]] =>
        rewrite First_only with (row := p); [reflexivity| | |]
    end.
    + apply in_app_iff. right. left. reflexivity.
    + cbn [Profile.UserID]. apply N.eqb_refl.
    + intros row' I C. apply in_app_iff in I. destruct I as [I|[<-|[]]]; [|reflexivity].
      exfalso. apply N.eqb_eq in C. destruct (P row' I) as [_ N]. apply N. assumption.
Qed.

(** X16. A registration that fails leaves the tables as they were, with
    one exception: when the insert of the profile has failed and the
    delete that is to take the new user back, the fourth call, does not
    get through to the database either, the new user stays in [users]
    without a profile.  The profiles that are there belong to users. *)
Theorem failed_registration_keeps_the_tables username email password r err r' :
  profiles_refer (GormAccounts.DB r) ->
  UserUseCase.RegisterUser username email password r = (inr err, r') ->
  gorm_accounts.profiles (GormAccounts.DB r') = gorm_accounts.profiles (GormAccounts.DB r) /\
  gorm_accounts.skills (GormAccounts.DB r') = gorm_accounts.skills (GormAccounts.DB r) /\
  (gorm_accounts.users (GormAccounts.DB r') = gorm_accounts.users (GormAccounts.DB r) \/
   nth 3 (GormAccounts.outages r) false = true /\
   exists user,
     gorm_accounts.users (GormAccounts.DB r')
     = gorm_accounts.users (GormAccounts.DB r) ++ [user] /\
     User.Username user = username).
Proof.
  intros FK H. destruct r as [d o]. fold (accounts d o) in H.
  cbn [GormAccounts.DB GormAccounts.outages] in *.
  destruct (RegisterUser_cases username email password d o) as [[e [_ E]]|[hash [G [U C]]]].
  { rewrite H in E. cbn [snd] in E. rewrite E.
    split; [reflexivity|]. split; [reflexivity|]. left. reflexivity. }
  cbv zeta in U, C. destruct C as [[S _]|[e [_ [E C]]]]; [rewrite H in S; discriminate|].
  rewrite H in E. cbn [snd] in E. rewrite E.
  cbn [gorm_accounts.profiles gorm_accounts.skills gorm_accounts.users].
  split; [reflexivity|]. split; [reflexivity|]. right.
  destruct C as [[D2 D3]|[p [I P]]].
  - split; [assumption|]. eexists. split; reflexivity.
  - exfalso. apply FK in I. rewrite P in I. apply in_map_iff in I.
    destruct I as [u [J I]]. revert J. apply New_not_a_user. assumption.
Qed.

(** X17. Only the first registration succeeds.  [RegisterUser] stores
    the user without an email, and [users.email] is unique: as long as
    the row of a registered user is in the table, every further
    registration fails, whatever username, email and password it
    brings, and leaves the tables as they are. *)
Theorem only_the_first_registration_succeeds username email password r user profile r' :
  UserUseCase.RegisterUser username email password r = (inl (user, profile), r') ->
  In user (gorm_accounts.users (GormAccounts.DB r')) /\
  User.Email user = "" /\
  forall later, In user (gorm_accounts.users (GormAccounts.DB later)) ->
    forall username' email' password',
      exists err',
        fst (UserUseCase.RegisterUser username' email' password' later) = inr err' /\
        GormAccounts.DB (snd (UserUseCase.RegisterUser username' email' password' later))
        = GormAccounts.DB later.
Proof.
  intros H. destruct r as [d o]. fold (accounts d o) in H.
  assert (R : In user (gorm_accounts.users (GormAccounts.DB r')) /\ User.Email user = "").
  { destruct (RegisterUser_cases username email password d o)
      as [[e [E _]]|[hash [G [U C]]]]; [rewrite H in E; discriminate|].
    cbv zeta in U, C. destruct C as [[S P]|[e [E _]]]; [|rewrite H in E; discriminate].
    rewrite H in S. inversion S; subst; clear S H.
    cbn [accounts GormAccounts.DB gorm_accounts.users User.Email].
    split; [|reflexivity]. apply in_app_iff. right. left. reflexivity. }
  destruct R as [I E]. split; [assumption|]. split; [assumption|].
  intros [d' o'] I' username' email' password'. fold (accounts d' o').
  cbn [GormAccounts.DB] in I'.
  destruct (RegisterUser_cases username' email' password' d' o')
    as [[e [F S]]|[hash [G [U C]]]].
  - exists e. split; [exact F|exact S].
  - exfalso. cbv zeta in U. destruct (U user I') as [_ [N _]]. apply N. assumption.
Qed.

(** X18. [LoginUser] writes nothing.  It lets in only a user of the table
    who has the username asked for and whose stored hash bcrypt accepts
    for the password; every refusal, the one for a database that does
    not answer too, carries the same message. *)
Theorem LoginUser_spec username password r :
  GormAccounts.DB (snd (UserUseCase.LoginUser username password r)) = GormAccounts.DB r /\
  match fst (UserUseCase.LoginUser username password r) with
  | inl user =>
      In user (gorm_accounts.users (GormAccounts.DB r)) /\
      User.Username user = username /\
      bcrypt.CompareHashAndPassword (User.Password user) password = None
  | inr err => err = "username or password is incorrect"
  end.
Proof.
  unfold UserUseCase.LoginUser, bind, ret.
  cbn [UserRepository.FindUserByUsername GormUserRepository.repository].
  unfold GormUserRepository.FindUserByUsername.
  destruct (GormAccounts.is_down r); [split; reflexivity|].
  destruct (gorm_accounts.First _ _ _) as [user|] eqn:F; cbn [GormAccounts.found];
    [|split; reflexivity].
  destruct (bcrypt.CompareHashAndPassword (User.Password user) password) eqn:C;
    [split; reflexivity|].
  split; [reflexivity|]. cbn [fst]. apply First_In in F. destruct F as [I E].
  split; [assumption|]. split; [apply String.eqb_eq; assumption|assumption].
Qed.

End Accounts.

Lemma registered_user_can_log_in_witness :
  bcrypt_accepts_its_own_hashes prefix_bcrypt /\
  exists user profile r',
    UserUseCase.RegisterUser (Bcrypt := prefix_bcrypt) "ada" "ada@example.org" "secret"
      (accounts gorm_accounts.empty []) = (inl (user, profile), r') /\
    fst (UserUseCase.LoginUser (Bcrypt := prefix_bcrypt) "ada" "secret"
           (accounts (GormAccounts.DB r') [])) = inl user /\
    fst (GormProfileRepository.FindProfileByUserID (User.ID user)
           (accounts (GormAccounts.DB r') [])) = inl profile /\
    Profile.UserID profile = User.ID user /\
    Profile.Username profile = "ada" /\ Profile.Email profile = "ada@example.org".
Proof.
  assert (Law : bcrypt_accepts_its_own_hashes prefix_bcrypt).
  { intros password cost hash H. cbn in H. inversion H; subst. cbn.
    rewrite String.eqb_refl. reflexivity. }
  split; [exact Law|].
  eexists. eexists. eexists. split; [vm_compute; reflexivity|].
  apply (registered_user_can_log_in (Bcrypt := prefix_bcrypt) "ada" "ada@example.org" "secret"
           (accounts gorm_accounts.empty [])); [exact Law|vm_compute; reflexivity].
Defined.

Lemma failed_registration_keeps_the_tables_witness :
  let r := accounts gorm_accounts.empty [false; false; true; true] in
  exists err r',
    profiles_refer (GormAccounts.DB r) /\
    UserUseCase.RegisterUser (Bcrypt := prefix_bcrypt) "ada" "ada@example.org" "secret" r
    = (inr err, r') /\
    map User.Username (gorm_accounts.users (GormAccounts.DB r')) = ["ada"] /\
    gorm_accounts.profiles (GormAccounts.DB r') = gorm_accounts.profiles (GormAccounts.DB r) /\
    gorm_accounts.skills (GormAccounts.DB r') = gorm_accounts.skills (GormAccounts.DB r) /\
    (gorm_accounts.users (GormAccounts.DB r') = gorm_accounts.users (GormAccounts.DB r) \/
     nth 3 (GormAccounts.outages r) false = true /\
     exists user,
       gorm_accounts.users (GormAccounts.DB r')
       = gorm_accounts.users (GormAccounts.DB r) ++ [user] /\
       User.Username user = "ada").
Proof.
  cbv zeta. eexists. eexists.
  assert (FK : profiles_refer (GormAccounts.DB (accounts gorm_accounts.empty
                                                  [false; false; true; true]))).
  { intros p I. destruct I. }
  split; [exact FK|]. split; [vm_compute; reflexivity|]. split; [reflexivity|].
  eapply (failed_registration_keeps_the_tables (Bcrypt := prefix_bcrypt)
            "ada" "ada@example.org" "secret" _ _ _ FK).
  vm_compute. reflexivity.
Defined.

Lemma only_the_first_registration_succeeds_witness :
  exists user profile r',
    UserUseCase.RegisterUser (Bcrypt := prefix_bcrypt) "ada" "ada@example.org" "secret"
      (accounts gorm_accounts.empty []) = (inl (user, profile), r') /\
    exists err',
      fst (UserUseCase.RegisterUser (Bcrypt := prefix_bcrypt) "bob" "bob@example.org" "hidden"
             (accounts (GormAccounts.DB r') [])) = inr err'.
Proof.
  eexists. eexists. eexists. split; [vm_compute; reflexivity|].
  destruct (only_the_first_registration_succeeds (Bcrypt := prefix_bcrypt)
              "ada" "ada@example.org" "secret" (accounts gorm_accounts.empty []) _ _ _
              eq_refl) as [I [_ L]].
  destruct (L _ I "bob" "bob@example.org" "hidden") as [err' [F _]].
  exists err'. exact F.
Defined.

(** *** Skills *)

Lemma FindUserSkill_found skillID userID d o skill r' :
  GormSkillRepository.FindUserSkill skillID userID (accounts d o) = (inl skill, r') ->
  r' = accounts d (tl o) /\ In skill (gorm_accounts.skills d) /\
  Skill.ID skill = skillID /\ owned_by d userID skill.
Proof.
  unfold GormSkillRepository.FindUserSkill.
  destruct (GormAccounts.is_down (accounts d o)); [discriminate|].
  cbn [accounts GormAccounts.DB].
  destruct (gorm_accounts.First _ _ _) as [s|] eqn:F; [|discriminate].
  cbn [GormAccounts.found]. intros H. inversion H; subst; clear H.
  split; [reflexivity|]. apply First_In in F. destruct F as [I C].
  apply andb_true_iff in C. destruct C as [C1 C2].
  split; [assumption|]. split; [apply N.eqb_eq; assumption|].
  apply existsb_exists in C1. destruct C1 as [p [J C1]].
  apply andb_true_iff in C1. destruct C1 as [C1 C3].
  exists p. split; [assumption|]. split; apply N.eqb_eq; assumption.
Qed.

Lemma FindUserSkill_error skillID userID d o err r' :
  GormSkillRepository.FindUserSkill skillID userID (accounts d o) = (inr err, r') ->
  r' = accounts d (tl o).
Proof.
  unfold GormSkillRepository.FindUserSkill.
  destruct (GormAccounts.is_down (accounts d o));
    intros H; inversion H; reflexivity.
Qed.

Lemma In_replaced {A : Type} (f : A -> bool) (new row : A) rows :
  In row rows -> f row = false -> In row (map (fun x => if f x then new else x) rows).
Proof.
  intros I F. apply in_map_iff. exists row. rewrite F. split; [reflexivity|assumption].
Qed.

(** What [Save_skill] and [Create_skill] leave of the rows. *)
Lemma Save_skill_keeps s d row :
  In row (gorm_accounts.skills d) -> Skill.ID row <> Skill.ID s ->
  In row (gorm_accounts.skills (snd (gorm_accounts.Save_skill s d))).
Proof.
  intros I N. unfold gorm_accounts.Save_skill, gorm_accounts.Create_skill.
  repeat match goal with
         | |- context [if ?b then _ else _] => destruct b eqn:?
         end; cbn [snd gorm_accounts.skills]; try assumption;
    try (apply in_app_iff; left; assumption).
  apply In_replaced; [assumption|]. apply N.eqb_neq. assumption.
Qed.

(** X19. The skills of others are safe: whatever [UpdateSkill] and
    [DeleteSkill] are asked by a user, a skill that is not the one
    named or does not belong to a profile of that user is in the table
    afterwards as it was before (identifiers of skills being unique),
    and neither call writes to the users or to the profiles. *)
Theorem skills_of_others_are_safe skillID userID name description r s :
  skill_keys (GormAccounts.DB r) ->
  In s (gorm_accounts.skills (GormAccounts.DB r)) ->
  ~ (Skill.ID s = skillID /\ owned_by (GormAccounts.DB r) userID s) ->
  let updated := GormAccounts.DB (snd (UserUseCase.UpdateSkill skillID userID name description r)) in
  let deleted := GormAccounts.DB (snd (UserUseCase.DeleteSkill skillID userID r)) in
  In s (gorm_accounts.skills updated) /\ In s (gorm_accounts.skills deleted) /\
  gorm_accounts.users updated = gorm_accounts.users (GormAccounts.DB r) /\
  gorm_accounts.profiles updated = gorm_accounts.profiles (GormAccounts.DB r) /\
  gorm_accounts.users deleted = gorm_accounts.users (GormAccounts.DB r) /\
  gorm_accounts.profiles deleted = gorm_accounts.profiles (GormAccounts.DB r).
Proof.
  intros K I Not updated deleted. subst updated deleted.
  destruct r as [d o]. fold (accounts d o). cbn [GormAccounts.DB] in *.
  unfold UserUseCase.UpdateSkill, UserUseCase.DeleteSkill, bind, ret.
  cbn [SkillRepository.FindUserSkill SkillRepository.UpdateSkill SkillRepository.DeleteSkill
       GormSkillRepository.repository].
  destruct (GormSkillRepository.FindUserSkill skillID userID (accounts d o))
    as [[s0|e] r1] eqn:F.
  - apply FindUserSkill_found in F. destruct F as [-> [I0 [E0 Own]]].
    assert (Other : Skill.ID s <> Skill.ID s0).
    { intros E. apply Not. rewrite (NoDup_map_eq Skill.ID _ s s0 K I I0 E).
      split; assumption. }
    unfold GormSkillRepository.UpdateSkill, GormSkillRepository.DeleteSkill.
    destruct (GormAccounts.is_down (accounts d (tl o))).
    { cbn [snd GormAccounts.next GormAccounts.DB accounts]. repeat split; assumption. }
    cbn [accounts GormAccounts.DB].
    match goal with
    | |- context [gorm_accounts.Save_skill ?x d] =>
        pose proof (Save_skill_keeps x d s I Other) as Kept;
        assert (Same : gorm_accounts.users (snd (gorm_accounts.Save_skill x d))
                       = gorm_accounts.users d /\
                       gorm_accounts.profiles (snd (gorm_accounts.Save_skill x d))
                       = gorm_accounts.profiles d);
        [|destruct (gorm_accounts.Save_skill x d) as [[err s'] d'] eqn:Sv]
    end.
    { unfold gorm_accounts.Save_skill, gorm_accounts.Create_skill.
      repeat match goal with
             | |- context [if ?b then _ else _] => destruct b
             end; split; reflexivity. }
    cbn [snd] in Kept, Same. destruct Same as [Su Sp].
    assert (D : In s (filter (fun x => negb (Skill.ID x =? Skill.ID s0)%N)
                        (gorm_accounts.skills d))).
    { apply filter_In. split; [assumption|]. apply negb_true_iff. apply N.eqb_neq.
      assumption. }
    destruct err; cbn [snd GormAccounts.next GormAccounts.DB gorm_accounts.Delete_skill
                       gorm_accounts.skills gorm_accounts.users gorm_accounts.profiles];
      repeat split; assumption.
  - apply FindUserSkill_error in F. subst r1.
    cbn [snd accounts GormAccounts.DB]. repeat split; assumption.
Qed.

Lemma skills_of_others_are_safe_witness :
  let s := {| Skill.ID := 7%N; Skill.OwnerID := 4%N; Skill.Name := "Go";
              Skill.Description := "" |} in
  let r := accounts two_accounts [] in
  skill_keys (GormAccounts.DB r) /\
  In s (gorm_accounts.skills (GormAccounts.DB r)) /\
  ~ (Skill.ID s = 7%N /\ owned_by (GormAccounts.DB r) 1%N s) /\
  In s (gorm_accounts.skills
          (GormAccounts.DB (snd (UserUseCase.UpdateSkill 7%N 1%N "Rust" "" r)))) /\
  In s (gorm_accounts.skills (GormAccounts.DB (snd (UserUseCase.DeleteSkill 7%N 1%N r)))).
Proof.
  cbv zeta.
  assert (K : skill_keys (GormAccounts.DB (accounts two_accounts []))).
  { repeat constructor. intros []. }
  assert (I : In {| Skill.ID := 7%N; Skill.OwnerID := 4%N; Skill.Name := "Go";
                    Skill.Description := "" |}
                (gorm_accounts.skills (GormAccounts.DB (accounts two_accounts [])))).
  { left. reflexivity. }
  assert (Not : ~ (Skill.ID {| Skill.ID := 7%N; Skill.OwnerID := 4%N; Skill.Name := "Go";
                               Skill.Description := "" |} = 7%N /\
                   owned_by (GormAccounts.DB (accounts two_accounts [])) 1%N
                     {| Skill.ID := 7%N; Skill.OwnerID := 4%N; Skill.Name := "Go";
                        Skill.Description := "" |})).
  { intros [_ [p [[<-|[<-|[]]] [U O]]]]; cbn in U, O; discriminate. }
  split; [exact K|]. split; [exact I|]. split; [exact Not|].
  destruct (skills_of_others_are_safe 7%N 1%N "Rust" "" _ _ K I Not) as [U [D _]].
  split; [exact U|exact D].
Defined.

Lemma Create_skill_spec s d s' d' :
  gorm_accounts.Create_skill s d = (None, s', d') ->
  s' = (if (Skill.ID s =? uuid.Nil)%N then gorm_accounts.with_skill_ID s (gorm_accounts.New d)
        else s) /\
  d' = {| gorm_accounts.users := gorm_accounts.users d;
          gorm_accounts.profiles := gorm_accounts.profiles d;
          gorm_accounts.skills := gorm_accounts.skills d ++ [s'] |} /\
  forall row, In row (gorm_accounts.skills d) -> Skill.ID row <> Skill.ID s'.
Proof.
  unfold gorm_accounts.Create_skill.
  set (v := if (Skill.ID s =? uuid.Nil)%N then _ else s).
  match goal with |- context [existsb ?f ?l] => destruct (existsb f l) eqn:X end;
    [discriminate|].
  match goal with |- context [negb ?b] => destruct b end; cbn [negb]; [|discriminate].
  intros H. inversion H; subst; clear H. split; [reflexivity|]. split; [reflexivity|].
  intros row I. pose proof (existsb_false _ _ X row I) as F. cbv beta in F.
  apply N.eqb_neq. assumption.
Qed.

(** What [Save_skill] does when it accepts the row: afterwards the
    table has the row, and no other row with its identifier. *)
Lemma Save_skill_spec s d s' d' :
  gorm_accounts.Save_skill s d = (None, s', d') ->
  gorm_accounts.users d' = gorm_accounts.users d /\
  gorm_accounts.profiles d' = gorm_accounts.profiles d /\
  Skill.OwnerID s' = Skill.OwnerID s /\ Skill.Name s' = Skill.Name s /\
  Skill.Description s' = Skill.Description s /\
  In s' (gorm_accounts.skills d') /\
  forall row, In row (gorm_accounts.skills d') -> Skill.ID row = Skill.ID s' -> row = s'.
Proof.
  unfold gorm_accounts.Save_skill. destruct (Skill.ID s =? uuid.Nil)%N eqn:Z.
  { intros H. apply Create_skill_spec in H. rewrite Z in H. destruct H as [-> [-> U]].
    cbn [gorm_accounts.users gorm_accounts.profiles gorm_accounts.skills
         gorm_accounts.with_skill_ID Skill.OwnerID Skill.Name Skill.Description].
    repeat split; try reflexivity.
    - apply in_app_iff. right. left. reflexivity.
    - intros row I E. apply in_app_iff in I. destruct I as [I|[<-|[]]]; [|reflexivity].
      exfalso. revert E. apply U. assumption. }
  match goal with |- context [negb ?b] => destruct b end; cbn [negb]; [|discriminate].
  match goal with |- context [existsb ?f ?l] => destruct (existsb f l) eqn:X end;
    intros H; inversion H; subst; clear H;
    cbn [gorm_accounts.users gorm_accounts.profiles gorm_accounts.skills];
    repeat split; try reflexivity.
  - apply existsb_exists in X. destruct X as [row [I E]]. apply in_map_iff.
    exists row. rewrite E. split; [reflexivity|assumption].
  - intros row I E. apply in_map_iff in I. destruct I as [x [F I]].
    destruct (Skill.ID x =? Skill.ID s')%N eqn:Ex; [symmetry; assumption|].
    subst row. apply N.eqb_neq in Ex. contradiction.
  - apply in_app_iff. right. left. reflexivity.
  - intros row I E. apply in_app_iff in I. destruct I as [I|[<-|[]]]; [|reflexivity].
    pose proof (existsb_false _ _ X row I) as F. cbv beta in F.
    apply N.eqb_neq in F. contradiction.
Qed.

Lemma owned_by_same_profiles d d' userID s s' :
  gorm_accounts.profiles d' = gorm_accounts.profiles d ->
  Skill.OwnerID s' = Skill.OwnerID s ->
  owned_by d userID s -> owned_by d' userID s'.
Proof.
  intros P O [p [I [U E]]]. exists p. rewrite P, O. repeat split; assumption.
Qed.

Lemma FindSkillByID_up id d :
  fst (GormSkillRepository.FindSkillByID id (accounts d []))
  = GormAccounts.found
      (gorm_accounts.First Skill.ID (fun s => (Skill.ID s =? id)%N) (gorm_accounts.skills d)).
Proof. reflexivity. Qed.

(** X20. A skill that [CreateSkill] has made carries the name and the
    description given and belongs to the profile of the user; the
    owner check of [UpdateSkill] and [DeleteSkill] finds it for this
    user. *)
Theorem created_skill_belongs_to_the_user userID name description r skill r' :
  UserUseCase.CreateSkill userID name description r = (inl skill, r') ->
  In skill (gorm_accounts.skills (GormAccounts.DB r')) /\
  Skill.Name skill = name /\ Skill.Description skill = description /\
  owned_by (GormAccounts.DB r') userID skill /\
  fst (GormSkillRepository.FindUserSkill (Skill.ID skill) userID
         (accounts (GormAccounts.DB r') [])) = inl skill.
Proof.
  destruct r as [d o].
  unfold UserUseCase.CreateSkill, bind, ret.
  cbn [ProfileRepository.FindProfileByUserID SkillRepository.CreateSkill
       GormProfileRepository.repository GormSkillRepository.repository].
  unfold GormProfileRepository.FindProfileByUserID.
  destruct (GormAccounts.is_down _); [discriminate|]. cbn [GormAccounts.DB].
  destruct (gorm_accounts.First _ _ _) as [profile|] eqn:F;
    cbn [GormAccounts.found option_map gorm_accounts.with_Skills Profile.ID];
    [|discriminate].
  apply First_In in F. destruct F as [Ip Up]. apply N.eqb_eq in Up.
  unfold GormSkillRepository.CreateSkill, GormAccounts.next.
  destruct (GormAccounts.is_down _); [discriminate|]. cbn [GormAccounts.DB].
  destruct (gorm_accounts.Create_skill _ d) as [[err s'] d'] eqn:C.
  destruct err; [discriminate|]. intros H. inversion H; subst; clear H.
  apply Create_skill_spec in C. cbn [Skill.ID] in C. rewrite N.eqb_refl in C.
  destruct C as [-> [-> U]].
  cbn [GormAccounts.DB gorm_accounts.skills gorm_accounts.with_skill_ID Skill.ID
       Skill.Name Skill.Description Skill.OwnerID] in *.
  assert (Own : owned_by
                  {| gorm_accounts.users := gorm_accounts.users d;
                     gorm_accounts.profiles := gorm_accounts.profiles d;
                     gorm_accounts.skills :=
                       gorm_accounts.skills d ++
                       [{| Skill.ID := gorm_accounts.New d; Skill.OwnerID := Profile.ID profile;
                           Skill.Name := name; Skill.Description := description |}] |}
                  (Profile.UserID profile)
                  {| Skill.ID := gorm_accounts.New d; Skill.OwnerID := Profile.ID profile;
                     Skill.Name := name; Skill.Description := description |}).
  { exists profile. repeat split. assumption. }
  split; [apply in_app_iff; right; left; reflexivity|].
  split; [reflexivity|]. split; [reflexivity|]. split; [exact Own|].
  unfold GormSkillRepository.FindUserSkill.
  cbn [accounts GormAccounts.is_down GormAccounts.outages GormAccounts.DB
       gorm_accounts.skills gorm_accounts.profiles fst].
  rewrite First_only with
    (row := {| Skill.ID := gorm_accounts.New d; Skill.OwnerID := Profile.ID profile;
               Skill.Name := name; Skill.Description := description |}); [reflexivity| | |].
  - apply in_app_iff. right. left. reflexivity.
  - cbn [Skill.ID Skill.OwnerID]. rewrite N.eqb_refl, andb_true_r.
    apply existsb_exists. exists profile. split; [assumption|].
    rewrite !N.eqb_refl. reflexivity.
  - intros row I C. apply in_app_iff in I. destruct I as [I|[<-|[]]]; [|reflexivity].
    apply andb_true_iff in C. destruct C as [_ C]. apply N.eqb_eq in C.
    exfalso. revert C. apply U. assumption.
Qed.

(** X21. When [DeleteSkill] reports no error, the skill named was in the
    table and belonged to a profile of the user, and afterwards no row
    of [skills] has its identifier: looking it up gives "record not
    found". *)
Theorem deleted_skill_is_gone skillID userID r r' :
  UserUseCase.DeleteSkill skillID userID r = (None, r') ->
  (exists s, In s (gorm_accounts.skills (GormAccounts.DB r)) /\
             Skill.ID s = skillID /\ owned_by (GormAccounts.DB r) userID s) /\
  (forall s, In s (gorm_accounts.skills (GormAccounts.DB r')) ->
             In s (gorm_accounts.skills (GormAccounts.DB r)) /\ Skill.ID s <> skillID) /\
  fst (GormSkillRepository.FindSkillByID skillID (accounts (GormAccounts.DB r') []))
  = inr gorm_accounts.ErrRecordNotFound.
Proof.
  destruct r as [d o]. fold (accounts d o).
  unfold UserUseCase.DeleteSkill, bind, ret.
  cbn [SkillRepository.FindUserSkill SkillRepository.DeleteSkill
       GormSkillRepository.repository].
  destruct (GormSkillRepository.FindUserSkill skillID userID (accounts d o))
    as [[s0|e] r1] eqn:F; [|discriminate].
  apply FindUserSkill_found in F. destruct F as [-> [I0 [E0 Own]]].
  unfold GormSkillRepository.DeleteSkill.
  destruct (GormAccounts.is_down _); [discriminate|].
  intros H. inversion H; subst; clear H.
  cbn [accounts GormAccounts.DB GormAccounts.next gorm_accounts.Delete_skill
       gorm_accounts.skills].
  assert (Gone : forall s,
            In s (filter (fun s => negb (Skill.ID s =? Skill.ID s0)%N) (gorm_accounts.skills d)) ->
            In s (gorm_accounts.skills d) /\ Skill.ID s <> Skill.ID s0).
  { intros s I. apply filter_In in I. destruct I as [I C]. split; [assumption|].
    apply negb_true_iff in C. apply N.eqb_neq. assumption. }
  split; [exists s0; repeat split; assumption|]. split; [exact Gone|].
  rewrite FindSkillByID_up. cbn [gorm_accounts.skills].
  destruct (gorm_accounts.First _ _ _) as [s|] eqn:F; [|reflexivity].
  exfalso. apply First_In in F. destruct F as [I C]. apply N.eqb_eq in C.
  apply Gone in I. destruct I as [_ I]. contradiction.
Qed.

(** X22. When [UpdateSkill] succeeds, the skill it returns has the new
    name and description and still belongs to the user, and it is what
    a lookup by its identifier gives afterwards. *)
Theorem updated_skill_is_found skillID userID name description r skill r' :
  UserUseCase.UpdateSkill skillID userID name description r = (inl skill, r') ->
  Skill.Name skill = name /\ Skill.Description skill = description /\
  owned_by (GormAccounts.DB r') userID skill /\
  fst (GormSkillRepository.FindSkillByID (Skill.ID skill) (accounts (GormAccounts.DB r') []))
  = inl skill.
Proof.
  destruct r as [d o]. fold (accounts d o).
  unfold UserUseCase.UpdateSkill, bind, ret.
  cbn [SkillRepository.FindUserSkill SkillRepository.UpdateSkill
       GormSkillRepository.repository].
  destruct (GormSkillRepository.FindUserSkill skillID userID (accounts d o))
    as [[s0|e] r1] eqn:F; [|discriminate].
  apply FindUserSkill_found in F. destruct F as [-> [I0 [E0 Own]]].
  unfold GormSkillRepository.UpdateSkill.
  destruct (GormAccounts.is_down _); [discriminate|]. cbn [accounts GormAccounts.DB].
  destruct (gorm_accounts.Save_skill _ d) as [[err s'] d'] eqn:Sv.
  destruct err; [discriminate|]. intros H. inversion H; subst; clear H.
  apply Save_skill_spec in Sv.
  cbn [Skill.OwnerID Skill.Name Skill.Description GormAccounts.next GormAccounts.DB] in *.
  destruct Sv as [_ [P [O [N [D [I U]]]]]].
  split; [assumption|]. split; [assumption|].
  split; [apply (owned_by_same_profiles d d' _ s0 skill P O Own)|].
  rewrite FindSkillByID_up. rewrite First_only with (row := skill); [reflexivity| | |].
  - assumption.
  - apply N.eqb_refl.
  - intros row J C. apply N.eqb_eq in C. apply U; assumption.
Qed.

Lemma created_skill_belongs_to_the_user_witness :
  exists skill r',
    UserUseCase.CreateSkill 2%N "Rust" "systems" (accounts two_accounts []) = (inl skill, r') /\
    Skill.OwnerID skill = 4%N /\
    fst (GormSkillRepository.FindUserSkill (Skill.ID skill) 2%N
           (accounts (GormAccounts.DB r') [])) = inl skill.
Proof.
  eexists. eexists. split; [vm_compute; reflexivity|]. split; [reflexivity|].
  apply (created_skill_belongs_to_the_user 2%N "Rust" "systems" (accounts two_accounts []) _ _
           eq_refl).
Defined.

Lemma deleted_skill_is_gone_witness :
  exists r',
    UserUseCase.DeleteSkill 7%N 2%N (accounts two_accounts []) = (None, r') /\
    fst (GormSkillRepository.FindSkillByID 7%N (accounts (GormAccounts.DB r') []))
    = inr gorm_accounts.ErrRecordNotFound.
Proof.
  eexists. split; [vm_compute; reflexivity|].
  apply (deleted_skill_is_gone 7%N 2%N (accounts two_accounts []) _ eq_refl).
Defined.

Lemma updated_skill_is_found_witness :
  exists skill r',
    UserUseCase.UpdateSkill 7%N 2%N "Golang" "since 2012" (accounts two_accounts [])
    = (inl skill, r') /\
    Skill.Name skill = "Golang" /\
    fst (GormSkillRepository.FindSkillByID 7%N (accounts (GormAccounts.DB r') [])) = inl skill.
Proof.
  eexists. eexists. split; [vm_compute; reflexivity|].
  destruct (updated_skill_is_found 7%N 2%N "Golang" "since 2012" (accounts two_accounts []) _ _
              eq_refl) as [N [_ [_ F]]].
  split; [exact N|exact F].
Defined.

(** *** The account form *)

Lemma First_replaced {A : Type} (key : A -> uuid.UUID) condition (rows : list A) (id : uuid.UUID)
    (old new : A) :
  In old rows -> key old = id -> condition new = true ->
  (forall row, In row rows -> key row <> id -> condition row = false) ->
  gorm_accounts.First key condition
    (map (fun row => if (key row =? id)%N then new else row) rows) = Some new.
Proof.
  intros I K C U. apply First_only.
  - apply in_map_iff. exists old. rewrite K, N.eqb_refl. split; [reflexivity|assumption].
  - assumption.
  - intros row' J C'. apply in_map_iff in J. destruct J as [x [E J]].
    destruct (key x =? id)%N eqn:Kx; [symmetry; assumption|].
    subst row'. apply N.eqb_neq in Kx. rewrite (U x J Kx) in C'. discriminate.
Qed.

Lemma existsb_true {A : Type} (f : A -> bool) rows row :
  In row rows -> f row = true -> existsb f rows = true.
Proof. intros I F. apply existsb_exists. exists row. split; assumption. Qed.

(** A second profile for a user is refused. *)
Lemma Create_profile_refused p d old :
  In old (gorm_accounts.profiles d) -> Profile.UserID old = Profile.UserID p ->
  fst (fst (gorm_accounts.Create_profile p d)) <> None.
Proof.
  intros I E. unfold gorm_accounts.Create_profile. cbv zeta.
  match goal with |- context [existsb ?f ?l] => rewrite (existsb_true f l old I) end.
  - discriminate.
  - apply orb_true_iff. right. apply N.eqb_eq. rewrite E.
    repeat match goal with |- context [if ?b then _ else _] => destruct b end; reflexivity.
Qed.

(** When [Save_profile] accepts a row for a user who has a profile
    under the same identifier, that profile is written over, and it is
    the only one the user has. *)
Lemma Save_profile_accepted p d old p1 d1 :
  In old (gorm_accounts.profiles d) ->
  Profile.ID p = Profile.ID old -> Profile.UserID p = Profile.UserID old ->
  gorm_accounts.Save_profile p d = (None, p1, d1) ->
  p1 = p /\
  d1 = {| gorm_accounts.users := gorm_accounts.users d;
          gorm_accounts.profiles :=
            map (fun row => if (Profile.ID row =? Profile.ID old)%N
                            then gorm_accounts.with_Skills p [] else row)
              (gorm_accounts.profiles d);
          gorm_accounts.skills := gorm_accounts.skills d |} /\
  (forall row, In row (gorm_accounts.profiles d) ->
     Profile.UserID row = Profile.UserID old -> Profile.ID row = Profile.ID old).
Proof.
  intros I Ei Eu. unfold gorm_accounts.Save_profile.
  destruct (Profile.ID p =? uuid.Nil)%N.
  { intros H. exfalso. apply (Create_profile_refused p d old I (eq_sym Eu)).
    rewrite H. reflexivity. }
  rewrite Ei, Eu.
  match goal with |- context [existsb ?f ?l] => destruct (existsb f l) eqn:X end;
    [discriminate|].
  match goal with |- context [negb ?b] => destruct b end; cbn [negb]; [|discriminate].
  rewrite (existsb_true (fun row => (Profile.ID row =? Profile.ID old)%N) _ old I
             (N.eqb_refl _)).
  intros H. inversion H; subst; clear H. split; [reflexivity|]. split; [reflexivity|].
  intros row J U. pose proof (existsb_false _ _ X row J) as F. cbv beta in F.
  apply andb_false_iff in F. destruct F as [F|F].
  - apply negb_false_iff in F. apply N.eqb_eq. assumption.
  - apply N.eqb_neq in F. contradiction.
Qed.

(** A refused [Save_user] changes no table. *)
Lemma Save_user_refused u d e u1 d1 :
  gorm_accounts.Save_user u d = (Some e, u1, d1) -> d1 = d.
Proof.
  unfold gorm_accounts.Save_user, gorm_accounts.Create_user. cbv zeta.
  repeat match goal with |- context [if ?b then _ else _] => destruct b end;
    intros H; inversion H; reflexivity.
Qed.

(** When [Save_user] accepts a row for a user who is in the table, the
    row of that user is written over. *)
Lemma Save_user_accepted u d user u1 d1 :
  In user (gorm_accounts.users d) ->
  User.ID user = User.ID u -> User.Email user = User.Email u ->
  gorm_accounts.Save_user u d = (None, u1, d1) ->
  u1 = u /\
  d1 = {| gorm_accounts.users :=
            map (fun row => if (User.ID row =? User.ID u)%N then u else row)
              (gorm_accounts.users d);
          gorm_accounts.profiles := gorm_accounts.profiles d;
          gorm_accounts.skills := gorm_accounts.skills d |}.
Proof.
  intros I Ei Ee. unfold gorm_accounts.Save_user.
  destruct (User.ID u =? uuid.Nil)%N eqn:Z.
  { unfold gorm_accounts.Create_user. cbv zeta. rewrite Z.
    match goal with |- context [existsb ?f ?l] => rewrite (existsb_true f l user I) end;
      [discriminate|].
    cbn [gorm_accounts.with_user_ID User.Email]. rewrite Ee, String.eqb_refl.
    rewrite orb_true_r. reflexivity. }
  match goal with |- context [existsb ?f ?l] => destruct (existsb f l) eqn:X end;
    [discriminate|].
  rewrite (existsb_true (fun row => (User.ID row =? User.ID u)%N) _ user I)
    by (apply N.eqb_eq; assumption).
  intros H. inversion H; subst; clear H. split; reflexivity.
Qed.

Lemma FindUserByID_up id d :
  fst (GormUserRepository.FindUserByID id (accounts d []))
  = GormAccounts.found
      (gorm_accounts.First User.ID (fun u => (User.ID u =? id)%N) (gorm_accounts.users d)).
Proof. reflexivity. Qed.

Lemma FindProfileByUserID_up userID d :
  fst (GormProfileRepository.FindProfileByUserID userID (accounts d []))
  = GormAccounts.found
      (option_map (fun row => gorm_accounts.with_Skills row [])
         (gorm_accounts.First Profile.ID (fun p => (Profile.UserID p =? userID)%N)
            (gorm_accounts.profiles d))).
Proof. reflexivity. Qed.

(** [UpdateUserAccount], whatever the database does: it stops before
    it has written anything, or it has written the profile; then it
    has the username to write, and that write fails or succeeds. *)
Lemma UpdateUserAccount_cases userID profileData profileImage r :
  let run := UserUseCase.UpdateUserAccount userID profileData profileImage r in
  let d := GormAccounts.DB r in
  (GormAccounts.DB (snd run) = d /\
   (fst run = inr "user not found" \/ fst run = inr "profile not found" \/
    exists e, fst run = inr (UserUseCase.Errorf "failed to update profile" e))) \/
  exists user old,
    gorm_accounts.First User.ID (fun u => (User.ID u =? userID)%N) (gorm_accounts.users d)
    = Some user /\
    gorm_accounts.First Profile.ID (fun p => (Profile.UserID p =? userID)%N)
      (gorm_accounts.profiles d) = Some old /\
    let profile := gorm_accounts.with_Skills old [] in
    let p' := account_of_form profile profileData profileImage in
    let d1 :=
      {| gorm_accounts.users := gorm_accounts.users d;
         gorm_accounts.profiles :=
           map (fun row => if (Profile.ID row =? Profile.ID profile)%N then p' else row)
             (gorm_accounts.profiles d);
         gorm_accounts.skills := gorm_accounts.skills d |} in
    gorm_accounts.First Profile.ID (fun p => (Profile.UserID p =? userID)%N)
      (gorm_accounts.profiles d1) = Some p' /\
    ((User.Username user = map_index profileData "username" /\
      fst run = inl p' /\ GormAccounts.DB (snd run) = d1) \/
     (User.Username user <> map_index profileData "username" /\
      ((exists e, fst run = inr (UserUseCase.Errorf "failed to update username in User table" e)
                  /\ GormAccounts.DB (snd run) = d1) \/
       (fst run = inl p' /\
        GormAccounts.DB (snd run)
        = {| gorm_accounts.users :=
               map (fun row => if (User.ID row =? userID)%N
                               then renamed user (map_index profileData "username") else row)
                 (gorm_accounts.users d);
             gorm_accounts.profiles := gorm_accounts.profiles d1;
             gorm_accounts.skills := gorm_accounts.skills d |})))).
Proof.
  cbv zeta. destruct r as [d o]. cbn [GormAccounts.DB].
  unfold UserUseCase.UpdateUserAccount, bind, ret.
  cbn [UserRepository.FindUserByID UserRepository.UpdateUser
       ProfileRepository.FindProfileByUserID ProfileRepository.UpdateProfile
       GormUserRepository.repository GormProfileRepository.repository].
  unfold GormUserRepository.FindUserByID, GormAccounts.next.
  cbn [GormAccounts.DB GormAccounts.outages].
  destruct (GormAccounts.is_down _); [left; split; [reflexivity|left; reflexivity]|].
  destruct (gorm_accounts.First User.ID _ _) as [user|] eqn:Fu; cbn [GormAccounts.found];
    [|left; split; [reflexivity|left; reflexivity]].
  unfold GormProfileRepository.FindProfileByUserID, GormAccounts.next.
  cbn [GormAccounts.DB GormAccounts.outages].
  destruct (GormAccounts.is_down _);
    [left; split; [reflexivity|right; left; reflexivity]|].
  destruct (gorm_accounts.First Profile.ID _ _) as [old|] eqn:Fp;
    cbn [GormAccounts.found option_map];
    [|left; split; [reflexivity|right; left; reflexivity]].
  destruct (First_In _ _ _ _ Fu) as [Iu Cu]. apply N.eqb_eq in Cu.
  destruct (First_In _ _ _ _ Fp) as [Ip Cp]. apply N.eqb_eq in Cp.
  set (profile := gorm_accounts.with_Skills old []).
  assert (Eid : Profile.ID profile = Profile.ID old) by reflexivity.
  assert (Euid : Profile.UserID profile = Profile.UserID old) by reflexivity.
  replace (if negb (profileImage =? "") then profileImage else Profile.ProfileImage profile)
    with (if (profileImage =? "") then Profile.ProfileImage profile else profileImage)
    by (destruct (profileImage =? ""); reflexivity).
  change (Profile.Skills profile) with (@nil Skill.t).
  fold (account_of_form profile profileData profileImage).
  set (p' := account_of_form profile profileData profileImage).
  unfold GormProfileRepository.UpdateProfile, GormAccounts.next.
  cbn [GormAccounts.DB GormAccounts.outages].
  destruct (GormAccounts.is_down _);
    [left; split; [reflexivity|right; right; eexists; reflexivity]|].
  destruct (gorm_accounts.Save_profile p' d) as [[e1 p1] d1] eqn:Sp.
  destruct e1 as [e1|].
  { left. cbn [fst snd GormAccounts.DB].
    assert (d1 = d).
    { revert Sp. unfold gorm_accounts.Save_profile, gorm_accounts.Create_profile. cbv zeta.
      repeat match goal with |- context [if ?b then _ else _] => destruct b end;
        intros H; inversion H; reflexivity. }
    subst d1. split; [reflexivity|right; right; eexists; reflexivity]. }
  apply (Save_profile_accepted p' d old p1 d1 Ip eq_refl eq_refl) in Sp.
  destruct Sp as [-> [-> One]].
  change (gorm_accounts.with_Skills p' []) with p'.
  right. exists user, old.
  split; [reflexivity|]. split; [reflexivity|].
  cbv zeta. fold profile. fold p'. rewrite Eid.
  set (d1 := {| gorm_accounts.users := gorm_accounts.users d;
                gorm_accounts.profiles := map _ (gorm_accounts.profiles d);
                gorm_accounts.skills := gorm_accounts.skills d |}).
  split.
  { subst d1. cbn [gorm_accounts.profiles].
    apply (First_replaced Profile.ID _ (gorm_accounts.profiles d) (Profile.ID old) old p').
    - assumption.
    - reflexivity.
    - subst p'. cbn [account_of_form Profile.UserID]. rewrite Euid, Cp. apply N.eqb_refl.
    - intros row J K. apply N.eqb_neq. intros E. apply K. apply One; [assumption|].
      congruence. }
  change (Profile.Username p') with (map_index profileData "username").
  destruct (String.eqb_spec (User.Username user) (map_index profileData "username")) as [E|N];
    cbn [negb].
  { left. split; [assumption|]. split; reflexivity. }
  right. split; [assumption|].
  fold (renamed user (map_index profileData "username")).
  unfold GormUserRepository.UpdateUser, GormAccounts.next.
  cbn [GormAccounts.DB GormAccounts.outages].
  destruct (GormAccounts.is_down _); [left; eexists; split; reflexivity|].
  destruct (gorm_accounts.Save_user _ d1) as [[e2 u2] d2] eqn:Su.
  destruct e2 as [e2|].
  - left. apply Save_user_refused in Su. subst d2. eexists. split; reflexivity.
  - right. apply (Save_user_accepted _ d1 user) in Su;
      [|assumption|reflexivity|reflexivity].
    destruct Su as [-> ->]. cbn [fst snd GormAccounts.DB renamed User.ID].
    rewrite Cu. split; reflexivity.
Qed.

(** X23.  The account form does not change the two tables together:
    the profile is written first, the username in [users] after it.
    Whenever [UpdateUserAccount] fails with "failed to update username
    in User table" (as it does when the username asked for is that of
    another user), [users] and [skills] are as before, but the profile
    has been written: the user's profile now carries the fields of the
    form, and with them a username that is not the user's.  The values
    of the form are taken within the 255 bytes of the columns, a limit
    that the tables here do not keep. *)
Theorem UpdateUserAccount_writes_the_profile_first userID profileData profileImage r e r' :
  Forall (fun field => fits (snd field)) profileData -> fits profileImage ->
  UserUseCase.UpdateUserAccount userID profileData profileImage r
  = (inr (UserUseCase.Errorf "failed to update username in User table" e), r') ->
  exists user profile,
    fst (GormUserRepository.FindUserByID userID (accounts (GormAccounts.DB r) [])) = inl user /\
    fst (GormProfileRepository.FindProfileByUserID userID (accounts (GormAccounts.DB r) []))
    = inl profile /\
    gorm_accounts.users (GormAccounts.DB r') = gorm_accounts.users (GormAccounts.DB r) /\
    gorm_accounts.skills (GormAccounts.DB r') = gorm_accounts.skills (GormAccounts.DB r) /\
    fst (GormUserRepository.FindUserByID userID (accounts (GormAccounts.DB r') [])) = inl user /\
    fst (GormProfileRepository.FindProfileByUserID userID (accounts (GormAccounts.DB r') []))
    = inl (account_of_form profile profileData profileImage) /\
    Profile.Username (account_of_form profile profileData profileImage)
    = map_index profileData "username" /\
    User.Username user <> map_index profileData "username".
Proof.
  intros _ _ H.
  destruct (UpdateUserAccount_cases userID profileData profileImage r)
    as [[_ [E|[E|[e' E]]]]|[user [old [Fu [Fp [Fp' C]]]]]].
  - rewrite H in E. cbn in E. discriminate.
  - rewrite H in E. cbn in E. discriminate.
  - rewrite H in E. cbn in E. discriminate.
  - cbv zeta in Fp', C. cbn [gorm_accounts.profiles] in Fp'.
    exists user, (gorm_accounts.with_Skills old []).
    rewrite !FindUserByID_up, !FindProfileByUserID_up, Fu, Fp.
    destruct C as [[_ [E _]]|[N [[e' [_ D]]|[E _]]]].
    + rewrite H in E. discriminate.
    + rewrite H in D. cbn [snd] in D. rewrite D.
      cbn [gorm_accounts.users gorm_accounts.skills gorm_accounts.profiles].
      rewrite Fp', Fu.
      repeat split; try reflexivity. assumption.
    + rewrite H in E. discriminate.
Qed.

(** X24.  The account form, when it succeeds: the profile that
    [UpdateUserAccount] returns is the user's profile as it was with
    the seven fields of the form set, the image replaced only if a new
    one came, and location and LinkedIn kept; afterwards that profile
    is the one found for the user, the user carries the username of
    the form (and is otherwise as before), and the skills are
    untouched.  The values of the form are taken within the 255 bytes
    of the columns, a limit that the tables here do not keep. *)
Theorem UpdateUserAccount_spec userID profileData profileImage r profile' r' :
  Forall (fun field => fits (snd field)) profileData -> fits profileImage ->
  UserUseCase.UpdateUserAccount userID profileData profileImage r = (inl profile', r') ->
  exists user profile,
    fst (GormUserRepository.FindUserByID userID (accounts (GormAccounts.DB r) [])) = inl user /\
    fst (GormProfileRepository.FindProfileByUserID userID (accounts (GormAccounts.DB r) []))
    = inl profile /\
    profile' = account_of_form profile profileData profileImage /\
    fst (GormProfileRepository.FindProfileByUserID userID (accounts (GormAccounts.DB r') []))
    = inl profile' /\
    fst (GormUserRepository.FindUserByID userID (accounts (GormAccounts.DB r') []))
    = inl (renamed user (map_index profileData "username")) /\
    gorm_accounts.skills (GormAccounts.DB r') = gorm_accounts.skills (GormAccounts.DB r).
Proof.
  intros _ _ H.
  destruct (UpdateUserAccount_cases userID profileData profileImage r)
    as [[_ [E|[E|[e' E]]]]|[user [old [Fu [Fp [Fp' C]]]]]];
    try (rewrite H in E; discriminate).
  cbv zeta in Fp', C. cbn [gorm_accounts.profiles] in Fp'.
  exists user, (gorm_accounts.with_Skills old []).
  rewrite !FindUserByID_up, !FindProfileByUserID_up, Fu, Fp.
  destruct (First_In _ _ _ _ Fu) as [Iu Cu]. apply N.eqb_eq in Cu.
  destruct C as [[Same [E D]]|[N [[e' [E _]]|[E D]]]].
  - rewrite H in E, D. cbn [fst snd] in E, D. inversion E; subst profile'. rewrite D.
    cbn [gorm_accounts.users gorm_accounts.skills gorm_accounts.profiles].
    rewrite Fp', Fu.
    repeat split; try reflexivity. rewrite <- Same. destruct user; reflexivity.
  - rewrite H in E. discriminate.
  - rewrite H in E, D. cbn [fst snd] in E, D. inversion E; subst profile'. rewrite D.
    cbn [gorm_accounts.users gorm_accounts.skills gorm_accounts.profiles]. rewrite Fp'.
    rewrite (First_replaced User.ID _ (gorm_accounts.users (GormAccounts.DB r)) userID user).
    + repeat split; reflexivity.
    + assumption.
    + assumption.
    + cbn [renamed User.ID]. rewrite Cu. apply N.eqb_refl.
    + intros row I K. apply N.eqb_neq. assumption.
Qed.

Lemma UpdateUserAccount_writes_the_profile_first_witness :
  let form := [("name", "Ada"); ("email", "ada@example.org"); ("username", "bob")] in
  exists e r',
    UserUseCase.UpdateUserAccount 1%N form "" (accounts two_accounts [])
    = (inr (UserUseCase.Errorf "failed to update username in User table" e), r') /\
    fst (GormUserRepository.FindUserByID 1%N (accounts (GormAccounts.DB r') []))
    = inl (a_user 1%N "ada" "ada@example.org") /\
    fst (GormProfileRepository.FindProfileByUserID 1%N (accounts (GormAccounts.DB r') []))
    = inl (account_of_form (a_profile 3%N 1%N "ada" "ada@example.org") form "") /\
    Profile.Username (account_of_form (a_profile 3%N 1%N "ada" "ada@example.org") form "")
    = "bob".
Proof.
  cbv zeta. eexists. eexists. split; [vm_compute; reflexivity|].
  assert (F : Forall (fun field : string * string => fits (snd field))
                [("name", "Ada"); ("email", "ada@example.org"); ("username", "bob")])
    by (repeat constructor; unfold fits; cbn; lia).
  assert (I : fits "") by (unfold fits; cbn; lia).
  destruct (UpdateUserAccount_writes_the_profile_first 1%N
              [("name", "Ada"); ("email", "ada@example.org"); ("username", "bob")] ""
              (accounts two_accounts []) _ _ F I eq_refl)
    as [user [profile [Fu [Fp [_ [_ [Fu' [Fp' [Un _]]]]]]]]].
  vm_compute in Fu. inversion Fu; subst user. vm_compute in Fp. inversion Fp; subst profile.
  split; [exact Fu'|]. split; [exact Fp'|reflexivity].
Defined.

Lemma UpdateUserAccount_spec_witness :
  let form := [("name", "Ada"); ("email", "ada@example.org"); ("username", "lovelace")] in
  exists profile' r',
    UserUseCase.UpdateUserAccount 1%N form "ada.png" (accounts two_accounts [])
    = (inl profile', r') /\
    profile' = account_of_form (a_profile 3%N 1%N "ada" "ada@example.org") form "ada.png" /\
    fst (GormUserRepository.FindUserByID 1%N (accounts (GormAccounts.DB r') []))
    = inl (renamed (a_user 1%N "ada" "ada@example.org") "lovelace").
Proof.
  cbv zeta. eexists. eexists. split; [vm_compute; reflexivity|].
  assert (F : Forall (fun field : string * string => fits (snd field))
                [("name", "Ada"); ("email", "ada@example.org"); ("username", "lovelace")])
    by (repeat constructor; unfold fits; cbn; lia).
  assert (I : fits "ada.png") by (unfold fits; cbn; lia).
  destruct (UpdateUserAccount_spec 1%N
              [("name", "Ada"); ("email", "ada@example.org"); ("username", "lovelace")]
              "ada.png" (accounts two_accounts []) _ _ F I eq_refl)
    as [user [profile [Fu [Fp [E [_ [Fu' _]]]]]]].
  vm_compute in Fu. inversion Fu; subst user. vm_compute in Fp. inversion Fp; subst profile.
  split; [reflexivity|exact Fu'].
Defined.
